(** * secure-sphere: the credential-backed authentication and audit flow

    A shallow embedding of the TypeScript sources

    - [utils/encryption.ts]           (field cipher, [encryptObject],
                                       [decryptObject]),
    - [app/api/biometric-credentials/route.ts] (credential store endpoints),
    - [app/api/security-logs/route.ts]         (audit log endpoints),
    - [app/api/credit-cards/route.ts]          (card endpoints),
    - [app/api/face-template/route.ts]         (face template endpoints),
    - the route that returns the profile of a user for a biometric login,
    - [utils/biometricAuthClient.ts], [utils/biometricAuthServer.ts]
                                      (WebAuthn enrollment and verification,
                                       base64 helpers, credential queries),
    - [utils/authHelpers.ts]          (the stand-alone face functions),
    - [contexts/AuthContext.tsx]      ([logSecurityEvent], [setupFaceAuth],
                                       [signInWithFace], [signIn], [signUp],
                                       [signInWithGoogle], [signOut]),

    followed by the properties the specification states about them, and by
    further properties of the same code.

    Modelling conventions.
    - A JavaScript exception is a value [Throw msg] of the type [result];
      [try { .. } catch (e) { .. }] is [try_catch].
    - Cloud Firestore is an in-memory value: a collection queried with
      [where] is a list of documents in the order the query returns them, a
      collection addressed by document id is a [gmap].  A Firestore call
      fails where the code gives it something it refuses: a document that
      does not exist ([updateDoc]), a field that is undefined ([setDoc],
      [updateDoc]), an identifier that is no document path ([doc]).  The
      write of an audit event by the page can be refused as well, by the
      security rules or the network: whether it is, is an input.  The
      other calls of the route handlers go through, and the [catch] arms
      of the handlers are kept.
    - A route handler runs from request to answer; where two requests in
      flight matter, the handler is given await by await ([POST_lookup],
      [POST_add]).
    - [fetch] of an application route is a call of the route handler.
    - [new Date()], the identifier [addDoc] generates, random salts, what
      the platform authenticator answers and what the Firebase
      Authentication SDK answers are inputs.
    - A string is a sequence of characters below 256; a JSON body has the
      fields and the types its record gives it. *)

From stdpp Require Import base option list strings gmap fin_maps.
From Stdlib Require Import ZArith Strings.Byte Ascii String Sorted Permutation Lia.

Local Open Scope string_scope.
Local Open Scope Z_scope.
Local Open Scope list_scope.

(** ** Exceptions *)

Inductive result (A : Type) : Type :=
  | Ok (a : A)
  | Throw (message : string).
Arguments Ok {A} a.
Arguments Throw {A} message.

#[global] Instance result_ret : MRet result := @Ok.
#[global] Instance result_bind : MBind result := fun A B f r =>
  match r with
  | Ok a => f a
  | Throw e => Throw e
  end.

(** [try { body } catch (error) { handler(error.message) }] *)
Definition try_catch {A} (body : result A) (handler : string → result A) : result A :=
  match body with
  | Ok a => Ok a
  | Throw e => handler e
  end.

(** [for (const x of xs) { acc = body(x, acc) }], stopping at the first
    exception that leaves the body. *)
Fixpoint for_of {A S} (xs : list A) (acc : S) (body : A → S → result S) : result S :=
  match xs with
  | [] => Ok acc
  | x :: xs' =>
      match body x acc with
      | Ok acc' => for_of xs' acc' body
      | Throw e => Throw e
      end
  end.

(** ** JavaScript and browser primitives the sources call *)

Module JS.

(** Truthiness of a string: only the empty string is falsy. *)
Definition truthy (s : string) : bool :=
  match s with
  | EmptyString => false
  | String _ _ => true
  end.

(** Truthiness of a string that may be [undefined] or [null]. *)
Definition truthy_opt (o : option string) : bool :=
  match o with
  | Some s => truthy s
  | None => false
  end.

(** [a || b] on strings. *)
Definition or_else (a : option string) (b : string) : string :=
  match a with
  | Some s => if truthy s then s else b
  | None => b
  end.

(** [n || 0] on numbers. *)
Definition or_zero (n : option Z) : Z :=
  match n with
  | Some k => if k =? 0 then 0 else k
  | None => 0
  end.

(** *** [btoa] and the [replace] calls of [arrayBufferToBase64url] *)

Definition b64_digit (n : N) : ascii :=
  if (n <? 26)%N then ascii_of_N (65 + n)
  else if (n <? 52)%N then ascii_of_N (97 + (n - 26))
  else if (n <? 62)%N then ascii_of_N (48 + (n - 52))
  else if (n =? 62)%N then "+"%char
  else "/"%char.

Fixpoint btoa (s : string) : string :=
  match s with
  | EmptyString => EmptyString
  | String a EmptyString =>
      let x := N_of_ascii a in
      String (b64_digit (x / 4))
        (String (b64_digit ((x mod 4) * 16)) "==")
  | String a (String b EmptyString) =>
      let x := N_of_ascii a in
      let y := N_of_ascii b in
      String (b64_digit (x / 4))
        (String (b64_digit ((x mod 4) * 16 + y / 16))
           (String (b64_digit ((y mod 16) * 4)) "="))
  | String a (String b (String c rest)) =>
      let x := N_of_ascii a in
      let y := N_of_ascii b in
      let z := N_of_ascii c in
      String (b64_digit (x / 4))
        (String (b64_digit ((x mod 4) * 16 + y / 16))
           (String (b64_digit ((y mod 16) * 4 + z / 64))
              (String (b64_digit (z mod 64)) (btoa rest))))
  end.

(** [s.replace(/c/g, r)] for a one-character pattern. *)
Fixpoint replace_all (c : ascii) (r : string) (s : string) : string :=
  match s with
  | EmptyString => EmptyString
  | String a s' =>
      if Ascii.eqb a c then r +:+ replace_all c r s' else String a (replace_all c r s')
  end.

(** *** The query string of a request URL

    [url_query_value v] is what [searchParams.get(k)] returns for a URL
    built as [`...?k=${v}`]: the value ends at the first [&] or [#], a [+]
    is a space, and [%XX] is the byte [XX]. *)

Definition hex_value (c : ascii) : option N :=
  let n := N_of_ascii c in
  if ((48 <=? n) && (n <=? 57))%N then Some (n - 48)%N
  else if ((65 <=? n) && (n <=? 70))%N then Some (n - 55)%N
  else if ((97 <=? n) && (n <=? 102))%N then Some (n - 87)%N
  else None.

Fixpoint url_query_value (v : string) : string :=
  match v with
  | EmptyString => EmptyString
  | String a rest =>
      if Ascii.eqb a "&" || Ascii.eqb a "#" then EmptyString
      else if Ascii.eqb a "+" then String " " (url_query_value rest)
      else if Ascii.eqb a "%" then
        match rest with
        | String h (String l rest') =>
            match hex_value h, hex_value l with
            | Some x, Some y => String (ascii_of_N (16 * x + y)) (url_query_value rest')
            | _, _ => String a (url_query_value rest)
            end
        | _ => String a (url_query_value rest)
        end
      else String a (url_query_value rest)
  end.

(** The characters of the base64url alphabet. *)
Definition url_safe (a : ascii) : bool :=
  let n := N_of_ascii a in
  ((48 <=? n) && (n <=? 57) || (65 <=? n) && (n <=? 90)
   || (97 <=? n) && (n <=? 122) || (n =? 45) || (n =? 95))%N.

Fixpoint all_chars (p : ascii → bool) (s : string) : bool :=
  match s with
  | EmptyString => true
  | String a s' => p a && all_chars p s'
  end.

(** *** [parseInt(s)] with no radix argument

    [None] is [NaN].  Leading white space is skipped, a sign is read, a
    [0x] or [0X] prefix selects radix 16, and the longest run of digits is
    the value.  White space is the part of the ECMAScript class below 256:
    tab, line feed, vertical tab, form feed, carriage return, space and
    the no-break space U+00A0.  The value is the integer the digits
    denote; an engine rounds it to a double, which changes nothing below
    2^53 and never moves a value across a bound below 2^53. *)

Definition is_space (a : ascii) : bool :=
  let n := N_of_ascii a in
  ((9 <=? n) && (n <=? 13) || (n =? 32) || (n =? 160))%N.

Fixpoint skip_space (s : string) : string :=
  match s with
  | String a s' => if is_space a then skip_space s' else s
  | EmptyString => EmptyString
  end.

Fixpoint parse_digits (radix : N) (s : string) (acc : option Z) : option Z :=
  match s with
  | EmptyString => acc
  | String a s' =>
      match hex_value a with
      | Some d =>
          if (d <? radix)%N
          then parse_digits radix s' (Some (default 0 acc * Z.of_N radix + Z.of_N d))
          else acc
      | None => acc
      end
  end.

Definition parse_unsigned (s : string) : option Z :=
  match s with
  | String "0" (String x s') =>
      if Ascii.eqb x "x" || Ascii.eqb x "X" then parse_digits 16 s' None
      else parse_digits 10 s None
  | _ => parse_digits 10 s None
  end.

Definition parseInt (s : string) : option Z :=
  match skip_space s with
  | String "-" s' => Z.opp <$> parse_unsigned s'
  | String "+" s' => parse_unsigned s'
  | s' => parse_unsigned s'
  end.

(** *** [Array.prototype.sort(compare)]

    The sort is stable: [b] moves in front of [a] only when
    [compare a b > 0]. *)

Fixpoint sort_insert {A} (compare : A → A → Z) (x : A) (l : list A) : list A :=
  match l with
  | [] => [x]
  | y :: l' =>
      if 0 <? compare x y then y :: sort_insert compare x l' else x :: y :: l'
  end.

Definition sort {A} (compare : A → A → Z) (l : list A) : list A :=
  foldr (sort_insert compare) [] l.

(** [l.slice(0, n)] for an integer [n]; a negative [n] counts from the end. *)
Definition slice0 {A} (n : Z) (l : list A) : list A :=
  if n <? 0 then take (List.length l - Z.to_nat (- n)) l else take (Z.to_nat n) l.

End JS.

(** ** utils/encryption.ts *)

Module Encryption.

(** The symmetric cipher of the crypto-js package, seen through the two
    expressions the application evaluates.  [AES_encrypt data pass salt] is
    [CryptoJS.AES.encrypt(data, pass).toString()], the salt being the random
    bytes the library draws; [AES_decrypt_Utf8 c pass] is
    [CryptoJS.AES.decrypt(c, pass).toString(CryptoJS.enc.Utf8)], which
    raises on bytes that are not UTF-8.  The two laws are the contract of
    the library: encryption of a string succeeds, and decryption under the
    same passphrase gives the string back. *)
Class CryptoJS := {
  AES_encrypt : string → string → string → result string;
  AES_decrypt_Utf8 : string → string → result string;
  AES_encrypt_total : ∀ data pass salt, ∃ c, AES_encrypt data pass salt = Ok c;
  AES_decrypt_encrypt : ∀ data pass salt c,
    AES_encrypt data pass salt = Ok c → AES_decrypt_Utf8 c pass = Ok data
}.

(** An instance of the contract on which the definitions below can be run:
    the "ciphertext" is the passphrase, a [$] and the data in the clear (the
    salt is not used), and decryption under another passphrase yields no
    bytes, as crypto-js does when the padding check fails. *)
Definition demo_encrypt (data pass salt : string) : result string :=
  Ok (pass +:+ "$" +:+ data).

Fixpoint strip_prefix (p s : string) : option string :=
  match p with
  | EmptyString => Some s
  | String a p' =>
      match s with
      | String b s' => if Ascii.eqb a b then strip_prefix p' s' else None
      | EmptyString => None
      end
  end.

Definition demo_decrypt (c pass : string) : result string :=
  match strip_prefix (pass +:+ "$") c with
  | Some data => Ok data
  | None => Ok ""
  end.

Section Util.
Context `{CryptoJS}.

(** [process.env.NEXT_PUBLIC_ENCRYPTION_KEY] *)
Variable NEXT_PUBLIC_ENCRYPTION_KEY : option string.

Definition ENCRYPTION_KEY : string :=
  JS.or_else NEXT_PUBLIC_ENCRYPTION_KEY "default_32_character_key_for_demo".

Definition encrypt (salt : string) (data : string) : result string :=
  try_catch
    (encrypted ← AES_encrypt data ENCRYPTION_KEY salt;
     Ok encrypted)
    (fun _ => Throw "Failed to encrypt data").

Definition decrypt (encryptedData : string) : result string :=
  try_catch
    (decryptedString ← AES_decrypt_Utf8 encryptedData ENCRYPTION_KEY;
     if negb (JS.truthy decryptedString)
     then Throw "Failed to decrypt data - invalid key or corrupted data"
     else Ok decryptedString)
    (fun _ => Throw "Failed to decrypt data").

(** [decrypt(encrypt(s))] *)
Definition decrypt_encrypt (salt : string) (s : string) : result string :=
  c ← encrypt salt s; decrypt c.

Definition DECRYPTION_FAILED : string := "[DECRYPTION_FAILED]".

(** A [Record<string, string>] is a finite map; [Object.entries] lists
    its bindings. *)
Definition decryptObject (encryptedObj : gmap string string)
  : result (gmap string string) :=
  for_of (map_to_list encryptedObj) (∅ : gmap string string)
    (fun '(key, value) decrypted =>
       if JS.truthy value then
         try_catch
           (plain ← decrypt value;
            Ok (<[key := plain]> decrypted))
           (fun _ => Ok (<[key := DECRYPTION_FAILED]> decrypted))
       else Ok decrypted).

(** What one field of the result holds, read off the loop body. *)
Definition decrypted_field (value : string) : option string :=
  if JS.truthy value then
    match decrypt value with
    | Ok plain => Some plain
    | Throw _ => Some DECRYPTION_FAILED
    end
  else None.

(** [encryptObject]: a value of the [Record<string, unknown>] is [None]
    when it is [null] or [undefined], and [Some s] when [String(value)] is
    [s]; [salt key] is the salt the library draws for the field [key]. *)
Definition encryptObject (salt : string → string) (obj : gmap string (option string))
  : result (gmap string string) :=
  for_of (map_to_list obj) (∅ : gmap string string)
    (fun '(key, value) encrypted =>
       match value with
       | Some value =>
           c ← encrypt (salt key) value;
           Ok (<[key := c]> encrypted)
       | None => Ok encrypted
       end).

End Util.

End Encryption.

(** ** Cloud Firestore and HTTP responses *)

Module Firestore.

(** A collection queried with [where]: the documents, each with its
    identifier, in the order a query returns them.  A document reference
    ([doc.ref]) is the position of the document in the collection. *)
Abbreviation Collection D := (list (string * D)).

(** [getDocs(query(collection, where(field, "==", v)))]: the matching
    documents with their references. *)
Definition getDocs {D} (matches : D → bool) (c : Collection D)
  : result (list (nat * (string * D))) :=
  Ok (filter (fun d => matches d.2.2) (imap (fun i d => (i, d)) c)).

(** [addDoc(collection, data)]; [fresh] is the identifier Firestore
    generates.  Firestore returns the documents of a query without
    [orderBy] in the order of their identifiers: where the new document
    stands among the others is decided by [fresh], and its place at the
    end of the list means nothing. *)
Definition addDoc {D} (fresh : string) (data : D) (c : Collection D)
  : result (string * Collection D) :=
  Ok (fresh, c ++ [(fresh, data)]).

(** [updateDoc(ref, fields)] *)
Definition updateDoc {D} (ref : nat) (fields : D → D) (c : Collection D)
  : result (Collection D) :=
  Ok (alter (fun d => (d.1, fields d.2)) ref c).

(** [Promise.all(snapshot.docs.map((doc) => deleteDoc(doc.ref)))] for the
    snapshot of the query [matches]. *)
Definition deleteDocs {D} (matches : D → bool) (c : Collection D)
  : result (Collection D) :=
  Ok (filter (fun d => negb (matches d.2)) c).

(** *** Documents addressed by identifier

    [doc(db, collection, id)] splits [id] at every [/], drops the empty
    segments, and throws when [id] contains [//] or when the path of the
    collection and these segments has an odd number of segments.  One
    segment [x] is the document [x] of the collection; more segments name
    a document of a nested collection.  The result is the path below the
    collection. *)

Fixpoint split_slash (s : string) : list string :=
  match s with
  | EmptyString => [EmptyString]
  | String a s' =>
      if Ascii.eqb a "/" then EmptyString :: split_slash s'
      else match split_slash s' with
           | segment :: segments => String a segment :: segments
           | [] => [String a EmptyString]
           end
  end.

Fixpoint double_slash (s : string) : bool :=
  match s with
  | String a (String b _ as s') => Ascii.eqb a "/" && Ascii.eqb b "/" || double_slash s'
  | _ => false
  end.

Definition doc (id : string) : result (list string) :=
  if double_slash id
  then Throw ("Invalid segment (" +:+ id +:+ "). Paths must not contain // in them.")
  else
    let segments := filter (fun segment => segment ≠ EmptyString) (split_slash id) in
    if Nat.even (S (List.length segments))
    then Ok segments
    else Throw "Invalid document reference. Document references must have an even number of segments.".

(** The same, by the place of the document: in the collection itself, or
    in a collection nested in it. *)
Inductive Reference : Type :=
  | Document (x : string)
  | Nested (path : list string).

Definition reference (id : string) : result Reference :=
  path ← doc id;
  match path with
  | [x] => Ok (Document x)
  | _ => Ok (Nested path)
  end.

(** An identifier as Firestore and Firebase Authentication generate them:
    letters and digits, at least one and at most 1500. *)
Definition letter_or_digit (a : ascii) : bool :=
  let n := N_of_ascii a in
  ((48 <=? n) && (n <=? 57) || (65 <=? n) && (n <=? 90) || (97 <=? n) && (n <=? 122))%N.

Definition plain_id (id : string) : bool :=
  negb (bool_decide (id = EmptyString)) && JS.all_chars letter_or_digit id
  && (String.length id <=? 1500)%nat.

End Firestore.

Module Http.

Section Response.
Context {J : Type}.

(** [NextResponse.json(body, { status })] *)
Record Response : Type := json { body : J; status : Z }.

(** [response.ok] *)
Definition ok (r : Response) : bool := (200 <=? status r) && (status r <=? 299).

(** The [try { .. } catch (error) { return 500 }] frame of a route handler
    over the store [S]. *)
Definition or_500 {S} (run : result (Response * S)) (failure : J) (store : S)
  : Response * S :=
  match run with
  | Ok r => r
  | Throw _ => (json failure 500, store)
  end.

End Response.
Arguments Response : clear implicits.

End Http.

(** ** app/api/biometric-credentials/route.ts *)

Module BiometricCredentials.
Import Http.

(** A document of the collection [biometricCredentials]. *)
Record Data : Type := {
  userId : string;
  publicKey : string;
  credentialId : string;
  counter : Z;
  deviceInfo : option string;
  createdAt : option Z;
  lastUsed : option Z
}.

(** [interface BiometricCredential] *)
Record BiometricCredential : Type := {
  bc_id : string;
  bc_userId : string;
  bc_publicKey : string;
  bc_credentialId : string;
  bc_counter : Z;
  bc_createdAt : Z;
  bc_lastUsed : option Z;
  bc_deviceInfo : option string
}.

Inductive Json : Type :=
  | Error (error : string)
  | Credentials (credentials : list BiometricCredential)
  | Stored (id : string) (message : string)
  | Message (message : string)
  | Deleted (size : nat).

Abbreviation Store := (Firestore.Collection Data).

(** The query of [GET] and [DELETE]: by [credentialId] when the parameter
    is given and not empty, by [userId] otherwise. *)
Definition credentialsQuery (userId' credentialId' : option string) (data : Data) : bool :=
  if JS.truthy_opt credentialId'
  then bool_decide (Some (credentialId data) = credentialId')
  else bool_decide (Some (userId data) = userId').

(** GET - Fetch biometric credentials for a user or find user by credential ID.
    [userId'] and [credentialId'] are [searchParams.get(..)]. *)
Definition GET (now : Z) (userId' credentialId' : option string) (store : Store)
  : Response Json * Store :=
  or_500
    (if negb (JS.truthy_opt userId') && negb (JS.truthy_opt credentialId')
     then Ok (json (Error "Either userId or credentialId is required") 400, store)
     else
       querySnapshot ← Firestore.getDocs (credentialsQuery userId' credentialId') store;
       let credentials :=
         map (fun d : nat * (string * Data) =>
                let data := d.2.2 in
                {| bc_id := d.2.1;
                   bc_userId := userId data;
                   bc_publicKey := publicKey data;
                   bc_credentialId := credentialId data;
                   bc_counter := JS.or_zero (Some (counter data));
                   bc_createdAt := default now (createdAt data);
                   bc_lastUsed := lastUsed data;
                   bc_deviceInfo := deviceInfo data |})
             querySnapshot in
       Ok (json (Credentials credentials) 200, store))
    (Error "Failed to fetch biometric credentials") store.

(** The JSON body of a [POST]; a field that is absent is [None]. *)
Record PostBody : Type := {
  post_userId : option string;
  post_publicKey : option string;
  post_credentialId : option string;
  post_counter : option Z;
  post_deviceInfo : option string
}.

(** POST - Store a new biometric credential *)
Definition POST (now : Z) (fresh : string) (body : PostBody) (store : Store)
  : Response Json * Store :=
  or_500
    (let counter' := default 0 (post_counter body) in
     match post_userId body, post_publicKey body, post_credentialId body with
     | Some userId', Some publicKey', Some credentialId' =>
         if negb (JS.truthy userId') || negb (JS.truthy publicKey')
            || negb (JS.truthy credentialId')
         then Ok (json (Error "Missing required fields: userId, publicKey, credentialId") 400, store)
         else
           existingSnapshot ←
             Firestore.getDocs (fun d => bool_decide (credentialId d = credentialId')) store;
           if negb (bool_decide (existingSnapshot = []))
           then Ok (json (Error "Credential already exists") 409, store)
           else
             let credentialData :=
               {| userId := userId';
                  publicKey := publicKey';
                  credentialId := credentialId';
                  counter := counter';
                  deviceInfo := post_deviceInfo body;
                  createdAt := Some now;
                  lastUsed := None |} in
             '(docRef, store') ← Firestore.addDoc fresh credentialData store;
             Ok (json (Stored docRef "Biometric credential stored successfully") 201, store')
     | _, _, _ =>
         Ok (json (Error "Missing required fields: userId, publicKey, credentialId") 400, store)
     end)
    (Error "Failed to store biometric credential") store.

(** *** [POST], await by await

    A handler gives way to the other requests in flight at each [await].
    [POST] awaits [getDocs] and later [addDoc], and no transaction joins
    the two: [POST_lookup] is the handler up to the snapshot, against the
    store as it is then, and [POST_add] the rest, against the store as it
    is when the handler goes on. *)
Inductive Pending : Type :=
  | Answered (response : Response Json)
  | Adding (userId' publicKey' credentialId' : string).

Definition POST_lookup (body : PostBody) (store : Store) : Pending :=
  match post_userId body, post_publicKey body, post_credentialId body with
  | Some userId', Some publicKey', Some credentialId' =>
      if negb (JS.truthy userId') || negb (JS.truthy publicKey')
         || negb (JS.truthy credentialId')
      then Answered (json (Error "Missing required fields: userId, publicKey, credentialId") 400)
      else
        match Firestore.getDocs (fun d => bool_decide (credentialId d = credentialId')) store with
        | Ok existingSnapshot =>
            if negb (bool_decide (existingSnapshot = []))
            then Answered (json (Error "Credential already exists") 409)
            else Adding userId' publicKey' credentialId'
        | Throw _ => Answered (json (Error "Failed to store biometric credential") 500)
        end
  | _, _, _ =>
      Answered (json (Error "Missing required fields: userId, publicKey, credentialId") 400)
  end.

Definition POST_add (now : Z) (fresh : string) (body : PostBody) (pending : Pending)
    (store : Store) : Response Json * Store :=
  match pending with
  | Answered response => (response, store)
  | Adding userId' publicKey' credentialId' =>
      or_500
        (let credentialData :=
           {| userId := userId';
              publicKey := publicKey';
              credentialId := credentialId';
              counter := default 0 (post_counter body);
              deviceInfo := post_deviceInfo body;
              createdAt := Some now;
              lastUsed := None |} in
         '(docRef, store') ← Firestore.addDoc fresh credentialData store;
         Ok (json (Stored docRef "Biometric credential stored successfully") 201, store'))
        (Error "Failed to store biometric credential") store
  end.

(** The JSON body of a [PUT]; [put_counter] is [None] unless
    [typeof counter === "number"]. *)
Record PutBody : Type := {
  put_credentialId : option string;
  put_counter : option Z
}.

(** PUT - Update credential counter after authentication *)
Definition PUT (now : Z) (body : PutBody) (store : Store) : Response Json * Store :=
  or_500
    (match put_counter body with
     | Some counter' =>
         if negb (JS.truthy_opt (put_credentialId body))
         then Ok (json (Error "Missing required fields: credentialId, counter") 400, store)
         else
           querySnapshot ←
             Firestore.getDocs
               (fun d => bool_decide (Some (credentialId d) = put_credentialId body)) store;
           match querySnapshot with
           | [] => Ok (json (Error "Credential not found") 404, store)
           | credentialDoc :: _ =>
               store' ←
                 Firestore.updateDoc credentialDoc.1
                   (fun d => {| userId := userId d;
                                publicKey := publicKey d;
                                credentialId := credentialId d;
                                counter := counter';
                                deviceInfo := deviceInfo d;
                                createdAt := createdAt d;
                                lastUsed := Some now |})
                   store;
               Ok (json (Message "Credential updated successfully") 200, store')
           end
     | None => Ok (json (Error "Missing required fields: credentialId, counter") 400, store)
     end)
    (Error "Failed to update biometric credential") store.

(** DELETE - Remove biometric credentials for a user *)
Definition DELETE (userId' credentialId' : option string) (store : Store)
  : Response Json * Store :=
  or_500
    (if negb (JS.truthy_opt userId') && negb (JS.truthy_opt credentialId')
     then Ok (json (Error "Either userId or credentialId is required") 400, store)
     else
       querySnapshot ← Firestore.getDocs (credentialsQuery userId' credentialId') store;
       store' ← Firestore.deleteDocs (credentialsQuery userId' credentialId') store;
       Ok (json (Deleted (List.length querySnapshot)) 200, store'))
    (Error "Failed to delete biometric credentials") store.

(** The stored counter of the credential [cid], if the store has it. *)
Definition stored_counter (cid : string) (store : Store) : option Z :=
  counter <$> (snd <$> head (filter (fun d => bool_decide (credentialId d.2 = cid)) store)).

(** Every stored identifier, user and key is a non-empty string, as [POST]
    requires of what it stores. *)
Definition stored_by_POST (store : Store) : bool :=
  forallb (fun d => JS.truthy (userId d.2) && JS.truthy (publicKey d.2)
                    && JS.truthy (credentialId d.2)) store.

End BiometricCredentials.

(** ** app/api/security-logs/route.ts *)

Module SecurityLogs.
Import Http.

(** A document of the collection [securityLogs]. *)
Record Data : Type := {
  userId : string;
  action : string;
  method : string;
  success : bool;
  ipAddress : string;
  userAgent : string;
  location : option string;
  details : option string;
  timestamp : option Z
}.

(** [interface SecurityLog], as [GET] fills it. *)
Record SecurityLog : Type := {
  log_id : string;
  log_userId : string;
  log_action : string;
  log_method : string;
  log_success : bool;
  log_timestamp : Z;
  log_ipAddress : string;
  log_userAgent : string;
  log_details : option string
}.

Inductive Json : Type :=
  | Error (error : string)
  | Logs (logs : list SecurityLog)
  | Stored (id : string) (message : string).

Abbreviation Store := (Firestore.Collection Data).

(** [where("userId", "==", userId)], and [where("action", "==", action)]
    when [action] is given and not empty. *)
Definition logsQuery (userId' : string) (action' : option string) (data : Data) : bool :=
  bool_decide (userId data = userId')
  && (if JS.truthy_opt action' then bool_decide (Some (action data) = action') else true).

(** [(a, b) => b.timestamp.getTime() - a.timestamp.getTime()] *)
Definition newest_first (a b : SecurityLog) : Z := log_timestamp b - log_timestamp a.

(** GET - Fetch security logs for a user.  [clock i] is what [new Date()]
    reads while the [i]-th document of the snapshot is converted. *)
Definition GET (clock : nat → Z) (userId' limit' action' : option string) (store : Store)
  : Response Json * Store :=
  or_500
    (let limitCount := JS.parseInt (JS.or_else limit' "50") in
     match userId' with
     | Some userId'' =>
         if negb (JS.truthy userId'')
         then Ok (json (Error "User ID is required") 400, store)
         else
           querySnapshot ← Firestore.getDocs (logsQuery userId'' action') store;
           let logs :=
             imap (fun i (d : nat * (string * Data)) =>
                     let data := d.2.2 in
                     {| log_id := d.2.1;
                        log_userId := userId data;
                        log_action := action data;
                        log_method := method data;
                        log_success := success data;
                        log_timestamp := default (clock i) (timestamp data);
                        log_ipAddress := ipAddress data;
                        log_userAgent := userAgent data;
                        log_details := details data |})
                  querySnapshot in
           let logs := JS.sort newest_first logs in
           let limitedLogs :=
             match limitCount with
             | Some n => if (0 <? n) && (n <=? 100) then JS.slice0 n logs else logs
             | None => logs
             end in
           Ok (json (Logs limitedLogs) 200, store)
     | None => Ok (json (Error "User ID is required") 400, store)
     end)
    (Error "Failed to fetch security logs") store.

(** The JSON body of a [POST]; [post_success] is [None] unless
    [typeof success === "boolean"]. *)
Record PostBody : Type := {
  post_userId : option string;
  post_action : option string;
  post_method : option string;
  post_success : option bool;
  post_ipAddress : option string;
  post_userAgent : option string;
  post_location : option string;
  post_details : option string
}.

(** POST - Add a new security log *)
Definition POST (now : Z) (fresh : string) (body : PostBody) (store : Store)
  : Response Json * Store :=
  or_500
    (let ipAddress' := default "unknown" (post_ipAddress body) in
     let userAgent' := default "unknown" (post_userAgent body) in
     match post_success body with
     | Some success' =>
         if negb (JS.truthy_opt (post_userId body)) || negb (JS.truthy_opt (post_action body))
            || negb (JS.truthy_opt (post_method body))
         then Ok (json (Error "Missing required fields: userId, action, method, success") 400, store)
         else
           let logData :=
             {| userId := default "" (post_userId body);
                action := default "" (post_action body);
                method := default "" (post_method body);
                success := success';
                ipAddress := ipAddress';
                userAgent := userAgent';
                location := post_location body;
                details := post_details body;
                timestamp := Some now |} in
           '(docRef, store') ← Firestore.addDoc fresh logData store;
           Ok (json (Stored docRef "Security log added successfully") 201, store')
     | None =>
         Ok (json (Error "Missing required fields: userId, action, method, success") 400, store)
     end)
    (Error "Failed to add security log") store.

End SecurityLogs.

(** ** types/index.ts and the state the client code runs in *)

Module Types.

(** The fields of a Firebase [User] the application reads or fills.  The
    [uid] is an identifier of Firebase Authentication, letters and digits,
    which names the document of the user in [users] as it is. *)
Record User : Type := {
  uid : string;
  email : option string;
  displayName : option string;
  photoURL : option string;
  providerId : string;
  creationTime : Z;
  lastSignInTime : Z
}.

Record AuthMethod : Type := {
  type : string;
  enabled : bool;
  setupAt : Z
}.

Record SecuritySettings : Type := {
  twoFactorEnabled : bool;
  faceRecognitionEnabled : bool;
  sessionTimeout : Z;
  autoLogout : bool;
  encryptionEnabled : bool
}.

(** [interface UserProfile]; as a document of the collection [users] it
    also carries [biometricCredentialId] once [setupFaceAuth] has run. *)
Record UserProfile : Type := {
  profile_uid : string;
  profile_email : string;
  profile_displayName : string;
  profile_photoURL : option string;
  profileCompleted : bool;
  createdAt : Z;
  lastLoginAt : Z;
  authMethods : list AuthMethod;
  securitySettings : option SecuritySettings;
  biometricCredentialId : option string
}.

(** The result of [registerBiometric] and [authenticateUser]. *)
Record BiometricAuthResult : Type := {
  success : bool;
  credentialId : option string;
  userId : option string;
  error : option string
}.

End Types.

Module World.
Import Types.

(** The three Firestore collections, the [isInitialized] flag of the
    [biometricAuthServer] singleton and the React state of [AuthProvider]. *)
Record World : Type := mk {
  biometricCredentials : BiometricCredentials.Store;
  securityLogs : SecurityLogs.Store;
  users : gmap string UserProfile;
  isInitialized : bool;
  user : option User;
  userProfile : option UserProfile;
  loading : bool
}.

Definition with_biometricCredentials (c : BiometricCredentials.Store) (w : World) : World :=
  mk c (securityLogs w) (users w) (isInitialized w) (user w) (userProfile w) (loading w).
Definition with_securityLogs (l : SecurityLogs.Store) (w : World) : World :=
  mk (biometricCredentials w) l (users w) (isInitialized w) (user w) (userProfile w) (loading w).
Definition with_users (u : gmap string UserProfile) (w : World) : World :=
  mk (biometricCredentials w) (securityLogs w) u (isInitialized w) (user w) (userProfile w) (loading w).
Definition with_isInitialized (b : bool) (w : World) : World :=
  mk (biometricCredentials w) (securityLogs w) (users w) b (user w) (userProfile w) (loading w).
Definition setUser (u : option User) (w : World) : World :=
  mk (biometricCredentials w) (securityLogs w) (users w) (isInitialized w) u (userProfile w) (loading w).
Definition setUserProfile (p : option UserProfile) (w : World) : World :=
  mk (biometricCredentials w) (securityLogs w) (users w) (isInitialized w) (user w) p (loading w).
Definition setLoading (b : bool) (w : World) : World :=
  mk (biometricCredentials w) (securityLogs w) (users w) (isInitialized w) (user w) (userProfile w) b.

(** An [async] function: it reads and writes the world and returns or
    throws. *)
Definition M (A : Type) : Type := World → result A * World.

#[global] Instance M_ret : MRet M := fun A a w => (Ok a, w).
#[global] Instance M_bind : MBind M := fun A B f m w =>
  match m w with
  | (Ok a, w') => f a w'
  | (Throw e, w') => (Throw e, w')
  end.

Definition throw {A} (message : string) : M A := fun w => (Throw message, w).

(** [try { body } catch (error) { handler(error.message) }] *)
Definition catch {A} (body : M A) (handler : string → M A) : M A := fun w =>
  match body w with
  | (Ok a, w') => (Ok a, w')
  | (Throw e, w') => handler e w'
  end.

(** [try { body } finally { cleanup }] *)
Definition finally {A} (body : M A) (cleanup : World → World) : M A := fun w =>
  let '(r, w') := body w in (r, cleanup w').

(** A value or exception that does not touch the world. *)
Definition lift {A} (r : result A) : M A := fun w => (r, w).

(** A state update such as [setLoading(true)]. *)
Definition modify (f : World → World) : M unit := fun w => (Ok tt, f w).

Definition get : M World := fun w => (Ok w, w).

(** [await fetch(..)] of a route over the credential store. *)
Definition fetch_credentials {J}
    (route : BiometricCredentials.Store → Http.Response J * BiometricCredentials.Store)
  : M (Http.Response J) := fun w =>
  let '(r, c) := route (biometricCredentials w) in (Ok r, with_biometricCredentials c w).

End World.

(** ** The browser *)

Module Browser.

(** The [PublicKeyCredential] that [navigator.credentials.create] returns. *)
Record Attestation : Type := {
  att_rawId : list byte;
  getPublicKey : option (list byte)
}.

(** The [PublicKeyCredential] that [navigator.credentials.get] returns. *)
Record Assertion : Type := {
  rawId : list byte;
  signature : list byte
}.

(** What one run of a client function observes of its surroundings.  The
    code runs in a browser: [typeof window] is never ["undefined"]. *)
Record Env : Type := {
  (** [window.PublicKeyCredential] is defined *)
  PublicKeyCredential : bool;
  (** [PublicKeyCredential.isUserVerifyingPlatformAuthenticatorAvailable()] *)
  isUserVerifyingPlatformAuthenticatorAvailable : result bool;
  (** [navigator.credentials.create({ publicKey })] *)
  credentials_create : result (option Attestation);
  (** [navigator.credentials.get({ publicKey })] *)
  credentials_get : result (option Assertion);
  (** [navigator.userAgent] *)
  userAgent : string;
  (** [new Date()] *)
  now : Z;
  (** the identifier of the next document [addDoc] creates *)
  fresh : string;
  (** what Firestore answers when the page adds a document to
      [securityLogs]: the security rules can refuse the write, and the
      network can fail *)
  addDoc_securityLogs : SecurityLogs.Data → result unit
}.

End Browser.

(** ** utils/biometricAuthClient.ts *)

Module BiometricAuthClient.
Import Types World Browser.

Definition arrayBufferToBase64 (buffer : list byte) : string :=
  let binary :=
    fold_left (fun binary b => binary +:+ String (ascii_of_byte b) EmptyString) buffer "" in
  JS.btoa binary.

Definition arrayBufferToBase64url (buffer : list byte) : string :=
  let base64 := arrayBufferToBase64 buffer in
  JS.replace_all "=" "" (JS.replace_all "/" "_" (JS.replace_all "+" "-" base64)).

(** [errorJson.error || "Failed to store credential"] for the body of a
    response of the credential routes. *)
Definition error_or (body : BiometricCredentials.Json) (otherwise : string) : string :=
  match body with
  | BiometricCredentials.Error e => JS.or_else (Some e) otherwise
  | _ => otherwise
  end.

(** Register biometric credential for a user *)
Definition registerBiometric (env : Env) (userId' userName userDisplayName : string)
  : M BiometricAuthResult :=
  catch
    (if negb (PublicKeyCredential env)
     then throw "WebAuthn is not supported in this browser"
     else
       available ← lift (isUserVerifyingPlatformAuthenticatorAvailable env);
       if negb available
       then throw "Biometric authentication is not available on this device"
       else
         credential ← lift (credentials_create env);
         match credential with
         | None => throw "Failed to create credential"
         | Some credential =>
             let credentialId' := arrayBufferToBase64url (att_rawId credential) in
             let publicKey' := arrayBufferToBase64 (default [] (getPublicKey credential)) in
             storeResponse ←
               fetch_credentials
                 (BiometricCredentials.POST (now env) (fresh env)
                    {| BiometricCredentials.post_userId := Some userId';
                       BiometricCredentials.post_publicKey := Some publicKey';
                       BiometricCredentials.post_credentialId := Some credentialId';
                       BiometricCredentials.post_counter := Some 0;
                       BiometricCredentials.post_deviceInfo := Some (userAgent env) |});
             if negb (Http.ok storeResponse)
             then throw (error_or (Http.body storeResponse) "Failed to store credential")
             else
               mret {| success := true;
                       credentialId := Some credentialId';
                       userId := Some userId';
                       error := None |}
         end)
    (fun message =>
       mret {| success := false; credentialId := None; userId := None;
               error := Some message |}).

(** [credentials[0]] of the parsed body of the lookup, after the test
    [!credentials || credentials.length === 0]. *)
Definition first_credential (body : BiometricCredentials.Json)
  : result BiometricCredentials.BiometricCredential :=
  match body with
  | BiometricCredentials.Credentials [] =>
      Throw "No user found for this biometric credential"
  | BiometricCredentials.Credentials (userCredential :: _) => Ok userCredential
  | _ => Throw "Cannot read properties of undefined (reading 'userId')"
  end.

(** Authenticate using biometric credential *)
Definition authenticateUser (env : Env) : M BiometricAuthResult :=
  catch
    (if negb (PublicKeyCredential env)
     then throw "WebAuthn is not supported in this browser"
     else
       credential ← lift (credentials_get env);
       match credential with
       | None => throw "Authentication failed - no credential provided"
       | Some credential =>
           let credentialId' := arrayBufferToBase64url (rawId credential) in
           lookupResponse ←
             fetch_credentials
               (BiometricCredentials.GET (now env) None
                  (Some (JS.url_query_value credentialId')));
           if negb (Http.ok lookupResponse)
           then throw "Failed to lookup credential"
           else
             userCredential ← lift (first_credential (Http.body lookupResponse));
             let counter' := 0 in
             _ ← fetch_credentials
                   (BiometricCredentials.PUT (now env)
                      {| BiometricCredentials.put_credentialId := Some credentialId';
                         BiometricCredentials.put_counter := Some counter' |});
             mret {| success := true;
                     credentialId := Some credentialId';
                     userId := Some (BiometricCredentials.bc_userId userCredential);
                     error := None |}
       end)
    (fun message =>
       mret {| success := false; credentialId := None; userId := None;
               error := Some message |}).

(** Check if biometric authentication is available *)
Definition isBiometricAvailable (env : Env) : M bool :=
  catch
    (if negb (PublicKeyCredential env) then mret false
     else lift (isUserVerifyingPlatformAuthenticatorAvailable env))
    (fun _ => mret false).

End BiometricAuthClient.

(** ** utils/biometricAuthServer.ts *)

Module BiometricAuthServer.
Import Types World Browser.

Definition arrayBufferToBase64url := BiometricAuthClient.arrayBufferToBase64url.

Definition isBiometricAvailable := BiometricAuthClient.isBiometricAvailable.

Definition initialize (env : Env) : M unit :=
  if negb (PublicKeyCredential env)
  then throw "WebAuthn is not supported in this browser"
  else
    available ← isBiometricAvailable env;
    if negb available
    then throw "Biometric authentication is not available on this device"
    else modify (with_isInitialized true).

(** [buffer.slice(begin, end)] *)
Definition slice {A} (begin' end' : nat) (buffer : list A) : list A :=
  take (end' - begin') (drop begin' buffer).

(** [new Uint32Array(buffer)[0]]: the constructor raises a [RangeError]
    unless the byte length is a multiple of 4; the element is read least
    significant byte first; an empty array has no element 0. *)
Definition Uint32Array_0 (buffer : list byte) : result (option Z) :=
  if negb (List.length buffer mod 4 =? 0)%nat
  then Throw "byte length of Uint32Array should be a multiple of 4"
  else
    match buffer with
    | b0 :: b1 :: b2 :: b3 :: _ =>
        Ok (Some (Z.of_N (Byte.to_N b0) + 256 * Z.of_N (Byte.to_N b1)
                  + 65536 * Z.of_N (Byte.to_N b2) + 16777216 * Z.of_N (Byte.to_N b3)))
    | _ => Ok None
    end.

(** [error.message || "Authentication failed"] *)
Definition failed (otherwise message : string) : BiometricAuthResult :=
  {| success := false; credentialId := None; userId := None;
     error := Some (JS.or_else (Some message) otherwise) |}.

Definition authenticateUser (env : Env) : M BiometricAuthResult :=
  w ← get;
  _ ← (if negb (isInitialized w) then initialize env else mret tt);
  catch
    (credential ← lift (credentials_get env);
     match credential with
     | None => throw "Authentication failed - no credential provided"
     | Some credential =>
         let credentialId' := arrayBufferToBase64url (rawId credential) in
         lookupResponse ←
           fetch_credentials
             (BiometricCredentials.GET (now env) None
                (Some (JS.url_query_value credentialId')));
         if negb (Http.ok lookupResponse)
         then throw "Failed to lookup credential"
         else
           userCredential ←
             lift (BiometricAuthClient.first_credential (Http.body lookupResponse));
           (* In a production app, you would verify the signature here
              For now, we'll trust the credential if it exists in our database *)
           element ← lift (Uint32Array_0 (slice 33 37 (signature credential)));
           let counter' := JS.or_zero element in
           _ ← fetch_credentials
                 (BiometricCredentials.PUT (now env)
                    {| BiometricCredentials.put_credentialId := Some credentialId';
                       BiometricCredentials.put_counter := Some counter' |});
           mret {| success := true;
                   credentialId := Some credentialId';
                   userId := Some (BiometricCredentials.bc_userId userCredential);
                   error := None |}
     end)
    (fun message => mret (failed "Authentication failed" message)).

Definition registerBiometric (env : Env) (userId' userName userDisplayName : string)
  : M BiometricAuthResult :=
  w ← get;
  _ ← (if negb (isInitialized w) then initialize env else mret tt);
  catch
    (credential ← lift (credentials_create env);
     match credential with
     | None => throw "Failed to create credential"
     | Some credential =>
         let credentialId' := arrayBufferToBase64url (att_rawId credential) in
         let publicKey' :=
           BiometricAuthClient.arrayBufferToBase64 (default [] (getPublicKey credential)) in
         (* Store credential on server *)
         storeResponse ←
           fetch_credentials
             (BiometricCredentials.POST (now env) (fresh env)
                {| BiometricCredentials.post_userId := Some userId';
                   BiometricCredentials.post_publicKey := Some publicKey';
                   BiometricCredentials.post_credentialId := Some credentialId';
                   BiometricCredentials.post_counter := Some 0;
                   BiometricCredentials.post_deviceInfo := Some (userAgent env) |});
         if negb (Http.ok storeResponse)
         then throw (BiometricAuthClient.error_or (Http.body storeResponse)
                       "Failed to store credential")
         else
           mret {| success := true;
                   credentialId := Some credentialId';
                   userId := Some userId';
                   error := None |}
     end)
    (fun message => mret (failed "Registration failed" message)).

End BiometricAuthServer.

(** ** contexts/AuthContext.tsx *)

Module AuthContext.
Import Types World Browser.

(** The values a render of [AuthProvider] closes over: the functions below
    read [user] and [userProfile] from the render that created them, and
    write the state through the setters. *)
Record Render : Type := {
  render_user : option User;
  render_userProfile : option UserProfile
}.

(** [userData] in the answer of [POST /api/biometric-login]. *)
Record UserData : Type := {
  ud_email : string;
  ud_displayName : string;
  ud_photoURL : option string;
  ud_profileCompleted : option bool;
  ud_createdAt_seconds : option Z;
  ud_authMethods : option (list AuthMethod);
  ud_securitySettings : option SecuritySettings
}.

Inductive LoginJson : Type :=
  | LoginError (error : option string)
  | LoginUser (user : option UserData).

(** The route [/api/biometric-login] is not among the sources: what
    [fetch] of it gives for a user identifier is an input. *)
Definition BiometricLogin : Type := string → result (Http.Response LoginJson).

Definition defaultSecuritySettings : SecuritySettings :=
  {| twoFactorEnabled := false;
     faceRecognitionEnabled := false;
     sessionTimeout := 30;
     autoLogout := true;
     encryptionEnabled := true |}.

(** A document of [users] has every field of [UserProfile] but, possibly,
    [securitySettings]; the other [||] defaults of the source leave the
    stored values as they are. *)
Definition getUserProfile (env : Env) (uid' : string) : M (option UserProfile) :=
  catch
    (w ← get;
     match users w !! uid' with
     | Some data =>
         mret (Some {| profile_uid := profile_uid data;
                       profile_email := profile_email data;
                       profile_displayName := profile_displayName data;
                       profile_photoURL := profile_photoURL data;
                       profileCompleted := profileCompleted data || false;
                       createdAt := createdAt data;
                       lastLoginAt := lastLoginAt data;
                       authMethods := authMethods data;
                       securitySettings :=
                         Some (default defaultSecuritySettings (securitySettings data));
                       biometricCredentialId := None |})
     | None => mret None
     end)
    (fun _ => mret None).

(** [photoURL: user.photoURL || undefined] leaves the field undefined for a
    user without a photo, and [setDoc] refuses a document with a field
    that is undefined. *)
Definition createUserProfile (env : Env) (user' : User) : M unit :=
  let profile :=
    {| profile_uid := uid user';
       profile_email := default "" (email user');
       profile_displayName := JS.or_else (displayName user') "";
       profile_photoURL :=
         if JS.truthy_opt (photoURL user') then photoURL user' else None;
       profileCompleted := false;
       createdAt := now env;
       lastLoginAt := now env;
       authMethods :=
         [ {| type := if JS.truthy_opt (email user') then "email" else "google";
              enabled := true;
              setupAt := now env |} ];
       securitySettings := Some defaultSecuritySettings;
       biometricCredentialId := None |} in
  match profile_photoURL profile with
  | None =>
      throw ("Function setDoc() called with invalid data. Unsupported field value: "
             +:+ "undefined (found in field photoURL in document users/"
             +:+ uid user' +:+ ")")
  | Some _ =>
      _ ← modify (fun w => with_users (<[uid user' := profile]> (users w)) w);
      modify (setUserProfile (Some profile))
  end.

(** The write is best effort: when [addDoc] is refused, the [catch] block
    logs to the console and the function returns as if nothing happened. *)
Definition logSecurityEvent (env : Env) (self : Render)
    (action' method' : string) (success' : bool) (details' : option string) : M unit :=
  catch
    (let logData :=
       {| SecurityLogs.userId := JS.or_else (uid <$> render_user self) "anonymous";
          SecurityLogs.action := action';
          SecurityLogs.method := method';
          SecurityLogs.success := success';
          SecurityLogs.ipAddress := "unknown";
          SecurityLogs.userAgent := JS.or_else (Some (userAgent env)) "unknown";
          SecurityLogs.location := None;
          SecurityLogs.details := details';
          SecurityLogs.timestamp := Some (now env) |} in
     w ← get;
     _ ← lift (addDoc_securityLogs env logData);
     '(_, logs) ← lift (Firestore.addDoc (fresh env) logData (securityLogs w));
     modify (with_securityLogs logs))
    (fun _ => mret tt).

(** [{ ...p, securitySettings: { ...p.securitySettings, faceRecognitionEnabled: true } }] *)
Definition enable_faceRecognition (p : UserProfile) : UserProfile :=
  {| profile_uid := profile_uid p;
     profile_email := profile_email p;
     profile_displayName := profile_displayName p;
     profile_photoURL := profile_photoURL p;
     profileCompleted := profileCompleted p;
     createdAt := createdAt p;
     lastLoginAt := lastLoginAt p;
     authMethods := authMethods p;
     securitySettings :=
       Some {| twoFactorEnabled := from_option twoFactorEnabled false (securitySettings p);
               faceRecognitionEnabled := true;
               sessionTimeout := from_option sessionTimeout 0 (securitySettings p);
               autoLogout := from_option autoLogout false (securitySettings p);
               encryptionEnabled := from_option encryptionEnabled false (securitySettings p) |};
     biometricCredentialId := biometricCredentialId p |}.

(** [updateDoc(doc(db, "users", uid), { "securitySettings.faceRecognitionEnabled": true,
    biometricCredentialId })]; the identifier must be defined and the
    document must exist. *)
Definition updateDoc_users (uid' : string) (credentialId' : option string) : M unit :=
  match credentialId' with
  | None =>
      throw ("Function updateDoc() called with invalid data. Unsupported field value: "
             +:+ "undefined (found in field biometricCredentialId in document users/"
             +:+ uid' +:+ ")")
  | Some _ =>
      w ← get;
      match users w !! uid' with
      | Some data =>
          let data' :=
            {| profile_uid := profile_uid data;
               profile_email := profile_email data;
               profile_displayName := profile_displayName data;
               profile_photoURL := profile_photoURL data;
               profileCompleted := profileCompleted data;
               createdAt := createdAt data;
               lastLoginAt := lastLoginAt data;
               authMethods := authMethods data;
               securitySettings := securitySettings (enable_faceRecognition data);
               biometricCredentialId := credentialId' |} in
          modify (with_users (<[uid' := data']> (users w)))
      | None => throw "No document to update"
      end
  end.

Definition setupFaceAuth (env : Env) (self : Render) : M bool :=
  match render_user self with
  | None => throw "User not authenticated"
  | Some user' =>
      finally
        (catch
           (_ ← modify (setLoading true);
            profile ← getUserProfile env (uid user');
            _ ← match profile with
                | None =>
                    _ ← createUserProfile env user';
                    _ ← getUserProfile env (uid user');
                    mret tt
                | Some _ => mret tt
                end;
            result ← BiometricAuthClient.registerBiometric env (uid user')
                       (default "" (email user')) (JS.or_else (displayName user') "User");
            if negb (success result)
            then throw (JS.or_else (error result) "Failed to register biometric credential")
            else
              _ ← updateDoc_users (uid user') (credentialId result);
              _ ← match render_userProfile self with
                  | Some userProfile' =>
                      modify (setUserProfile (Some (enable_faceRecognition userProfile')))
                  | None => mret tt
                  end;
              _ ← logSecurityEvent env self "face_auth" "face" true
                    (Some "Biometric authentication setup completed");
              mret true)
           (fun errorMessage =>
              _ ← logSecurityEvent env self "face_auth" "face" false (Some errorMessage);
              mret false))
        (setLoading false)
  end.

Definition signInWithFace (env : Env) (biometric_login : BiometricLogin) (self : Render)
  : M bool :=
  finally
    (catch
       (_ ← modify (setLoading true);
        isAvailable ← BiometricAuthClient.isBiometricAvailable env;
        if negb isAvailable
        then throw "Biometric authentication is not available on this device"
        else
          result ← BiometricAuthClient.authenticateUser env;
          if negb (success result)
          then throw (JS.or_else (error result) "Biometric authentication failed")
          else
            match userId result with
            | Some userId' =>
                if negb (JS.truthy userId')
                then throw "No user ID returned from biometric authentication"
                else
                  userResponse ← lift (biometric_login userId');
                  match Http.body userResponse with
                  | LoginError errorData =>
                      if negb (Http.ok userResponse)
                      then throw (JS.or_else errorData "Failed to fetch user data")
                      else throw "Cannot read properties of undefined (reading 'email')"
                  | LoginUser userData =>
                      if negb (Http.ok userResponse)
                      then throw "Failed to fetch user data"
                      else
                        match userData with
                        | None => throw "Cannot read properties of undefined (reading 'email')"
                        | Some userData =>
                            let authenticatedUser :=
                              {| uid := userId';
                                 email := Some (ud_email userData);
                                 displayName := Some (ud_displayName userData);
                                 photoURL :=
                                   if JS.truthy_opt (ud_photoURL userData)
                                   then ud_photoURL userData else None;
                                 providerId := "biometric";
                                 creationTime := now env;
                                 lastSignInTime := now env |} in
                            let authenticatedProfile :=
                              {| profile_uid := userId';
                                 profile_email := ud_email userData;
                                 profile_displayName := ud_displayName userData;
                                 profile_photoURL := ud_photoURL userData;
                                 profileCompleted := default false (ud_profileCompleted userData);
                                 createdAt :=
                                   match ud_createdAt_seconds userData with
                                   | Some seconds => seconds * 1000
                                   | None => now env
                                   end;
                                 lastLoginAt := now env;
                                 authMethods := default [] (ud_authMethods userData);
                                 securitySettings := ud_securitySettings userData;
                                 biometricCredentialId := None |} in
                            _ ← modify (setUser (Some authenticatedUser));
                            _ ← modify (setUserProfile (Some authenticatedProfile));
                            _ ← logSecurityEvent env self "login" "face" true
                                  (Some "Biometric authentication successful");
                            mret true
                        end
                  end
            | None => throw "No user ID returned from biometric authentication"
            end)
       (fun errorMessage =>
          _ ← logSecurityEvent env self "login" "face" false (Some errorMessage);
          throw errorMessage))
    (setLoading false).

(** What the calls of the Firebase Authentication SDK return in one run. *)
Record FirebaseAuth : Type := {
  (** [signInWithEmailAndPassword(auth, email, password)]: [result.user] *)
  signInWithEmailAndPassword : string → string → result User;
  (** [createUserWithEmailAndPassword(auth, email, password)]: [result.user] *)
  createUserWithEmailAndPassword : string → string → result User;
  (** [updateProfile(user, { displayName })], which sets the name of
      [user] when it returns *)
  updateProfile : User → string → result unit;
  (** [signInWithPopup(auth, provider)]: [result.user] *)
  signInWithPopup : result User;
  (** [firebaseSignOut(auth)] *)
  firebaseSignOut : result unit
}.

(** The three sign-in functions have one shape: the attempt, its audit
    event, the profile document, and the message of the failure. *)
Definition signIn (env : Env) (auth : FirebaseAuth) (self : Render)
    (email' password : string) : M unit :=
  finally
    (catch
       (_ ← modify (setLoading true);
        user' ← lift (signInWithEmailAndPassword auth email' password);
        _ ← logSecurityEvent env self "login" "email" true None;
        profile ← getUserProfile env (uid user');
        match profile with
        | None => createUserProfile env user'
        | Some _ => mret tt
        end)
       (fun errorMessage =>
          _ ← logSecurityEvent env self "login" "email" false (Some errorMessage);
          throw ("Sign in failed: " +:+ errorMessage)))
    (setLoading false).

Definition signUp (env : Env) (auth : FirebaseAuth) (self : Render)
    (email' password displayName' : string) : M unit :=
  finally
    (catch
       (_ ← modify (setLoading true);
        user' ← lift (createUserWithEmailAndPassword auth email' password);
        _ ← lift (updateProfile auth user' displayName');
        let user' :=
          {| uid := uid user'; email := email user'; displayName := Some displayName';
             photoURL := photoURL user'; providerId := providerId user';
             creationTime := creationTime user'; lastSignInTime := lastSignInTime user' |} in
        _ ← createUserProfile env user';
        logSecurityEvent env self "signup" "email" true None)
       (fun errorMessage =>
          _ ← logSecurityEvent env self "signup" "email" false (Some errorMessage);
          throw ("Sign up failed: " +:+ errorMessage)))
    (setLoading false).

Definition signInWithGoogle (env : Env) (auth : FirebaseAuth) (self : Render) : M unit :=
  finally
    (catch
       (_ ← modify (setLoading true);
        user' ← lift (signInWithPopup auth);
        profile ← getUserProfile env (uid user');
        _ ← match profile with
            | None => createUserProfile env user'
            | Some _ => mret tt
            end;
        logSecurityEvent env self "login" "google" true None)
       (fun errorMessage =>
          _ ← logSecurityEvent env self "login" "google" false (Some errorMessage);
          throw ("Google sign-in failed: " +:+ errorMessage)))
    (setLoading false).

Definition signOut (env : Env) (auth : FirebaseAuth) (self : Render) : M unit :=
  catch
    (_ ← logSecurityEvent env self "logout" "manual" true None;
     _ ← lift (firebaseSignOut auth);
     (* Clear local state immediately to ensure UI updates *)
     _ ← modify (setUser None);
     _ ← modify (setUserProfile None);
     modify (setLoading false))
    (fun errorMessage =>
       _ ← logSecurityEvent env self "logout" "manual" false (Some errorMessage);
       (* Still clear state even if there was an error *)
       _ ← modify (setUser None);
       _ ← modify (setUserProfile None);
       _ ← modify (setLoading false);
       throw errorMessage).

End AuthContext.

(** ** The route that answers [{ userId }] with the profile of the user

    This is the [POST] handler of the source file that reads the
    collection [users]; its answer has the shape [signInWithFace] reads
    from [/api/biometric-login]. *)

Module BiometricLoginRoute.
Import Types AuthContext.

(** The answer for the document [userData] of the user. *)
Definition found (userData : UserProfile) : Http.Response LoginJson :=
  Http.json
    (LoginUser
       (Some {| ud_email := profile_email userData;
                ud_displayName := profile_displayName userData;
                ud_photoURL := profile_photoURL userData;
                ud_profileCompleted := Some (profileCompleted userData || false);
                (* a Firestore time stamp is sent as its seconds
                   and nanoseconds *)
                ud_createdAt_seconds := Some (createdAt userData / 1000);
                ud_authMethods := Some (authMethods userData);
                ud_securitySettings :=
                  Some (default {| twoFactorEnabled := false;
                                   faceRecognitionEnabled := true;
                                   sessionTimeout := 30;
                                   autoLogout := true;
                                   encryptionEnabled := true |}
                          (securitySettings userData)) |}))
    200.

(** No handler writes to a collection nested in [users]: a reference
    into one finds no document. *)
Definition POST (userId' : option string) (users : gmap string UserProfile)
  : Http.Response LoginJson * gmap string UserProfile :=
  Http.or_500
    (if negb (JS.truthy_opt userId')
     then Ok (Http.json (LoginError (Some "User ID is required")) 400, users)
     else
       ref ← Firestore.reference (default "" userId');
       match ref with
       | Firestore.Document uid' =>
           match users !! uid' with
           | None => Ok (Http.json (LoginError (Some "User profile not found")) 404, users)
           | Some userData => Ok (found userData, users)
           end
       | Firestore.Nested _ =>
           Ok (Http.json (LoginError (Some "User profile not found")) 404, users)
       end)
    (LoginError (Some "Failed to fetch user data")) users.

(** [fetch("/api/biometric-login", { method: "POST", body: { userId } })]
    when this handler serves the route over the collection [users]. *)
Definition served (users : gmap string UserProfile) : BiometricLogin :=
  fun userId' => Ok (POST (Some userId') users).1.

End BiometricLoginRoute.

(** ** [atob] and the decoding helpers of utils/biometricAuthServer.ts *)

Module Base64Decode.

(** The value of a character of the base64 alphabet. *)
Definition b64_value (a : ascii) : option N :=
  let n := N_of_ascii a in
  if ((65 <=? n) && (n <=? 90))%N then Some (n - 65)%N
  else if ((97 <=? n) && (n <=? 122))%N then Some (n - 71)%N
  else if ((48 <=? n) && (n <=? 57))%N then Some (n + 4)%N
  else if (n =? 43)%N then Some 62%N
  else if (n =? 47)%N then Some 63%N
  else None.

(** ASCII white space, which [atob] skips: TAB, LF, FF, CR and SPACE. *)
Definition is_ascii_whitespace (a : ascii) : bool :=
  let n := N_of_ascii a in
  ((n =? 9) || (n =? 10) || (n =? 12) || (n =? 13) || (n =? 32))%N.

Fixpoint remove_whitespace (s : string) : string :=
  match s with
  | EmptyString => EmptyString
  | String a s' =>
      if is_ascii_whitespace a then remove_whitespace s' else String a (remove_whitespace s')
  end.

(** Remove one or two [=] at the end of the string. *)
Fixpoint strip_padding (s : string) : string :=
  match s with
  | EmptyString => EmptyString
  | String a s' =>
      if Ascii.eqb a "=" && (String.eqb s' "" || String.eqb s' "=")
      then EmptyString
      else String a (strip_padding s')
  end.

(** Four characters give three bytes, a rest of three gives two, a rest of
    two gives one; a rest of one, or a character outside the alphabet, is
    an error. *)
Fixpoint decode_groups (s : string) : option string :=
  match s with
  | EmptyString => Some EmptyString
  | String a EmptyString => None
  | String a (String b EmptyString) =>
      x ← b64_value a; y ← b64_value b;
      Some (String (ascii_of_N (x * 4 + y / 16)) EmptyString)
  | String a (String b (String c EmptyString)) =>
      x ← b64_value a; y ← b64_value b; z ← b64_value c;
      Some (String (ascii_of_N (x * 4 + y / 16))
              (String (ascii_of_N ((y mod 16) * 16 + z / 4)) EmptyString))
  | String a (String b (String c (String d rest))) =>
      x ← b64_value a; y ← b64_value b; z ← b64_value c; t ← b64_value d;
      out ← decode_groups rest;
      Some (String (ascii_of_N (x * 4 + y / 16))
              (String (ascii_of_N ((y mod 16) * 16 + z / 4))
                 (String (ascii_of_N ((z mod 4) * 64 + t)) out)))
  end.

(** [atob(data)]: white space is removed; when the length is then a
    multiple of 4, one or two [=] at the end are removed; what is left is
    decoded, and an [InvalidCharacterError] is thrown when it cannot be.
    The message of that exception is not the same in every engine, and
    not for every cause; the one below stands for all of them. *)
Definition atob (data : string) : result string :=
  let data := remove_whitespace data in
  let data := if (String.length data mod 4 =? 0)%nat then strip_padding data else data in
  match decode_groups data with
  | Some binary => Ok binary
  | None => Throw "The string to be decoded is not correctly encoded."
  end.

(** [s.slice(0, n)] on a string. *)
Fixpoint string_take (n : nat) (s : string) : string :=
  match n, s with
  | S n', String a s' => String a (string_take n' s')
  | _, _ => EmptyString
  end.

Definition base64ToArrayBuffer (base64 : string) : result (list byte) :=
  binary ← atob base64;
  Ok (byte_of_ascii <$> list_ascii_of_string binary).

Definition base64urlToArrayBuffer (base64url : string) : result (list byte) :=
  (* Add padding if needed *)
  let base64 :=
    string_take (String.length base64url + String.length base64url mod 4)
      (base64url +:+ "===") in
  let standardBase64 := JS.replace_all "_" "/" (JS.replace_all "-" "+" base64) in
  base64ToArrayBuffer standardBase64.

End Base64Decode.

(** ** The query string of a request, and the functions that put a user
    identifier into one *)

Module SearchParams.

(** A C0 control or a space: the URL parser removes them at the end of
    its input. *)
Definition is_c0_or_space (a : ascii) : bool := (N_of_ascii a <=? 32)%N.

(** A tab or a newline: the URL parser removes them everywhere. *)
Definition is_tab_or_newline (a : ascii) : bool :=
  let n := N_of_ascii a in
  ((n =? 9) || (n =? 10) || (n =? 13))%N.

Fixpoint strip_trailing (s : string) : string :=
  match s with
  | EmptyString => EmptyString
  | String a s' =>
      match strip_trailing s' with
      | EmptyString => if is_c0_or_space a then EmptyString else String a EmptyString
      | rest => String a rest
      end
  end.

Fixpoint remove_tab_newline (s : string) : string :=
  match s with
  | EmptyString => EmptyString
  | String a s' =>
      if is_tab_or_newline a then remove_tab_newline s' else String a (remove_tab_newline s')
  end.

(** What stands in front of the first [c]. *)
Fixpoint before (c : ascii) (s : string) : string :=
  match s with
  | EmptyString => EmptyString
  | String a s' => if Ascii.eqb a c then EmptyString else String a (before c s')
  end.

(** What follows the first [c]; nothing when there is no [c]. *)
Fixpoint after (c : ascii) (s : string) : string :=
  match s with
  | EmptyString => EmptyString
  | String a s' => if Ascii.eqb a c then s' else after c s'
  end.

Fixpoint split (c : ascii) (s : string) : list string :=
  match s with
  | EmptyString => [EmptyString]
  | String a s' =>
      if Ascii.eqb a c then EmptyString :: split c s'
      else
        match split c s' with
        | piece :: rest => String a piece :: rest
        | [] => [String a EmptyString]
        end
  end.

(** [new URL(request.url).searchParams] for a request the client sent to
    [`/api/..?${query}`]: the fragment is cut off, the query is split at
    [&], empty pieces are dropped, a piece is a name and a value separated
    by its first [=], and both are decoded as [JS.url_query_value] does. *)
Definition parse (query : string) : list (string * string) :=
  let query := before "#" (remove_tab_newline (strip_trailing query)) in
  (fun piece : string =>
     (JS.url_query_value (before "=" piece), JS.url_query_value (after "=" piece)))
    <$> filter (fun piece : string => piece ≠ "") (split "&" query).

(** [searchParams.get(name)]: the value of the first pair with that name. *)
Definition get (name : string) (searchParams : list (string * string)) : option string :=
  snd <$> head (filter (fun p : string * string => p.1 = name) searchParams).

End SearchParams.

Module CredentialQueries.
Import Types World Browser.

(** [credentials && credentials.length > 0] for the parsed body of an
    answer of the credential route. *)
Definition nonempty (body : BiometricCredentials.Json) : bool :=
  match body with
  | BiometricCredentials.Credentials (_ :: _) => true
  | _ => false
  end.

(** Check if user has registered credentials (the two utilities have the
    same function). *)
Definition hasRegisteredCredentials (env : Env) (userId' : string) : M bool :=
  catch
    (let searchParams := SearchParams.parse ("userId=" +:+ userId') in
     response ←
       fetch_credentials
         (BiometricCredentials.GET (now env)
            (SearchParams.get "userId" searchParams)
            (SearchParams.get "credentialId" searchParams));
     if negb (Http.ok response) then mret false
     else mret (nonempty (Http.body response)))
    (fun _ => mret false).

(** [removeAllCredentials] of utils/biometricAuthServer.ts *)
Definition removeAllCredentials (userId' : string) : M unit :=
  catch
    (let searchParams := SearchParams.parse ("userId=" +:+ userId') in
     response ←
       fetch_credentials
         (BiometricCredentials.DELETE
            (SearchParams.get "userId" searchParams)
            (SearchParams.get "credentialId" searchParams));
     if negb (Http.ok response) then throw "Failed to remove credentials"
     else mret tt)
    (fun error => throw error).

End CredentialQueries.

(** ** utils/authHelpers.ts *)

Module AuthHelpers.
Import Types World Browser.

Section createBiometricAuthFunctions.
Variable env : Env.

(** The arguments [user] and [logSecurityEvent]; [setUser],
    [setUserProfile] and [setLoading] are the setters of the state. *)
Variable user' : option User.
Variable logSecurityEvent : string → string → bool → option string → M unit.

Definition setupFaceAuth : M bool :=
  match user' with
  | None => throw "User not authenticated"
  | Some user' =>
      finally
        (catch
           (_ ← modify (setLoading true);
            result ← BiometricAuthClient.registerBiometric env (uid user')
                       (default "" (email user')) (JS.or_else (displayName user') "User");
            if negb (success result)
            then throw (JS.or_else (error result) "Failed to register biometric credential")
            else
              _ ← logSecurityEvent "face_auth" "face" true
                    (Some "Biometric authentication setup completed");
              mret true)
           (fun errorMessage =>
              _ ← logSecurityEvent "face_auth" "face" false (Some errorMessage);
              mret false))
        (setLoading false)
  end.

Definition signInWithFace : M bool :=
  finally
    (catch
       (_ ← modify (setLoading true);
        isAvailable ← BiometricAuthClient.isBiometricAvailable env;
        if negb isAvailable
        then throw "Biometric authentication is not available on this device"
        else
          result ← BiometricAuthClient.authenticateUser env;
          if negb (success result)
          then throw (JS.or_else (error result) "Biometric authentication failed")
          else
            if negb (JS.truthy_opt (userId result))
            then throw "No user ID returned from biometric authentication"
            else
              _ ← logSecurityEvent "login" "face" true
                    (Some "Biometric authentication successful");
              mret true)
       (fun errorMessage =>
          _ ← logSecurityEvent "login" "face" false (Some errorMessage);
          throw errorMessage))
    (setLoading false).

End createBiometricAuthFunctions.

End AuthHelpers.

(** ** app/api/credit-cards/route.ts *)

Module CreditCards.
Import Http.

(** A JSON value in a field of a request body that the handlers pass on
    without looking into it; a number, an array or an object is its
    text. *)
Inductive JsonValue : Type :=
  | JNull
  | JBool (b : bool)
  | JString (s : string)
  | JOther (text : string).

(** What a document holds in [createdAt] or [updatedAt]: the time stamp
    Firestore makes of a [Date], or the JSON value a [PUT] has put
    there. *)
Inductive Stamp : Type :=
  | Timestamp (t : Z)
  | Passed (value : JsonValue).

(** The names of the fields the handlers treat themselves. *)
Definition handled : list string :=
  ["id"; "userId"; "cardNumber"; "cardholderName"; "expiryMonth"; "expiryYear"; "cvv";
   "bankName"; "cardType"; "nickname"; "isDefault"; "createdAt"; "updatedAt"].

(** The name of any other field of a body, which [PUT] passes on to
    [updateDoc].  [updateDoc] reads a name as a field path: the names here
    are paths of one segment, without [.], which leads into a nested
    field, and without the characters [~ * / [ ]] that a path must not
    have. *)
Definition path_char (a : ascii) : bool :=
  bool_decide (a ∈ ["."; "~"; "*"; "/"; "["; "]"]%char).

Definition other_name (s : string) : bool :=
  negb (bool_decide (s = EmptyString))
  && JS.all_chars (fun a => negb (path_char a)) s
  && negb (bool_decide (s ∈ handled)).

Definition FieldName : Type := { s : string | other_name s }.

(** A document of the collection [creditCards]: the five sensitive fields
    hold ciphertexts, and may be missing. *)
Record Data : Type := {
  userId : string;
  cardNumber : option string;
  cardholderName : option string;
  expiryMonth : option string;
  expiryYear : option string;
  cvv : option string;
  bankName : string;
  cardType : string;
  nickname : string;
  isDefault : bool;
  createdAt : option Stamp;
  updatedAt : option Stamp;
  others : gmap FieldName JsonValue
}.

(** An entry of the answer of [GET]: [{ id, ...data, ...decrypted,
    createdAt, updatedAt }]. *)
Record CreditCard : Type := {
  card_id : string;
  card_userId : string;
  card_cardNumber : option string;
  card_cardholderName : option string;
  card_expiryMonth : option string;
  card_expiryYear : option string;
  card_cvv : option string;
  card_bankName : string;
  card_cardType : string;
  card_nickname : string;
  card_isDefault : bool;
  card_createdAt : Z;
  card_updatedAt : Z;
  card_others : gmap FieldName JsonValue
}.

Inductive Json : Type :=
  | Error (error : string)
  | Cards (cards : list CreditCard)
  | Stored (id : string) (message : string)
  | Message (message : string).

Abbreviation Store := (Firestore.Collection Data).

(** The object of the fields of a document that are there. *)
Definition fields (l : list (string * option string)) : gmap string string :=
  list_to_map (omap (fun e : string * option string => pair e.1 <$> e.2) l).

(** [data.createdAt?.toDate() || new Date()]: a time stamp gives its date,
    a field that is missing or [null] the date [now] of [new Date()], and
    any other value has no method [toDate]. *)
Definition toDate (field : string) (stamp : option Stamp) (now : Z) : result Z :=
  match stamp with
  | None | Some (Passed JNull) => Ok now
  | Some (Timestamp t) => Ok t
  | Some (Passed _) => Throw ("data." +:+ field +:+ "?.toDate is not a function")
  end.

(** [deleteDoc(doc(db, "creditCards", id))]; there need be no such
    document.  No handler writes to a collection nested in [creditCards]:
    a reference into one names no document. *)
Definition deleteDoc (id : string) (c : Store) : result Store :=
  ref ← Firestore.reference id;
  match ref with
  | Firestore.Document x => Ok (filter (fun d : string * Data => d.1 ≠ x) c)
  | Firestore.Nested _ => Ok c
  end.

(** [updateDoc(doc(db, "creditCards", id), fields)]; the document must
    exist. *)
Definition updateDoc (id : string) (fields : Data → Data) (c : Store) : result Store :=
  ref ← Firestore.reference id;
  match ref with
  | Firestore.Document x =>
      if bool_decide (x ∈ c.*1)
      then Ok ((fun d : string * Data =>
                  if decide (d.1 = x) then (d.1, fields d.2) else d) <$> c)
      else Throw "5 NOT_FOUND: No document to update"
  | Firestore.Nested _ => Throw "5 NOT_FOUND: No document to update"
  end.

Section Route.
Context `{Encryption.CryptoJS}.
Variable NEXT_PUBLIC_ENCRYPTION_KEY : option string.

(** GET - Fetch all credit cards for a user.  [clock n] is what the [n]-th
    [new Date()] of the loop reads, two for each document.  The entry is
    built inside the [try] block: a document is skipped when building it
    throws. *)
Definition GET (clock : nat → Z) (userId' : option string) (store : Store)
  : Response Json * Store :=
  or_500
    (if negb (JS.truthy_opt userId')
     then Ok (json (Error "User ID is required") 400, store)
     else
       querySnapshot ←
         Firestore.getDocs (fun d => bool_decide (Some (userId d) = userId')) store;
       let cards :=
         omap id
           (imap (fun i (d : nat * (string * Data)) =>
                    let data := d.2.2 in
                    (* Decrypt sensitive fields *)
                    let decryptedData :=
                      fields [("cardNumber", cardNumber data);
                              ("cardholderName", cardholderName data);
                              ("expiryMonth", expiryMonth data);
                              ("expiryYear", expiryYear data);
                              ("cvv", cvv data)] in
                    match
                      decrypted ←
                        Encryption.decryptObject NEXT_PUBLIC_ENCRYPTION_KEY decryptedData;
                      let spread (key : string) (stored : option string) :=
                        match decrypted !! key with
                        | Some plain => Some plain
                        | None => stored
                        end in
                      createdAt' ← toDate "createdAt" (createdAt data) (clock (2 * i)%nat);
                      updatedAt' ← toDate "updatedAt" (updatedAt data) (clock (2 * i + 1)%nat);
                      Ok {| card_id := d.2.1;
                            card_userId := userId data;
                            card_cardNumber := spread "cardNumber" (cardNumber data);
                            card_cardholderName :=
                              spread "cardholderName" (cardholderName data);
                            card_expiryMonth := spread "expiryMonth" (expiryMonth data);
                            card_expiryYear := spread "expiryYear" (expiryYear data);
                            card_cvv := spread "cvv" (cvv data);
                            card_bankName := bankName data;
                            card_cardType := cardType data;
                            card_nickname := nickname data;
                            card_isDefault := isDefault data;
                            card_createdAt := createdAt';
                            card_updatedAt := updatedAt';
                            card_others := others data |}
                    with
                    | Ok card => Some card
                    | Throw _ =>
                        (* Skip this card if decryption fails *)
                        None
                    end)
              querySnapshot) in
       Ok (json (Cards cards) 200, store))
    (Error "Failed to fetch credit cards") store.

(** The JSON body of a [POST], with the fields the form of the dashboard
    sends: strings, and a boolean for [isDefault]. *)
Record PostBody : Type := {
  post_userId : option string;
  post_cardNumber : option string;
  post_cardholderName : option string;
  post_expiryMonth : option string;
  post_expiryYear : option string;
  post_cvv : option string;
  post_bankName : option string;
  post_cardType : option string;
  post_nickname : option string;
  post_isDefault : option bool
}.

(** POST - Add a new credit card.  [now] and [now'] are the two
    [new Date()] of [cardData]. *)
Definition POST (now now' : Z) (fresh : string) (salt : string → string)
    (body : PostBody) (store : Store) : Response Json * Store :=
  or_500
    (let isDefault' := default false (post_isDefault body) in
     if negb (JS.truthy_opt (post_userId body))
        || negb (JS.truthy_opt (post_cardNumber body))
        || negb (JS.truthy_opt (post_cardholderName body))
        || negb (JS.truthy_opt (post_expiryMonth body))
        || negb (JS.truthy_opt (post_expiryYear body))
        || negb (JS.truthy_opt (post_cvv body))
     then Ok (json (Error "Missing required fields") 400, store)
     else
       (* Encrypt sensitive data *)
       let sensitiveData : gmap string (option string) :=
         list_to_map [("cardNumber", post_cardNumber body);
                      ("cardholderName", post_cardholderName body);
                      ("expiryMonth", post_expiryMonth body);
                      ("expiryYear", post_expiryYear body);
                      ("cvv", post_cvv body)] in
       encryptedData ← Encryption.encryptObject NEXT_PUBLIC_ENCRYPTION_KEY salt sensitiveData;
       let cardData :=
         {| userId := default "" (post_userId body);
            cardNumber := encryptedData !! "cardNumber";
            cardholderName := encryptedData !! "cardholderName";
            expiryMonth := encryptedData !! "expiryMonth";
            expiryYear := encryptedData !! "expiryYear";
            cvv := encryptedData !! "cvv";
            bankName := JS.or_else (post_bankName body) "";
            cardType := JS.or_else (post_cardType body) "other";
            nickname := JS.or_else (post_nickname body) "";
            isDefault := isDefault';
            createdAt := Some (Timestamp now);
            updatedAt := Some (Timestamp now');
            others := ∅ |} in
       '(docRef, store') ← Firestore.addDoc fresh cardData store;
       Ok (json (Stored docRef "Credit card added successfully") 201, store'))
    (Error "Failed to add credit card") store.

(** DELETE - Delete a credit card *)
Definition DELETE (id' userId' : option string) (store : Store) : Response Json * Store :=
  or_500
    (match id' with
     | Some id =>
         if negb (JS.truthy id) || negb (JS.truthy_opt userId')
         then Ok (json (Error "Card ID and User ID are required") 400, store)
         else
           store' ← deleteDoc id store;
           Ok (json (Message "Credit card deleted successfully") 200, store')
     | None => Ok (json (Error "Card ID and User ID are required") 400, store)
     end)
    (Error "Failed to delete credit card") store.

(** The JSON body of a [PUT]: [id], [userId] and, in [updateData], any of
    the fields of a card, with the types the form sends; [createdAt],
    which a body can only carry as a JSON value; and fields of any other
    name.  A field [updatedAt] of the body is overwritten before the
    document is updated, and is left out here. *)
Record PutBody : Type := {
  put_id : option string;
  put_userId : option string;
  put_cardNumber : option string;
  put_cardholderName : option string;
  put_expiryMonth : option string;
  put_expiryYear : option string;
  put_cvv : option string;
  put_bankName : option string;
  put_cardType : option string;
  put_nickname : option string;
  put_isDefault : option bool;
  put_createdAt : option JsonValue;
  put_others : gmap FieldName JsonValue
}.

(** PUT - Update a credit card *)
Definition PUT (now : Z) (salt : string → string) (body : PutBody) (store : Store)
  : Response Json * Store :=
  or_500
    (match put_id body with
     | Some id =>
         if negb (JS.truthy id) || negb (JS.truthy_opt (put_userId body))
         then Ok (json (Error "Card ID and User ID are required") 400, store)
         else
           (* Encrypt sensitive data if provided *)
           let sensitiveFields :=
             [("cardNumber", put_cardNumber body);
              ("cardholderName", put_cardholderName body);
              ("expiryMonth", put_expiryMonth body);
              ("expiryYear", put_expiryYear body);
              ("cvv", put_cvv body)] in
           let hassensitiveData :=
             existsb (fun field : string * option string => JS.truthy_opt field.2)
               sensitiveFields in
           encryptedData ←
             (if hassensitiveData
              then
                let sensitiveData : gmap string (option string) :=
                  list_to_map
                    (filter (fun field : string * option string => JS.truthy_opt field.2)
                       sensitiveFields) in
                Encryption.encryptObject NEXT_PUBLIC_ENCRYPTION_KEY salt sensitiveData
              else Ok ∅);
           (* a sensitive field of [dataToUpdate]: its ciphertext, or the
              value that was sent when that is the empty string *)
           let sensitive (field : string) (sent stored : option string) :=
             match encryptedData !! field with
             | Some c => Some c
             | None => match sent with Some value => Some value | None => stored end
             end in
           store' ←
             updateDoc id
               (fun data =>
                  {| userId := userId data;
                     cardNumber := sensitive "cardNumber" (put_cardNumber body) (cardNumber data);
                     cardholderName :=
                       sensitive "cardholderName" (put_cardholderName body)
                         (cardholderName data);
                     expiryMonth :=
                       sensitive "expiryMonth" (put_expiryMonth body) (expiryMonth data);
                     expiryYear :=
                       sensitive "expiryYear" (put_expiryYear body) (expiryYear data);
                     cvv := sensitive "cvv" (put_cvv body) (cvv data);
                     bankName := default (bankName data) (put_bankName body);
                     cardType := default (cardType data) (put_cardType body);
                     nickname := default (nickname data) (put_nickname body);
                     isDefault := default (isDefault data) (put_isDefault body);
                     createdAt :=
                       match put_createdAt body with
                       | Some value => Some (Passed value)
                       | None => createdAt data
                       end;
                     updatedAt := Some (Timestamp now);
                     others := put_others body ∪ others data |})
               store;
           Ok (json (Message "Credit card updated successfully") 200, store')
     | None => Ok (json (Error "Card ID and User ID are required") 400, store)
     end)
    (Error "Failed to update credit card") store.

End Route.

End CreditCards.

(** ** app/api/face-template/route.ts *)

Module FaceTemplate.
Import Http.

(** A document of the collection [faceTemplates]. *)
Record Data : Type := {
  userId : option string;
  templateData : option string;
  isActive : option bool;
  createdAt : option Z;
  updatedAt : option Z
}.

(** A JSON value: a string, or another value, of which the handler only
    tests the truthiness. *)
Inductive Value : Type :=
  | VString (s : string)
  | VOther (truthy : bool).

Definition truthy (v : option Value) : bool :=
  match v with
  | Some (VString s) => JS.truthy s
  | Some (VOther b) => b
  | None => false
  end.

Inductive Json : Type :=
  | Error (error : string)
  | Message (message : string)
  | Template (templateData' : option string) (isActive' : option bool)
      (createdAt' updatedAt' : option Z).

(** The documents, by their paths below [faceTemplates]: the handlers
    address a document by [doc(db, "faceTemplates", userId)], which takes
    the user identifier as a path. *)
Abbreviation Store := (gmap (list string) Data).


Record PostBody : Type := {
  post_userId : option string;
  post_templateData : option Value
}.

(** POST - Store face template.  [now] and [now'] are the first and the
    second [new Date()] of the request. *)
Definition POST (now now' : Z) (body : PostBody) (store : Store) : Response Json * Store :=
  or_500
    (match post_userId body, post_templateData body with
     | Some userId', Some (VString templateData') =>
         if negb (JS.truthy userId') || negb (JS.truthy templateData')
         then Ok (json (Error "User ID and template data are required") 400, store)
         else
           faceTemplateRef ← Firestore.doc userId';
           match store !! faceTemplateRef with
           | Some existingTemplate =>
               Ok (json (Message "Face template stored successfully") 201,
                   <[faceTemplateRef := {| userId := userId existingTemplate;
                                           templateData := Some templateData';
                                           isActive := isActive existingTemplate;
                                           createdAt := createdAt existingTemplate;
                                           updatedAt := Some now' |}]> store)
           | None =>
               Ok (json (Message "Face template stored successfully") 201,
                   <[faceTemplateRef := {| userId := Some userId';
                                           templateData := Some templateData';
                                           isActive := Some true;
                                           createdAt := Some now;
                                           updatedAt := Some now' |}]> store)
           end
     | userId', templateData' =>
         if negb (JS.truthy_opt userId') || negb (truthy templateData')
         then Ok (json (Error "User ID and template data are required") 400, store)
         else
           (* Validate template data format *)
           Ok (json (Error "Template data must be a string") 400, store)
     end)
    (Error "Failed to store face template") store.

(** GET - Retrieve face template *)
Definition GET (userId' : option string) (store : Store) : Response Json * Store :=
  or_500
    (match userId' with
     | Some userId' =>
         if negb (JS.truthy userId')
         then Ok (json (Error "User ID is required") 400, store)
         else
           faceTemplateRef ← Firestore.doc userId';
           match store !! faceTemplateRef with
           | None => Ok (json (Error "Face template not found") 404, store)
           | Some data =>
               Ok (json (Template (templateData data) (isActive data) (createdAt data)
                           (updatedAt data)) 200, store)
           end
     | None => Ok (json (Error "User ID is required") 400, store)
     end)
    (Error "Failed to retrieve face template") store.

(** DELETE - Remove face template: [updateDoc] needs the document. *)
Definition DELETE (now : Z) (userId' : option string) (store : Store)
  : Response Json * Store :=
  or_500
    (match userId' with
     | Some userId' =>
         if negb (JS.truthy userId')
         then Ok (json (Error "User ID is required") 400, store)
         else
           faceTemplateRef ← Firestore.doc userId';
           match store !! faceTemplateRef with
           | None => Throw "No document to update"
           | Some data =>
               Ok (json (Message "Face template deactivated successfully") 200,
                   <[faceTemplateRef := {| userId := userId data;
                                           templateData := templateData data;
                                           isActive := Some false;
                                           createdAt := createdAt data;
                                           updatedAt := Some now |}]> store)
           end
     | None => Ok (json (Error "User ID is required") 400, store)
     end)
    (Error "Failed to deactivate face template") store.

End FaceTemplate.

(** * Properties *)

(** ** The field cipher *)

Module EncryptionFacts.
Import Encryption.

Lemma append_cons (a : ascii) (s t : string) : String a s +:+ t = String a (s +:+ t).
Proof. reflexivity. Qed.

Lemma strip_prefix_app (p s : string) : strip_prefix p (p +:+ s) = Some s.
Proof.
  induction p as [|a p IH]; [done|].
  rewrite append_cons. simpl. by rewrite Ascii.eqb_refl.
Qed.

Lemma append_assoc (a b c : string) : (a +:+ b) +:+ c = a +:+ (b +:+ c).
Proof.
  induction a as [|x a IH]; [done|].
  rewrite !append_cons. by rewrite IH.
Qed.

Lemma demo_decrypt_encrypt data pass salt c :
  demo_encrypt data pass salt = Ok c → demo_decrypt c pass = Ok data.
Proof.
  unfold demo_encrypt, demo_decrypt. intros [= <-].
  replace (pass +:+ "$" +:+ data) with ((pass +:+ "$") +:+ data)
    by apply append_assoc.
  by rewrite strip_prefix_app.
Qed.

#[export] Instance demoCryptoJS : CryptoJS := {|
  AES_encrypt := demo_encrypt;
  AES_decrypt_Utf8 := demo_decrypt;
  AES_encrypt_total := fun data pass salt => ex_intro _ _ eq_refl;
  AES_decrypt_encrypt := demo_decrypt_encrypt
|}.

Section Laws.
Context `{CryptoJS}.
Variable key : option string.

Lemma truthy_nonempty (s : string) : JS.truthy s = true ↔ s ≠ "".
Proof. destruct s; simpl; split; intros; congruence. Qed.

(** [decrypt] in terms of what the library returns. *)
Lemma decrypt_cases (c : string) :
  decrypt key c =
    match AES_decrypt_Utf8 c (ENCRYPTION_KEY key) with
    | Ok EmptyString => Throw "Failed to decrypt data"
    | Ok plain => Ok plain
    | Throw _ => Throw "Failed to decrypt data"
    end.
Proof.
  unfold decrypt. destruct (AES_decrypt_Utf8 c (ENCRYPTION_KEY key)) as [[|a p]|e]; done.
Qed.

Lemma encrypt_ok (salt data : string) :
  ∃ c, encrypt key salt data = Ok c ∧ AES_decrypt_Utf8 c (ENCRYPTION_KEY key) = Ok data.
Proof.
  destruct (AES_encrypt_total data (ENCRYPTION_KEY key) salt) as [c Hc].
  exists c. unfold encrypt. rewrite Hc. split; [done|].
  by eapply AES_decrypt_encrypt.
Qed.

(** C3, as amended: for every non-empty string [s], decrypting the
    encryption of [s] under the process-wide static key gives [s] back,
    whatever salt the library draws. *)
Theorem C3_roundtrip_nonempty (salt s : string) :
  s ≠ "" → decrypt_encrypt key salt s = Ok s.
Proof.
  intros Hs. unfold decrypt_encrypt.
  destruct (encrypt_ok salt s) as (c & -> & Hd). simpl.
  rewrite decrypt_cases, Hd. by destruct s.
Qed.

(** C9: [decrypt] rejects empty plaintext.  Whenever the library decrypts
    the input to the empty string, [decrypt] throws "Failed to decrypt
    data"; this is so for every encryption of the empty string; and no
    input makes [decrypt] return the empty string. *)
Theorem C9_decrypt_rejects_empty_plaintext :
  (∀ c, decrypt key c =
          match AES_decrypt_Utf8 c (ENCRYPTION_KEY key) with
          | Ok plain => if JS.truthy plain then Ok plain else Throw "Failed to decrypt data"
          | Throw _ => Throw "Failed to decrypt data"
          end)
  ∧ (∀ salt, ∃ c, encrypt key salt "" = Ok c ∧ decrypt key c = Throw "Failed to decrypt data")
  ∧ (∀ c, decrypt key c ≠ Ok "").
Proof.
  split; [|split].
  - intros c. rewrite decrypt_cases.
    by destruct (AES_decrypt_Utf8 c (ENCRYPTION_KEY key)) as [[|a p]|e].
  - intros salt. destruct (encrypt_ok salt "") as (c & Hc & Hd).
    exists c. split; [done|]. by rewrite decrypt_cases, Hd.
  - intros c. rewrite decrypt_cases.
    by destruct (AES_decrypt_Utf8 c (ENCRYPTION_KEY key)) as [[|a p]|e].
Qed.

(** *** [decryptObject] *)

(** One turn of the loop, as a total update of the result object. *)
Definition decrypt_entry (acc : gmap string string) (e : string * string)
  : gmap string string :=
  match decrypted_field key e.2 with
  | Some plain => <[e.1 := plain]> acc
  | None => acc
  end.

Lemma decryptObject_loop (l : list (string * string)) (acc : gmap string string) :
  for_of l acc
    (fun '(key', value) decrypted =>
       if JS.truthy value then
         try_catch
           (plain ← decrypt key value;
            Ok (<[key' := plain]> decrypted))
           (fun _ => Ok (<[key' := DECRYPTION_FAILED]> decrypted))
       else Ok decrypted)
  = Ok (foldl decrypt_entry acc l).
Proof.
  revert acc. induction l as [|[k v] l IH]; intros acc; simpl; [done|].
  unfold decrypt_entry at 2, decrypted_field. simpl.
  destruct (JS.truthy v); [|apply IH].
  destruct (decrypt key v); simpl; apply IH.
Qed.

Lemma lookup_foldl_decrypt_entry (l : list (string * string)) (acc : gmap string string) k :
  NoDup l.*1 →
  foldl decrypt_entry acc l !! k =
    match (list_to_map l : gmap string string) !! k ≫= decrypted_field key with
    | Some plain => Some plain
    | None => acc !! k
    end.
Proof.
  revert acc. induction l as [|[k0 v0] l IH]; intros acc Hnd; simpl.
  - by rewrite lookup_empty.
  - apply NoDup_cons in Hnd as [Hk0 Hnd]. rewrite IH by done.
    destruct (decide (k0 = k)) as [->|Hne].
    + rewrite lookup_insert_eq. simpl.
      rewrite (not_elem_of_list_to_map_1 _ k) by done. simpl.
      unfold decrypt_entry. simpl.
      destruct (decrypted_field key v0); [by rewrite lookup_insert_eq|done].
    + rewrite lookup_insert_ne by done.
      destruct (list_to_map l !! k ≫= decrypted_field key); [done|].
      unfold decrypt_entry. simpl.
      destruct (decrypted_field key v0); [by rewrite lookup_insert_ne|done].
Qed.

(** C7: [decryptObject] never throws.  It returns an object in which a
    field whose decryption fails holds "[DECRYPTION_FAILED]" and every
    other non-empty field holds its decrypted plaintext (an empty field is
    left out), so one undecryptable field does not fail the record. *)
Theorem C7_decryptObject_never_throws (encryptedObj : gmap string string) :
  ∃ decrypted,
    decryptObject key encryptedObj = Ok decrypted
    ∧ ∀ k, decrypted !! k =
        match encryptedObj !! k with
        | Some value =>
            if JS.truthy value then
              Some match decrypt key value with
                   | Ok plain => plain
                   | Throw _ => "[DECRYPTION_FAILED]"
                   end
            else None
        | None => None
        end.
Proof.
  eexists. split.
  - unfold decryptObject. apply decryptObject_loop.
  - intros k. rewrite lookup_foldl_decrypt_entry by apply NoDup_fst_map_to_list.
    rewrite list_to_map_to_list, lookup_empty.
    destruct (encryptedObj !! k) as [v|]; simpl; [|done].
    unfold decrypted_field. destruct (JS.truthy v); [|done].
    by destruct (decrypt key v).
Qed.

End Laws.

(** C3 fails at the empty string: its encryption decrypts to an exception,
    not to the empty string. *)
Lemma C3_empty_string_counterexample :
  decrypt_encrypt None "8f3a" "" = Throw "Failed to decrypt data"
  ∧ decrypt_encrypt None "8f3a" "" ≠ Ok "".
Proof. split; [reflexivity|discriminate]. Qed.

Lemma C3_roundtrip_nonempty_witness :
  "4111111111111111" ≠ ""
  ∧ decrypt_encrypt None "8f3a" "4111111111111111" = Ok "4111111111111111".
Proof.
  split; [discriminate|].
  apply (C3_roundtrip_nonempty None "8f3a" "4111111111111111"). discriminate.
Defined.

End EncryptionFacts.

(** ** JavaScript primitives *)

Module JSFacts.

Section Sort.
Context {A : Type} (compare : A → A → Z).

(** [precedes a b]: the comparator lets [a] stay in front of [b]. *)
Definition precedes (a b : A) : Prop := compare a b ≤ 0.

Hypothesis compare_flip : ∀ a b, 0 < compare a b → precedes b a.
Hypothesis precedes_trans : ∀ a b c, precedes a b → precedes b c → precedes a c.

Lemma sort_insert_perm (x : A) (l : list A) : JS.sort_insert compare x l ≡ₚ x :: l.
Proof.
  induction l as [|y l IH]; simpl; [done|].
  destruct (0 <? compare x y); [|done].
  rewrite IH. apply Permutation_swap.
Qed.

Lemma sort_perm (l : list A) : JS.sort compare l ≡ₚ l.
Proof.
  unfold JS.sort. induction l as [|x l IH]; simpl; [done|].
  by rewrite sort_insert_perm, IH.
Qed.

Lemma sort_insert_sorted (x : A) (l : list A) :
  StronglySorted precedes l → StronglySorted precedes (JS.sort_insert compare x l).
Proof.
  induction l as [|y l IH]; intros Hl; simpl.
  - repeat constructor.
  - apply StronglySorted_inv in Hl as [Hl Hy].
    destruct (0 <? compare x y) eqn:Hc.
    + apply Z.ltb_lt in Hc. constructor; [by apply IH|].
      rewrite sort_insert_perm. constructor; [by apply compare_flip|done].
    + apply Z.ltb_ge in Hc. constructor; [by constructor|].
      constructor; [done|].
      eapply Forall_impl; [exact Hy|]. intros z Hz. by eapply precedes_trans.
Qed.

Lemma sort_sorted (l : list A) : StronglySorted precedes (JS.sort compare l).
Proof.
  unfold JS.sort. induction l as [|x l IH]; simpl; [constructor|].
  by apply sort_insert_sorted.
Qed.

End Sort.

Lemma slice0_take {A} (n : Z) (l : list A) : 0 ≤ n → JS.slice0 n l = take (Z.to_nat n) l.
Proof. intros Hn. unfold JS.slice0. by rewrite (proj2 (Z.ltb_ge n 0)). Qed.

Example btoa_Man : JS.btoa "Man" = "TWFu".
Proof. reflexivity. Qed.

Example btoa_padding : JS.btoa "light work." = "bGlnaHQgd29yay4=" ∧ JS.btoa "M" = "TQ==".
Proof. split; reflexivity. Qed.

Example parseInt_samples :
  JS.parseInt "50" = Some 50 ∧ JS.parseInt "  -12abc" = Some (-12)
  ∧ JS.parseInt "0x1f" = Some 31 ∧ JS.parseInt "08" = Some 8
  ∧ JS.parseInt "abc" = None ∧ JS.parseInt "" = None ∧ JS.parseInt "-" = None
  ∧ JS.parseInt (String (ascii_of_N 160) "2") = Some 2.
Proof. repeat split; reflexivity. Qed.

Example sort_is_stable :
  JS.sort (fun a b : Z * string => b.1 - a.1) [(1, "a"); (2, "b"); (1, "c"); (2, "d")]
  = [(2, "b"); (2, "d"); (1, "a"); (1, "c")].
Proof. reflexivity. Qed.

Example url_query_value_decodes : JS.url_query_value "a%20b+c&d" = "a b c".
Proof. reflexivity. Qed.

(** The decimal numeral with the digits [ds], most significant first, and
    the number it denotes. *)
Definition digit (d : N) : ascii := ascii_of_N (48 + d).

Definition numeral (ds : list N) : string := foldr (fun d s => String (digit d) s) EmptyString ds.

Definition number (ds : list N) : Z := foldl (fun acc d => acc * 10 + Z.of_N d) 0 ds.












Example numeral_samples : numeral [1; 0; 1]%N = "101" ∧ number [1; 0; 1]%N = 101.
Proof. split; reflexivity. Qed.

End JSFacts.

(** ** Firestore queries *)

Module FirestoreFacts.

Lemma filter_imap_pair {D} (P : D → bool) (g : nat → nat) (c : Firestore.Collection D) :
  (filter (fun d : nat * (string * D) => P d.2.2) (imap (fun i d => (g i, d)) c)).*2
  = filter (fun d : string * D => P d.2) c.
Proof.
  revert g. induction c as [|d c IH]; intros g; [done|].
  rewrite imap_cons. specialize (IH (g ∘ S)).
  destruct (decide (P d.2)) as [Hp|Hp].
  - rewrite filter_cons_True, (filter_cons_True _ d) by done.
    simpl. f_equal. apply IH.
  - rewrite filter_cons_False, (filter_cons_False _ d) by done.
    apply IH.
Qed.

(** The snapshot of a query is the matching documents, in order. *)
Lemma getDocs_docs {D} (P : D → bool) (c : Firestore.Collection D) :
  ∃ snapshot, Firestore.getDocs P c = Ok snapshot
              ∧ snapshot.*2 = filter (fun d : string * D => P d.2) c.
Proof. eexists. split; [done|]. apply (filter_imap_pair P id). Qed.

(** *** Identifiers as paths *)

Lemma letter_or_digit_no_slash (a : ascii) :
  Firestore.letter_or_digit a = true → Ascii.eqb a "/" = false.
Proof. by destruct a as [[] [] [] [] [] [] [] []]. Qed.

Lemma plain_id_cons (id : string) :
  Firestore.plain_id id = true →
  ∃ a rest, id = String a rest ∧ Firestore.letter_or_digit a = true
            ∧ JS.all_chars Firestore.letter_or_digit rest = true.
Proof.
  unfold Firestore.plain_id. destruct id as [|a rest]; [done|]. simpl.
  intros [[Ha Hrest]%andb_prop _]%andb_prop. by exists a, rest.
Qed.

Lemma split_slash_letters (s : string) :
  JS.all_chars Firestore.letter_or_digit s = true → Firestore.split_slash s = [s].
Proof.
  induction s as [|a s IH]; [done|]. simpl. intros [Ha Hs]%andb_prop.
  by rewrite (letter_or_digit_no_slash a Ha), (IH Hs).
Qed.

Lemma double_slash_letters (s : string) :
  JS.all_chars Firestore.letter_or_digit s = true → Firestore.double_slash s = false.
Proof.
  induction s as [|a s IH]; [done|]. cbn [JS.all_chars]. intros [Ha Hs]%andb_prop.
  cbn [Firestore.double_slash]. destruct s as [|b s]; [done|].
  by rewrite (letter_or_digit_no_slash a Ha), (IH Hs).
Qed.

(** An identifier of letters and digits names the document of that name. *)
Lemma doc_plain (id : string) :
  Firestore.plain_id id = true → Firestore.doc id = Ok [id].
Proof.
  intros Hid. destruct (plain_id_cons id Hid) as (a & rest & -> & Ha & Hrest).
  assert (JS.all_chars Firestore.letter_or_digit (String a rest) = true) as Hall
    by (simpl; by rewrite Ha, Hrest).
  unfold Firestore.doc. rewrite (double_slash_letters _ Hall), (split_slash_letters _ Hall).
  by rewrite filter_cons_True.
Qed.

Lemma reference_plain (id : string) :
  Firestore.plain_id id = true → Firestore.reference id = Ok (Firestore.Document id).
Proof. intros Hid. unfold Firestore.reference. by rewrite (doc_plain id Hid). Qed.

Lemma split_slash_two (s t : string) :
  JS.all_chars Firestore.letter_or_digit s = true →
  Firestore.split_slash (s +:+ String "/" t) = s :: Firestore.split_slash t.
Proof.
  induction s as [|a s IH]; [done|]. cbn [JS.all_chars]. intros [Ha Hs]%andb_prop.
  rewrite EncryptionFacts.append_cons. cbn [Firestore.split_slash].
  by rewrite (letter_or_digit_no_slash a Ha), (IH Hs).
Qed.

Lemma double_slash_two (s t : string) :
  JS.all_chars Firestore.letter_or_digit s = true →
  Firestore.plain_id t = true →
  Firestore.double_slash (s +:+ String "/" t) = false.
Proof.
  intros Hs Ht. destruct (plain_id_cons t Ht) as (b & rest & -> & Hb & Hrest).
  assert (Firestore.double_slash (String "/" (String b rest)) = false) as Hbase.
  { change (Ascii.eqb "/" "/" && Ascii.eqb b "/"
            || Firestore.double_slash (String b rest) = false).
    rewrite (letter_or_digit_no_slash b Hb).
    change (Firestore.double_slash (String b rest) = false).
    apply double_slash_letters. simpl. by rewrite Hb, Hrest. }
  induction s as [|a s IH]; [exact Hbase|].
  cbn [JS.all_chars] in Hs. apply andb_prop in Hs as [Ha Hs].
  rewrite EncryptionFacts.append_cons.
  destruct (s +:+ String "/" (String b rest)) as [|c r] eqn:Hsr.
  - by destruct s.
  - change (Ascii.eqb a "/" && Ascii.eqb c "/" || Firestore.double_slash (String c r) = false).
    rewrite (letter_or_digit_no_slash a Ha). by apply IH.
Qed.

(** Two such identifiers with a slash between them name no document of
    the collection: [doc] throws. *)
Lemma doc_two_segments (s t : string) :
  Firestore.plain_id s = true → Firestore.plain_id t = true →
  ∃ e, Firestore.doc (s +:+ String "/" t) = Throw e
       ∧ Firestore.reference (s +:+ String "/" t) = Throw e.
Proof.
  intros Hs Ht.
  destruct (plain_id_cons s Hs) as (a & rest & -> & Ha & Hrest).
  assert (JS.all_chars Firestore.letter_or_digit (String a rest) = true) as Hall
    by (simpl; by rewrite Ha, Hrest).
  destruct (plain_id_cons t Ht) as (b & rest' & Heq & Hb & Hrest').
  assert (JS.all_chars Firestore.letter_or_digit t = true) as Hall'
    by (rewrite Heq; simpl; by rewrite Hb, Hrest').
  unfold Firestore.reference, Firestore.doc.
  rewrite (double_slash_two _ t Hall Ht), (split_slash_two _ t Hall).
  rewrite (split_slash_letters t Hall').
  rewrite filter_cons_True by done. rewrite filter_cons_True by (by rewrite Heq).
  by eexists.
Qed.

Example doc_samples :
  Firestore.doc "card1" = Ok ["card1"] ∧ Firestore.doc "/card1/" = Ok ["card1"]
  ∧ Firestore.doc "a/b/c" = Ok ["a"; "b"; "c"]
  ∧ (∃ e, Firestore.doc "a/b" = Throw e) ∧ (∃ e, Firestore.doc "a//b/c" = Throw e)
  ∧ (∃ e, Firestore.doc "" = Throw e) ∧ (∃ e, Firestore.doc "/" = Throw e).
Proof. repeat split; try reflexivity; by eexists. Qed.

End FirestoreFacts.

(** ** The audit log route *)

Module SecurityLogsFacts.
Import Http SecurityLogs.

(** The entry [GET] produces for a stored document: the same fields, and
    the stored time stamp when the document has one. *)
Definition entry_of (e : SecurityLog) (d : string * Data) : Prop :=
  log_id e = d.1 ∧ log_userId e = userId d.2 ∧ log_action e = action d.2
  ∧ log_method e = method d.2 ∧ log_success e = success d.2
  ∧ log_ipAddress e = ipAddress d.2 ∧ log_userAgent e = userAgent d.2
  ∧ log_details e = details d.2
  ∧ ∀ t, timestamp d.2 = Some t → log_timestamp e = t.

(** [a] is at least as recent as [b]. *)
Definition not_older (a b : SecurityLog) : Prop := log_timestamp b ≤ log_timestamp a.

Lemma imap_entry_of (clock : nat → Z) (snapshot : list (nat * (string * Data))) :
  Forall2 entry_of
    (imap (fun i (d : nat * (string * Data)) =>
             let data := d.2.2 in
             {| log_id := d.2.1;
                log_userId := userId data;
                log_action := action data;
                log_method := method data;
                log_success := success data;
                log_timestamp := default (clock i) (timestamp data);
                log_ipAddress := ipAddress data;
                log_userAgent := userAgent data;
                log_details := details data |})
          snapshot)
    snapshot.*2.
Proof.
  revert clock. induction snapshot as [|d l IH]; intros clock; [constructor|].
  rewrite imap_cons. simpl. constructor; [|apply (IH (clock ∘ S))].
  unfold entry_of. simpl. repeat split. by intros t ->.
Qed.

Lemma sorted_newest_first (l : list SecurityLog) :
  StronglySorted not_older (JS.sort newest_first l).
Proof.
  assert (StronglySorted (JSFacts.precedes newest_first) (JS.sort newest_first l)) as H.
  { apply JSFacts.sort_sorted; unfold JSFacts.precedes, newest_first; intros; lia. }
  induction H as [|e es _ IH He]; constructor; [done|].
  eapply Forall_impl; [exact He|].
  unfold JSFacts.precedes, newest_first, not_older. intros; lia.
Qed.


(** [limitCount > 0 && limitCount <= 100 ? logs.slice(0, limitCount) : logs]
    said with the bounds 1 and 100. *)
Definition limited (limitCount : option Z) (sorted : list SecurityLog) : list SecurityLog :=
  match limitCount with
  | Some n => if decide (1 ≤ n ≤ 100) then take (Z.to_nat n) sorted else sorted
  | None => sorted
  end.


(** Two events of one user, twenty seconds apart. *)
Definition two_events : Store :=
  [("a", {| userId := "u1"; action := "login"; method := "face";
            success := true; ipAddress := "unknown"; userAgent := "ua";
            location := None; details := None; timestamp := Some 10 |});
   ("b", {| userId := "u1"; action := "logout"; method := "manual";
            success := true; ipAddress := "unknown"; userAgent := "ua";
            location := None; details := None; timestamp := Some 20 |})].


(** The limits 0, -1 and 101 return both events, newest first; the limit
    1 returns the newest only, also behind a no-break space. *)
Example GET_limits :
  let entry_a := {| log_id := "a"; log_userId := "u1"; log_action := "login";
                    log_method := "face"; log_success := true; log_timestamp := 10;
                    log_ipAddress := "unknown"; log_userAgent := "ua";
                    log_details := None |} in
  let entry_b := {| log_id := "b"; log_userId := "u1"; log_action := "logout";
                    log_method := "manual"; log_success := true; log_timestamp := 20;
                    log_ipAddress := "unknown"; log_userAgent := "ua";
                    log_details := None |} in
  (GET (fun _ => 0) (Some "u1") (Some "0") None two_events).1
    = json (Logs [entry_b; entry_a]) 200
  ∧ (GET (fun _ => 0) (Some "u1") (Some "-1") None two_events).1
    = json (Logs [entry_b; entry_a]) 200
  ∧ (GET (fun _ => 0) (Some "u1") (Some "101") None two_events).1
    = json (Logs [entry_b; entry_a]) 200
  ∧ (GET (fun _ => 0) (Some "u1") (Some "1") None two_events).1
    = json (Logs [entry_b]) 200
  ∧ (GET (fun _ => 0) (Some "u1") (Some (String (ascii_of_N 160) "1")) None two_events).1
    = json (Logs [entry_b]) 200.
Proof. repeat split; reflexivity. Qed.

(** The newest entry comes first and the limit cuts after it. *)
Example GET_newest_first_limit_1 :
  (GET (fun _ => 0) (Some "u1") (Some "1") None
     [("a", {| userId := "u1"; action := "login"; method := "face";
               success := true; ipAddress := "unknown"; userAgent := "ua";
               location := None; details := None; timestamp := Some 10 |});
      ("b", {| userId := "u1"; action := "logout"; method := "manual";
               success := true; ipAddress := "unknown"; userAgent := "ua";
               location := None; details := None; timestamp := Some 20 |})]).1
  = json (Logs [ {| log_id := "b"; log_userId := "u1"; log_action := "logout";
                    log_method := "manual"; log_success := true; log_timestamp := 20;
                    log_ipAddress := "unknown"; log_userAgent := "ua";
                    log_details := None |} ]) 200.
Proof. reflexivity. Qed.

End SecurityLogsFacts.

(** ** The credential store route *)

Module BiometricCredentialsFacts.
Import Http BiometricCredentials.

(** The stored credential identifiers. *)
Definition credentialIds (store : Store) : list string :=
  (fun d : string * Data => credentialId d.2) <$> store.

(** [GET] turns a stored document into this entry of its answer. *)
Definition to_credential (now : Z) (d : string * Data) : BiometricCredential :=
  {| bc_id := d.1;
     bc_userId := userId d.2;
     bc_publicKey := publicKey d.2;
     bc_credentialId := credentialId d.2;
     bc_counter := JS.or_zero (Some (counter d.2));
     bc_createdAt := default now (createdAt d.2);
     bc_lastUsed := lastUsed d.2;
     bc_deviceInfo := deviceInfo d.2 |}.

Lemma truthy_true (s : string) : s ≠ "" → JS.truthy s = true.
Proof. by destruct s. Qed.

Lemma truthy_opt_Some (o : option string) :
  JS.truthy_opt o = true → ∃ s, o = Some s ∧ s ≠ "".
Proof. destruct o as [[|a s]|]; simpl; [done| |done]. intros _. by eexists. Qed.

Lemma stored_by_POST_nonempty (store : Store) (d : string * Data) :
  stored_by_POST store = true → d ∈ store → credentialId d.2 ≠ "".
Proof.
  unfold stored_by_POST. rewrite forallb_forall. intros H Hd.
  apply list_elem_of_In, H in Hd.
  apply andb_prop in Hd as [_ Hd]. by destruct (credentialId d.2).
Qed.

(** The lookup by credential identifier answers 200 with the matching
    documents. *)
Lemma GET_by_credentialId (now : Z) (c : string) (store : Store) :
  c ≠ "" →
  GET now None (Some c) store =
    (json (Credentials
             (to_credential now <$> filter (fun d : string * Data => credentialId d.2 = c) store))
          200,
     store).
Proof.
  intros Hc. unfold GET.
  destruct (FirestoreFacts.getDocs_docs (credentialsQuery None (Some c)) store)
    as (snapshot & Hq & Hdocs).
  rewrite Hq. simpl. rewrite (truthy_true c Hc). simpl. unfold or_500. do 3 f_equal.
  assert (filter (fun d : string * Data => credentialId d.2 = c) store
          = filter (fun d : string * Data => credentialsQuery None (Some c) d.2) store) as ->.
  { apply list_filter_iff. intros d. unfold credentialsQuery. simpl.
    rewrite (truthy_true c Hc). rewrite bool_decide_spec. split; congruence. }
  rewrite <- Hdocs. by rewrite <- list_fmap_compose.
Qed.

(** [POST] keeps the stored identifiers non-empty and pairwise distinct,
    whatever the request. *)
Lemma POST_preserves_invariant (now : Z) (fresh : string) (body : PostBody) (store : Store) :
  stored_by_POST store = true → NoDup (credentialIds store) →
  stored_by_POST (POST now fresh body store).2 = true
  ∧ NoDup (credentialIds (POST now fresh body store).2).
Proof.
  intros Hs Hn. unfold POST.
  destruct (post_userId body) as [u|]; [|done].
  destruct (post_publicKey body) as [k|]; [|done].
  destruct (post_credentialId body) as [c|]; [|done].
  destruct (JS.truthy u) eqn:Hu; [|done].
  destruct (JS.truthy k) eqn:Hk; [|done].
  destruct (JS.truthy c) eqn:Hc; [|done]. simpl.
  destruct (FirestoreFacts.getDocs_docs (fun d => bool_decide (credentialId d = c)) store)
    as (snapshot & Hq & Hdocs).
  unfold Firestore.getDocs in *. injection Hq as Hq. rewrite Hq. clear Hq.
  destruct snapshot as [|x snapshot]; simpl; [|done]. split.
  - unfold stored_by_POST in *. rewrite forallb_app, Hs. simpl. by rewrite Hu, Hk, Hc.
  - unfold credentialIds. rewrite fmap_app. simpl. apply NoDup_app. split; [done|].
    split; [|apply NoDup_singleton].
    intros c' Hin ->%list_elem_of_singleton.
    apply list_elem_of_fmap in Hin as (d & Heq & Hd).
    assert (d ∈ filter (fun d : string * Data => bool_decide (credentialId d.2 = c)) store) as Hf.
    { apply list_elem_of_filter. split; [|done]. by apply bool_decide_pack. }
    rewrite <- Hdocs in Hf. by apply elem_of_nil in Hf.
Qed.

Lemma stored_by_POST_Forall (store : Store) :
  stored_by_POST store = true
  ↔ Forall (fun d : string * Data =>
              JS.truthy (userId d.2) && JS.truthy (publicKey d.2)
              && JS.truthy (credentialId d.2) = true) store.
Proof.
  unfold stored_by_POST. rewrite forallb_forall, Forall_forall.
  split; intros H d Hd; apply H; by apply list_elem_of_In.
Qed.

(** [PUT] and [DELETE] keep them so as well: the first changes [counter]
    and [lastUsed] of one document, the second removes documents. *)
Lemma PUT_preserves_invariant (now : Z) (body : PutBody) (store : Store) :
  stored_by_POST store = true →
  stored_by_POST (PUT now body store).2 = true
  ∧ credentialIds (PUT now body store).2 = credentialIds store.
Proof.
  intros Hs. unfold PUT.
  destruct (put_counter body) as [k|]; [|done].
  destruct (negb (JS.truthy_opt (put_credentialId body))); [done|]. simpl.
  destruct (filter _ _) as [|d snapshot]; [done|]. simpl. split.
  - apply stored_by_POST_Forall, Forall_alter; [by apply stored_by_POST_Forall|].
    by intros x _.
  - unfold credentialIds. rewrite (list_fmap_alter _ _ id).
    + by apply list_alter_id.
    + by apply Forall_forall.
Qed.

Lemma DELETE_preserves_invariant (u c : option string) (store : Store) :
  stored_by_POST store = true → NoDup (credentialIds store) →
  stored_by_POST (DELETE u c store).2 = true
  ∧ NoDup (credentialIds (DELETE u c store).2).
Proof.
  intros Hs Hn. unfold DELETE.
  destruct (negb (JS.truthy_opt u) && negb (JS.truthy_opt c)); [done|]. simpl. split.
  - apply stored_by_POST_Forall, Forall_forall. intros d Hd.
    apply list_elem_of_filter in Hd as [_ Hd].
    apply stored_by_POST_Forall in Hs. by eapply Forall_forall in Hs.
  - unfold credentialIds in *. clear Hs.
    induction store as [|d store IH]; [done|].
    rewrite fmap_cons in Hn. apply NoDup_cons in Hn as [Hd Hn].
    rewrite filter_cons. destruct (decide _); [|by apply IH].
    rewrite fmap_cons. apply NoDup_cons. split; [|by apply IH].
    intros Hin. apply Hd. apply list_elem_of_fmap in Hin as (x & Hx & Hin).
    apply list_elem_of_filter in Hin as [_ Hin].
    apply list_elem_of_fmap. by exists x.
Qed.

(** C4: when the store already holds a record with credential identifier
    [D], a [POST] with that identifier and non-empty [userId] and
    [publicKey] answers 409 "Credential already exists" and leaves the
    store as it was, so the stored identifiers stay pairwise distinct.
    Store states are those [POST] builds: every stored identifier is a
    non-empty string. *)
Theorem C4_POST_duplicate_rejected
    (now : Z) (fresh : string) (body : PostBody) (store : Store) (D : string) :
  stored_by_POST store = true →
  D ∈ credentialIds store →
  post_credentialId body = Some D →
  JS.truthy_opt (post_userId body) = true →
  JS.truthy_opt (post_publicKey body) = true →
  POST now fresh body store = (json (Error "Credential already exists") 409, store)
  ∧ (NoDup (credentialIds store) → NoDup (credentialIds (POST now fresh body store).2)).
Proof.
  intros Hs HD Hc Hu Hk.
  apply list_elem_of_fmap in HD as (d & -> & Hd).
  pose proof (stored_by_POST_nonempty store d Hs Hd) as Hne.
  apply truthy_opt_Some in Hu as (u & Hu & Hu').
  apply truthy_opt_Some in Hk as (k & Hk & Hk').
  assert (POST now fresh body store = (json (Error "Credential already exists") 409, store))
    as Heq; [|by rewrite Heq].
  unfold POST. rewrite Hu, Hk, Hc.
  rewrite !truthy_true by done. simpl.
  destruct (FirestoreFacts.getDocs_docs
              (fun d' => bool_decide (credentialId d' = credentialId d.2)) store)
    as (snapshot & Hq & Hdocs).
  unfold Firestore.getDocs in *. injection Hq as Hq. rewrite Hq. clear Hq.
  destruct snapshot as [|x snapshot]; simpl; [|done].
  assert (d ∈ filter (fun d' : string * Data =>
                        bool_decide (credentialId d'.2 = credentialId d.2)) store) as Hf.
  { apply list_elem_of_filter. split; [|done]. by apply bool_decide_pack. }
  rewrite <- Hdocs in Hf. by apply elem_of_nil in Hf.
Qed.

(** A store with one credential of user [u1], whose identifier is the
    base64url form of the bytes 1, 2, 3. *)
Definition store_u1 : Store :=
  [("doc1", {| userId := "u1"; publicKey := "cGs="; credentialId := "AQID";
               counter := 0; deviceInfo := None; createdAt := Some 5;
               lastUsed := None |})].

Definition body_u2_AQID : PostBody :=
  {| post_userId := Some "u2"; post_publicKey := Some "a2V5";
     post_credentialId := Some "AQID"; post_counter := Some 0;
     post_deviceInfo := None |}.

Lemma C4_POST_duplicate_rejected_witness :
  POST 9 "doc2" body_u2_AQID store_u1
    = (json (Error "Credential already exists") 409, store_u1)
  ∧ (NoDup (credentialIds store_u1) →
     NoDup (credentialIds (POST 9 "doc2" body_u2_AQID store_u1).2)).
Proof.
  apply (C4_POST_duplicate_rejected 9 "doc2" body_u2_AQID store_u1 "AQID");
    try reflexivity.
  apply list_elem_of_here.
Defined.

End BiometricCredentialsFacts.

(** ** Credential identifiers survive the query string *)

Module Base64Facts.

Lemma string_ind3 (P : string → Prop) :
  P "" →
  (∀ a, P (String a "")) →
  (∀ a b, P (String a (String b ""))) →
  (∀ a b c s, P s → P (String a (String b (String c s)))) →
  ∀ s, P s.
Proof.
  intros H0 H1 H2 H3 s.
  assert (P s ∧ (∀ a, P (String a s)) ∧ (∀ a b, P (String a (String b s)))) as [H _].
  { induction s as [|c s (IH0 & IH1 & IH2)]; [by auto|].
    split; [apply IH1|]. split; [intros a; apply IH2|]. intros a b. by apply H3. }
  exact H.
Qed.

(** The characters [btoa] writes. *)
Definition b64_char (a : ascii) : bool :=
  JS.url_safe a || Ascii.eqb a "+" || Ascii.eqb a "/" || Ascii.eqb a "=".

Lemma b64_digit_char (n : N) : b64_char (JS.b64_digit n) = true.
Proof.
  destruct (N.ltb_spec n 64) as [Hlt|Hge].
  - assert (forallb (fun k => b64_char (JS.b64_digit (N.of_nat k))) (seq 0 64) = true)
      as Hall by (vm_compute; reflexivity).
    rewrite forallb_forall in Hall.
    specialize (Hall (N.to_nat n)). rewrite N2Nat.id in Hall.
    apply Hall, in_seq. lia.
  - unfold JS.b64_digit.
    rewrite (proj2 (N.ltb_ge n 26)), (proj2 (N.ltb_ge n 52)), (proj2 (N.ltb_ge n 62)) by lia.
    by destruct (n =? 62)%N.
Qed.

Lemma btoa_chars (s : string) : JS.all_chars b64_char (JS.btoa s) = true.
Proof.
  induction s as [|a|a b|a b c s IH] using string_ind3; simpl;
    rewrite ?b64_digit_char; simpl; done.
Qed.

Lemma all_chars_app (q : ascii → bool) (r t : string) :
  JS.all_chars q (r +:+ t) = JS.all_chars q r && JS.all_chars q t.
Proof.
  induction r as [|x r IH]; [done|].
  rewrite EncryptionFacts.append_cons. simpl. by rewrite IH, andb_assoc.
Qed.

Lemma replace_all_chars (p q : ascii → bool) (c : ascii) (r s : string) :
  JS.all_chars q r = true →
  (∀ a, p a = true → Ascii.eqb a c = false → q a = true) →
  JS.all_chars p s = true →
  JS.all_chars q (JS.replace_all c r s) = true.
Proof.
  intros Hr Hpq. induction s as [|a s IH]; simpl; [done|].
  intros [Ha Hs]%andb_prop. specialize (IH Hs).
  destruct (Ascii.eqb a c) eqn:Hac.
  - by rewrite all_chars_app, Hr, IH.
  - simpl. by rewrite (Hpq a Ha Hac).
Qed.

Lemma arrayBufferToBase64url_safe (buffer : list byte) :
  JS.all_chars JS.url_safe (BiometricAuthClient.arrayBufferToBase64url buffer) = true.
Proof.
  unfold BiometricAuthClient.arrayBufferToBase64url, BiometricAuthClient.arrayBufferToBase64.
  set (binary := fold_left _ buffer "").
  apply (replace_all_chars
           (fun a => JS.url_safe a || Ascii.eqb a "=") JS.url_safe); [done| |].
  { intros a Ha Hne. rewrite Hne in Ha. by rewrite orb_false_r in Ha. }
  apply (replace_all_chars
           (fun a => JS.url_safe a || Ascii.eqb a "/" || Ascii.eqb a "=")
           (fun a => JS.url_safe a || Ascii.eqb a "=")); [done| |].
  { intros a Ha Hne. rewrite Hne in Ha. by rewrite orb_false_r in Ha. }
  apply (replace_all_chars b64_char
           (fun a => JS.url_safe a || Ascii.eqb a "/" || Ascii.eqb a "=")); [done| |].
  { intros a Ha Hne. unfold b64_char in Ha. rewrite Hne in Ha.
    by rewrite orb_false_r in Ha. }
  apply btoa_chars.
Qed.

Lemma url_safe_plain (a : ascii) :
  JS.url_safe a = true →
  Ascii.eqb a "&" = false ∧ Ascii.eqb a "#" = false
  ∧ Ascii.eqb a "+" = false ∧ Ascii.eqb a "%" = false.
Proof. destruct a as [[] [] [] [] [] [] [] []]; vm_compute; intros; done. Qed.

(** A string of base64url characters is read back from the query string
    as it was written. *)
Lemma url_query_value_safe (s : string) :
  JS.all_chars JS.url_safe s = true → JS.url_query_value s = s.
Proof.
  induction s as [|a s IH]; simpl; [done|].
  intros [Ha Hs]%andb_prop.
  destruct (url_safe_plain a Ha) as (-> & -> & -> & ->). simpl. by rewrite IH.
Qed.

Lemma credentialId_in_query (buffer : list byte) :
  JS.url_query_value (BiometricAuthClient.arrayBufferToBase64url buffer)
  = BiometricAuthClient.arrayBufferToBase64url buffer.
Proof. apply url_query_value_safe, arrayBufferToBase64url_safe. Qed.

Example base64url_of_bytes :
  BiometricAuthClient.arrayBufferToBase64url [xfb; xff; xbe; x01] = "-_--AQ".
Proof. reflexivity. Qed.

End Base64Facts.

(** ** The stored public key is never read for a decision *)

Module PublicKeyFacts.
Import Http BiometricCredentials World Browser.

(** The store with every public key blanked: two stores with the same
    image differ in their [publicKey] fields at most. *)
Definition blank_key (data : Data) : Data :=
  {| userId := userId data;
     publicKey := "";
     credentialId := credentialId data;
     counter := counter data;
     deviceInfo := deviceInfo data;
     createdAt := createdAt data;
     lastUsed := lastUsed data |}.

Definition blank_keys (store : Store) : Store :=
  (fun d : string * Data => (d.1, blank_key d.2)) <$> store.

Definition blank_world (w : World) : World :=
  with_biometricCredentials (blank_keys (biometricCredentials w)) w.

Definition blank_credential (c : BiometricCredential) : BiometricCredential :=
  {| bc_id := bc_id c;
     bc_userId := bc_userId c;
     bc_publicKey := "";
     bc_credentialId := bc_credentialId c;
     bc_counter := bc_counter c;
     bc_createdAt := bc_createdAt c;
     bc_lastUsed := bc_lastUsed c;
     bc_deviceInfo := bc_deviceInfo c |}.

Definition blank_json (j : Json) : Json :=
  match j with
  | Credentials l => Credentials (blank_credential <$> l)
  | _ => j
  end.

Definition blank_response (r : Response Json) : Response Json :=
  json (blank_json (body r)) (status r).

Lemma filter_imap_blank (P : Data → bool) (g : nat → nat) (store : Store) :
  (∀ x, P (blank_key x) = P x) →
  filter (fun d : nat * (string * Data) => P d.2.2)
    (imap (fun i d => (g i, d)) (blank_keys store))
  = (fun d : nat * (string * Data) => (d.1, (d.2.1, blank_key d.2.2)))
      <$> filter (fun d : nat * (string * Data) => P d.2.2)
            (imap (fun i d => (g i, d)) store).
Proof.
  intros HP. revert g. induction store as [|d store IH]; intros g; [done|].
  unfold blank_keys in *. rewrite fmap_cons, !imap_cons.
  specialize (IH (g ∘ S)).
  destruct (decide (P d.2)) as [Hp|Hp].
  - rewrite !filter_cons_True; [|done|by simpl; rewrite HP].
    rewrite fmap_cons. f_equal. apply IH.
  - rewrite !filter_cons_False; [|done|by simpl; rewrite HP]. apply IH.
Qed.

Lemma getDocs_blank (P : Data → bool) (store : Store) :
  (∀ x, P (blank_key x) = P x) →
  ∃ snapshot,
    Firestore.getDocs P store = Ok snapshot
    ∧ Firestore.getDocs P (blank_keys store)
      = Ok ((fun d : nat * (string * Data) => (d.1, (d.2.1, blank_key d.2.2))) <$> snapshot).
Proof.
  intros HP. eexists. split; [done|]. unfold Firestore.getDocs. f_equal.
  by apply (filter_imap_blank P id).
Qed.

Lemma GET_blank (now : Z) (u c : option string) (store : Store) :
  GET now u c (blank_keys store) = (blank_response (GET now u c store).1, blank_keys store)
  ∧ (GET now u c store).2 = store.
Proof.
  unfold GET.
  destruct (negb (JS.truthy_opt u) && negb (JS.truthy_opt c)); [done|].
  destruct (getDocs_blank (credentialsQuery u c) store) as (snapshot & -> & ->).
  { intros x. unfold credentialsQuery. by destruct (JS.truthy_opt c). }
  simpl. split; [|done]. unfold blank_response. simpl. do 3 f_equal.
  rewrite <- !list_fmap_compose. by apply list_fmap_ext.
Qed.

Lemma PUT_blank (now : Z) (b : PutBody) (store : Store) :
  PUT now b (blank_keys store) = ((PUT now b store).1, blank_keys (PUT now b store).2).
Proof.
  unfold PUT. destruct (put_counter b) as [k|]; [|done].
  destruct (negb (JS.truthy_opt (put_credentialId b))); [done|].
  destruct (getDocs_blank
              (fun d => bool_decide (Some (credentialId d) = put_credentialId b)) store)
    as (snapshot & -> & ->); [done|].
  destruct snapshot as [|d snapshot]; [done|]. simpl.
  unfold Firestore.updateDoc, or_500. simpl. do 2 f_equal.
  unfold blank_keys. symmetry. apply list_fmap_alter.
  apply Forall_forall. intros x _. done.
Qed.

(** *** A relational reading of the client code

    [sim R m1 m2]: run on a world with blanked keys, [m1] ends as [m2] does
    on the world itself: both throw the same message or return values
    related by [R], and the final world of [m1] is the blanked final world
    of [m2]. *)

Definition rel_result {A B} (R : A → B → Prop) (r1 : result A) (r2 : result B) : Prop :=
  match r1, r2 with
  | Ok a, Ok b => R a b
  | Throw e1, Throw e2 => e1 = e2
  | _, _ => False
  end.

Definition sim {A B} (R : A → B → Prop) (m1 : M A) (m2 : M B) : Prop :=
  ∀ w, rel_result R (m1 (blank_world w)).1 (m2 w).1
       ∧ (m1 (blank_world w)).2 = blank_world (m2 w).2.

Lemma sim_ret {A B} (R : A → B → Prop) (a : A) (b : B) : R a b → sim R (mret a) (mret b).
Proof. by intros HR w. Qed.

Lemma sim_throw {A B} (R : A → B → Prop) (e : string) : sim R (throw e) (throw e).
Proof. by intros w. Qed.

Lemma sim_lift {A B} (R : A → B → Prop) (r1 : result A) (r2 : result B) :
  rel_result R r1 r2 → sim R (lift r1) (lift r2).
Proof. by intros HR w. Qed.

Lemma rel_result_eq {A} (r : result A) : rel_result eq r r.
Proof. by destruct r. Qed.

Lemma rel_result_eq_inv {A} (r1 r2 r : result A) :
  rel_result eq r r1 → rel_result eq r r2 → r1 = r2.
Proof. destruct r, r1, r2; simpl; intros; by simplify_eq. Qed.

Lemma sim_bind {A1 A2 B1 B2} (R : A1 → A2 → Prop) (S : B1 → B2 → Prop)
    (m1 : M A1) (m2 : M A2) (f1 : A1 → M B1) (f2 : A2 → M B2) :
  sim R m1 m2 → (∀ a1 a2, R a1 a2 → sim S (f1 a1) (f2 a2)) →
  sim S (m1 ≫= f1) (m2 ≫= f2).
Proof.
  intros Hm Hf w. unfold mbind, M_bind. destruct (Hm w) as [Hr Hw].
  destruct (m1 (blank_world w)) as [[a1|e1] w1], (m2 w) as [[a2|e2] w2];
    simpl in *; try done; subst w1.
  apply (Hf a1 a2 Hr w2).
Qed.

Lemma sim_catch {A B} (R : A → B → Prop) (m1 : M A) (m2 : M B)
    (h1 : string → M A) (h2 : string → M B) :
  sim R m1 m2 → (∀ e, sim R (h1 e) (h2 e)) → sim R (catch m1 h1) (catch m2 h2).
Proof.
  intros Hm Hh w. unfold catch. destruct (Hm w) as [Hr Hw].
  destruct (m1 (blank_world w)) as [[a1|e1] w1], (m2 w) as [[a2|e2] w2];
    simpl in *; try done; subst.
  apply (Hh e2 w2).
Qed.

Lemma sim_get : sim (fun w1 w2 => w1 = blank_world w2) get get.
Proof. by intros w. Qed.

Lemma sim_initialized : sim eq (modify (with_isInitialized true)) (modify (with_isInitialized true)).
Proof. by intros w. Qed.

Lemma sim_fetch_GET (now : Z) (u c : option string) :
  sim (fun r1 r2 => r1 = blank_response r2)
    (fetch_credentials (GET now u c)) (fetch_credentials (GET now u c)).
Proof.
  intros w. unfold fetch_credentials. simpl.
  destruct (GET_blank now u c (biometricCredentials w)) as [-> Hs].
  destruct (GET now u c (biometricCredentials w)) as [r s]. simpl in *. by subst s.
Qed.

Lemma sim_fetch_PUT (now : Z) (b : PutBody) :
  sim eq (fetch_credentials (PUT now b)) (fetch_credentials (PUT now b)).
Proof.
  intros w. unfold fetch_credentials. simpl. rewrite PUT_blank.
  by destruct (PUT now b (biometricCredentials w)).
Qed.

Lemma first_credential_blank (j : Json) :
  rel_result (fun c1 c2 => c1 = blank_credential c2)
    (BiometricAuthClient.first_credential (blank_json j))
    (BiometricAuthClient.first_credential j).
Proof. destruct j as [e|[|c l]|i m|m|n]; done. Qed.

Lemma sim_client_authenticateUser (env : Env) :
  sim eq (BiometricAuthClient.authenticateUser env) (BiometricAuthClient.authenticateUser env).
Proof.
  unfold BiometricAuthClient.authenticateUser.
  apply sim_catch; [|intros e; by apply sim_ret].
  destruct (PublicKeyCredential env); simpl; [|apply sim_throw].
  eapply sim_bind; [apply sim_lift, rel_result_eq|]. intros ? credential ->.
  destruct credential as [credential|]; [|apply sim_throw].
  eapply sim_bind; [apply sim_fetch_GET|]. intros ? r ->.
  change (ok (blank_response r)) with (ok r).
  destruct (ok r); simpl; [|apply sim_throw].
  eapply sim_bind; [apply sim_lift, first_credential_blank|]. intros ? c ->.
  eapply sim_bind; [apply sim_fetch_PUT|]. intros ? ? _.
  by apply sim_ret.
Qed.

Lemma sim_isBiometricAvailable (env : Env) :
  sim eq (BiometricAuthClient.isBiometricAvailable env)
    (BiometricAuthClient.isBiometricAvailable env).
Proof.
  unfold BiometricAuthClient.isBiometricAvailable.
  apply sim_catch; [|intros e; by apply sim_ret].
  destruct (PublicKeyCredential env); simpl; [|by apply sim_ret].
  apply sim_lift, rel_result_eq.
Qed.

Lemma sim_initialize (env : Env) :
  sim eq (BiometricAuthServer.initialize env) (BiometricAuthServer.initialize env).
Proof.
  unfold BiometricAuthServer.initialize.
  destruct (PublicKeyCredential env); simpl; [|apply sim_throw].
  eapply sim_bind; [apply sim_isBiometricAvailable|]. intros ? available ->.
  destruct available; simpl; [apply sim_initialized|apply sim_throw].
Qed.

Lemma sim_server_authenticateUser (env : Env) :
  sim eq (BiometricAuthServer.authenticateUser env) (BiometricAuthServer.authenticateUser env).
Proof.
  unfold BiometricAuthServer.authenticateUser.
  eapply sim_bind; [apply sim_get|]. intros ? w ->.
  change (isInitialized (blank_world w)) with (isInitialized w).
  eapply sim_bind with (R := eq).
  { destruct (isInitialized w); simpl; [by apply sim_ret|apply sim_initialize]. }
  intros _ _ _.
  apply sim_catch; [|intros e; by apply sim_ret].
  eapply sim_bind; [apply sim_lift, rel_result_eq|]. intros ? credential ->.
  destruct credential as [credential|]; [|apply sim_throw].
  eapply sim_bind; [apply sim_fetch_GET|]. intros ? r ->.
  change (ok (blank_response r)) with (ok r).
  destruct (ok r); simpl; [|apply sim_throw].
  eapply sim_bind; [apply sim_lift, first_credential_blank|]. intros ? c ->.
  eapply sim_bind; [apply sim_lift, rel_result_eq|]. intros ? element ->.
  eapply sim_bind; [apply sim_fetch_PUT|]. intros ? ? _.
  by apply sim_ret.
Qed.

(** Two runs from worlds with the same blanked image end alike. *)
Lemma sim_two_runs {A} (m : M A) (w1 w2 : World) :
  sim eq m m → blank_world w1 = blank_world w2 →
  (m w1).1 = (m w2).1 ∧ blank_world (m w1).2 = blank_world (m w2).2.
Proof.
  intros Hm Hw. destruct (Hm w1) as [Hr1 Hw1], (Hm w2) as [Hr2 Hw2].
  rewrite Hw in Hr1, Hw1. split.
  - by eapply rel_result_eq_inv.
  - by rewrite <- Hw1, <- Hw2.
Qed.

(** C1: the outcome of a verification is independent of the stored public
    keys.  Two runs, of the client [authenticateUser] or of the one of
    [biometricAuthServer], in the same surroundings and on worlds that
    differ in [publicKey] fields only, return the same result, and leave
    worlds that again differ in [publicKey] fields only. *)
Theorem C1_outcome_independent_of_publicKey (env : Env) (w1 w2 : World) :
  blank_world w1 = blank_world w2 →
  ((BiometricAuthClient.authenticateUser env w1).1
     = (BiometricAuthClient.authenticateUser env w2).1
   ∧ blank_world (BiometricAuthClient.authenticateUser env w1).2
     = blank_world (BiometricAuthClient.authenticateUser env w2).2)
  ∧ ((BiometricAuthServer.authenticateUser env w1).1
       = (BiometricAuthServer.authenticateUser env w2).1
     ∧ blank_world (BiometricAuthServer.authenticateUser env w1).2
       = blank_world (BiometricAuthServer.authenticateUser env w2).2).
Proof.
  intros Hw. split.
  - by apply sim_two_runs; [apply sim_client_authenticateUser|].
  - by apply sim_two_runs; [apply sim_server_authenticateUser|].
Qed.

End PublicKeyFacts.

(** ** Verification against the credential store *)

Module VerificationFacts.
Import Http World Browser.
Import BiometricCredentialsFacts.

(** Two worlds used to run the definitions: the store of [store_u1] with
    two different public keys, nobody signed in. *)
Definition world_of (store : BiometricCredentials.Store) : World :=
  {| biometricCredentials := store;
     securityLogs := [];
     users := ∅;
     isInitialized := true;
     user := None;
     userProfile := None;
     loading := false |}.

Definition store_u1_other_key : BiometricCredentials.Store :=
  [("doc1", {| BiometricCredentials.userId := "u1";
               BiometricCredentials.publicKey := "b3RoZXI=";
               BiometricCredentials.credentialId := "AQID";
               BiometricCredentials.counter := 0;
               BiometricCredentials.deviceInfo := None;
               BiometricCredentials.createdAt := Some 5;
               BiometricCredentials.lastUsed := None |})].

(** A browser in which the authenticator answers with the credential whose
    raw identifier is the bytes 1, 2, 3 (base64url [AQID]). *)
Definition env_123 : Env :=
  {| PublicKeyCredential := true;
     isUserVerifyingPlatformAuthenticatorAvailable := Ok true;
     credentials_create := Ok None;
     credentials_get := Ok (Some {| rawId := [x01; x02; x03]; signature := [] |});
     userAgent := "Mozilla/5.0";
     now := 1000;
     fresh := "doc9";
     addDoc_securityLogs := fun _ => Ok tt |}.

Lemma with_same_credentials (w : World) :
  with_biometricCredentials (biometricCredentials w) w = w.
Proof. by destruct w. Qed.

(** [isBiometricAvailable] as a value. *)
Definition available (env : Env) : bool :=
  PublicKeyCredential env
  && match isUserVerifyingPlatformAuthenticatorAvailable env with
     | Ok b => b
     | Throw _ => false
     end.

Lemma isBiometricAvailable_run (env : Env) (w : World) :
  BiometricAuthClient.isBiometricAvailable env w = (Ok (available env), w).
Proof.
  unfold BiometricAuthClient.isBiometricAvailable, available, catch, lift.
  destruct (PublicKeyCredential env); [|done]. simpl.
  by destruct (isUserVerifyingPlatformAuthenticatorAvailable env).
Qed.

Section Ceremony.
Variables (env : Env) (w : World) (credential : Assertion).
Hypothesis supported : PublicKeyCredential env = true.
Hypothesis answered : credentials_get env = Ok (Some credential).

Variable C : string.
Hypothesis identifier : BiometricAuthClient.arrayBufferToBase64url (rawId credential) = C.

Lemma query_of_C : JS.url_query_value C = C.
Proof. rewrite <- identifier. apply Base64Facts.credentialId_in_query. Qed.

(** The verification up to the parsed answer of the lookup. *)
Lemma authenticateUser_lookup :
  C ≠ "" →
  BiometricAuthClient.authenticateUser env w =
    match filter (fun d : string * BiometricCredentials.Data =>
                    BiometricCredentials.credentialId d.2 = C) (biometricCredentials w) with
    | [] =>
        (Ok {| Types.success := false; Types.credentialId := None; Types.userId := None;
               Types.error := Some "No user found for this biometric credential" |}, w)
    | d :: _ =>
        (Ok {| Types.success := true; Types.credentialId := Some C;
               Types.userId := Some (BiometricCredentials.userId d.2);
               Types.error := None |},
         with_biometricCredentials
           (BiometricCredentials.PUT (now env)
              {| BiometricCredentials.put_credentialId := Some C;
                 BiometricCredentials.put_counter := Some 0 |}
              (biometricCredentials w)).2 w)
    end.
Proof.
  intros HC. unfold BiometricAuthClient.authenticateUser, catch.
  rewrite supported. simpl. unfold mbind, M_bind, lift. rewrite answered.
  rewrite identifier, query_of_C.
  unfold fetch_credentials at 1.
  rewrite (GET_by_credentialId (now env) C (biometricCredentials w) HC).
  rewrite with_same_credentials. simpl.
  destruct (filter _ (biometricCredentials w)) as [|d l]; simpl; [done|].
  unfold fetch_credentials.
  by destruct (BiometricCredentials.PUT _ _ _).
Qed.

Lemma authenticateUser_empty_id :
  C = "" →
  BiometricAuthClient.authenticateUser env w =
    (Ok {| Types.success := false; Types.credentialId := None; Types.userId := None;
           Types.error := Some "Failed to lookup credential" |}, w).
Proof.
  intros HC. unfold BiometricAuthClient.authenticateUser, catch.
  rewrite supported. simpl. unfold mbind, M_bind, lift. rewrite answered.
  rewrite identifier, HC. simpl. unfold fetch_credentials. simpl.
  by rewrite with_same_credentials.
Qed.

End Ceremony.

(** C2: when the store holds a record with credential identifier [C] and
    user [U], and no other record has the identifier [C], a verification
    whose assertion ceremony returns the identifier [C] returns
    [{success: true, userId: U, credentialId: C}].  Store states are those
    [POST] builds: every stored identifier is a non-empty string. *)
Theorem C2_resolves_to_the_owner
    (env : Env) (w : World) (credential : Assertion) (C U : string)
    (record : string * BiometricCredentials.Data) :
  PublicKeyCredential env = true →
  credentials_get env = Ok (Some credential) →
  BiometricAuthClient.arrayBufferToBase64url (rawId credential) = C →
  BiometricCredentials.stored_by_POST (biometricCredentials w) = true →
  record ∈ biometricCredentials w →
  BiometricCredentials.credentialId record.2 = C →
  BiometricCredentials.userId record.2 = U →
  (∀ other, other ∈ biometricCredentials w →
            BiometricCredentials.credentialId other.2 = C → other = record) →
  (BiometricAuthClient.authenticateUser env w).1 =
    Ok {| Types.success := true; Types.credentialId := Some C;
          Types.userId := Some U; Types.error := None |}.
Proof.
  intros Hs Ha HC Hst Hin Hc Hu Huniq.
  assert (C ≠ "") as Hne.
  { rewrite <- Hc. by eapply stored_by_POST_nonempty. }
  rewrite (authenticateUser_lookup env w credential Hs Ha C HC Hne).
  destruct (filter _ (biometricCredentials w)) as [|d l] eqn:Hf.
  - assert (record ∈ filter (fun d : string * BiometricCredentials.Data =>
                               BiometricCredentials.credentialId d.2 = C)
                        (biometricCredentials w)) as Hr
      by by apply list_elem_of_filter.
    rewrite Hf in Hr. by apply elem_of_nil in Hr.
  - assert (d ∈ filter (fun d : string * BiometricCredentials.Data =>
                          BiometricCredentials.credentialId d.2 = C)
                   (biometricCredentials w)) as Hd
      by (rewrite Hf; apply list_elem_of_here).
    apply list_elem_of_filter in Hd as [Hd1 Hd2].
    rewrite (Huniq d Hd2 Hd1). simpl. by rewrite Hu.
Qed.

Lemma C2_resolves_to_the_owner_witness :
  (BiometricAuthClient.authenticateUser env_123 (world_of store_u1)).1 =
    Ok {| Types.success := true; Types.credentialId := Some "AQID";
          Types.userId := Some "u1"; Types.error := None |}.
Proof.
  apply (C2_resolves_to_the_owner env_123 (world_of store_u1)
           {| rawId := [x01; x02; x03]; signature := [] |} "AQID" "u1"
           ("doc1", {| BiometricCredentials.userId := "u1";
                       BiometricCredentials.publicKey := "cGs=";
                       BiometricCredentials.credentialId := "AQID";
                       BiometricCredentials.counter := 0;
                       BiometricCredentials.deviceInfo := None;
                       BiometricCredentials.createdAt := Some 5;
                       BiometricCredentials.lastUsed := None |}));
    try reflexivity.
  - apply list_elem_of_here.
  - intros other Hother _. by apply list_elem_of_singleton in Hother.
Defined.

Lemma C1_outcome_independent_of_publicKey_witness :
  ((BiometricAuthClient.authenticateUser env_123 (world_of store_u1)).1
     = (BiometricAuthClient.authenticateUser env_123 (world_of store_u1_other_key)).1
   ∧ PublicKeyFacts.blank_world
       (BiometricAuthClient.authenticateUser env_123 (world_of store_u1)).2
     = PublicKeyFacts.blank_world
         (BiometricAuthClient.authenticateUser env_123 (world_of store_u1_other_key)).2)
  ∧ ((BiometricAuthServer.authenticateUser env_123 (world_of store_u1)).1
       = (BiometricAuthServer.authenticateUser env_123 (world_of store_u1_other_key)).1
     ∧ PublicKeyFacts.blank_world
         (BiometricAuthServer.authenticateUser env_123 (world_of store_u1)).2
       = PublicKeyFacts.blank_world
           (BiometricAuthServer.authenticateUser env_123 (world_of store_u1_other_key)).2).
Proof.
  apply (PublicKeyFacts.C1_outcome_independent_of_publicKey env_123
           (world_of store_u1) (world_of store_u1_other_key)).
  reflexivity.
Defined.

End VerificationFacts.

(** ** Sessions and audit events *)

Module AuthContextFacts.
Import Http World Browser AuthContext.
Import BiometricCredentialsFacts VerificationFacts.

(** *** What a computation does to the audit log *)

(** [quiet m]: [m] writes no audit event. *)
Definition quiet {A} (m : M A) : Prop :=
  ∀ w, securityLogs (m w).2 = securityLogs w.

Lemma quiet_ret {A} (a : A) : quiet (mret a).
Proof. by intros w. Qed.

Lemma quiet_throw {A} (e : string) : quiet (@throw A e).
Proof. by intros w. Qed.

Lemma quiet_lift {A} (r : result A) : quiet (lift r).
Proof. by intros w. Qed.

Lemma quiet_get : quiet get.
Proof. by intros w. Qed.

Lemma quiet_bind {A B} (m : M A) (f : A → M B) :
  quiet m → (∀ a, quiet (f a)) → quiet (m ≫= f).
Proof.
  intros Hm Hf w. unfold mbind, M_bind. specialize (Hm w).
  destruct (m w) as [[a|e] w']; simpl in *; [|done].
  by rewrite Hf.
Qed.

Lemma quiet_catch {A} (m : M A) (h : string → M A) :
  quiet m → (∀ e, quiet (h e)) → quiet (catch m h).
Proof.
  intros Hm Hh w. unfold catch. specialize (Hm w).
  destruct (m w) as [[a|e] w']; simpl in *; [done|].
  by rewrite Hh.
Qed.

Lemma quiet_modify (f : World → World) :
  (∀ w, securityLogs (f w) = securityLogs w) → quiet (modify f).
Proof. intros Hf w. apply Hf. Qed.

Lemma quiet_fetch_credentials {J}
    (route : BiometricCredentials.Store → Response J * BiometricCredentials.Store) :
  quiet (fetch_credentials route).
Proof. intros w. unfold fetch_credentials. by destruct (route _). Qed.

Create HintDb quiet.
#[export] Hint Resolve quiet_ret quiet_throw quiet_lift quiet_get
  quiet_fetch_credentials : quiet.

(** Walk through a computation built from the combinators above. *)
Ltac quiet_steps :=
  repeat first
    [ progress intros
    | solve [auto with quiet]
    | apply quiet_bind
    | apply quiet_catch
    | apply quiet_modify; reflexivity
    | match goal with
      | |- quiet (if ?b then _ else _) => destruct b
      | |- quiet (match ?x with _ => _ end) => destruct x
      end ].

Lemma quiet_isBiometricAvailable (env : Env) :
  quiet (BiometricAuthClient.isBiometricAvailable env).
Proof. unfold BiometricAuthClient.isBiometricAvailable. quiet_steps. Qed.

Lemma quiet_authenticateUser (env : Env) : quiet (BiometricAuthClient.authenticateUser env).
Proof. unfold BiometricAuthClient.authenticateUser. quiet_steps. Qed.

Lemma quiet_registerBiometric (env : Env) (u n d : string) :
  quiet (BiometricAuthClient.registerBiometric env u n d).
Proof. unfold BiometricAuthClient.registerBiometric. quiet_steps. Qed.

Lemma quiet_getUserProfile (env : Env) (u : string) : quiet (getUserProfile env u).
Proof. unfold getUserProfile. quiet_steps. Qed.

Lemma quiet_createUserProfile (env : Env) (u : Types.User) : quiet (createUserProfile env u).
Proof. unfold createUserProfile. quiet_steps. Qed.

Lemma quiet_updateDoc_users (u : string) (c : option string) : quiet (updateDoc_users u c).
Proof. unfold updateDoc_users. quiet_steps. Qed.

#[export] Hint Resolve quiet_isBiometricAvailable quiet_authenticateUser
  quiet_registerBiometric quiet_getUserProfile quiet_createUserProfile
  quiet_updateDoc_users : quiet.

(** The event [logSecurityEvent] writes. *)
Definition event (env : Env) (self : Render) (action' method' : string)
    (success' : bool) (details' : option string) : SecurityLogs.Data :=
  {| SecurityLogs.userId := JS.or_else (Types.uid <$> render_user self) "anonymous";
     SecurityLogs.action := action';
     SecurityLogs.method := method';
     SecurityLogs.success := success';
     SecurityLogs.ipAddress := "unknown";
     SecurityLogs.userAgent := JS.or_else (Some (userAgent env)) "unknown";
     SecurityLogs.location := None;
     SecurityLogs.details := details';
     SecurityLogs.timestamp := Some (now env) |}.

(** The documents the write of the event [ev] leaves in the log: the
    event, or nothing when Firestore refuses the write. *)
Definition accepted (env : Env) (ev : SecurityLogs.Data) : bool :=
  match addDoc_securityLogs env ev with
  | Ok _ => true
  | Throw _ => false
  end.

Definition stored (env : Env) (ev : SecurityLogs.Data) : SecurityLogs.Store :=
  if accepted env ev then [(fresh env, ev)] else [].

Lemma stored_events (env : Env) (ev : SecurityLogs.Data) :
  (stored env ev).*2 = filter (fun ev => accepted env ev = true) [ev].
Proof.
  unfold stored. destruct (accepted env ev) eqn:H.
  - by rewrite filter_cons_True.
  - rewrite filter_cons_False; [done|]. by rewrite H.
Qed.

Lemma with_same_securityLogs (w : World) : with_securityLogs (securityLogs w) w = w.
Proof. by destruct w. Qed.

Lemma logSecurityEvent_run (env : Env) (self : Render) (a m : string) (s : bool)
    (d : option string) (w : World) :
  logSecurityEvent env self a m s d w =
    (Ok tt, with_securityLogs (securityLogs w ++ stored env (event env self a m s d)) w).
Proof.
  unfold logSecurityEvent, stored, accepted, catch, mbind, M_bind, get, lift.
  fold (event env self a m s d).
  destruct (addDoc_securityLogs env (event env self a m s d)) as [[]|e]; simpl; [done|].
  by rewrite app_nil_r, with_same_securityLogs.
Qed.

(** [one_event env b l l']: [l'] is [l] and one more event, whose success
    flag is [b]. *)
Definition one_event (env : Env) (b : bool) (l l' : SecurityLogs.Store) : Prop :=
  ∃ ev, SecurityLogs.success ev = b ∧ l' = l ++ [(fresh env, ev)].

(** [one_write env b l l']: one audit event, whose success flag is [b],
    was handed to Firestore, and [l'] is what that made of the log [l]:
    [l] and the event when Firestore accepted the write, [l] itself when
    Firestore refused it. *)
Definition one_write (env : Env) (b : bool) (l l' : SecurityLogs.Store) : Prop :=
  ∃ ev, SecurityLogs.success ev = b ∧ l' = l ++ stored env ev.









(** When Firestore accepts the write, one write is one event; when it
    refuses every write, the log stays as it was. *)
Lemma one_write_accepted (env : Env) (b : bool) (l l' : SecurityLogs.Store) :
  (∀ ev, addDoc_securityLogs env ev = Ok tt) → one_write env b l l' → one_event env b l l'.
Proof.
  intros Hok (ev & Hb & ->). exists ev. split; [done|]. unfold stored, accepted.
  by rewrite Hok.
Qed.

Lemma one_write_refused (env : Env) (b : bool) (l l' : SecurityLogs.Store) :
  (∀ ev, ∃ e, addDoc_securityLogs env ev = Throw e) → one_write env b l l' → l' = l.
Proof.
  intros Hno (ev & Hb & ->). unfold stored, accepted. destruct (Hno ev) as [e ->].
  apply app_nil_r.
Qed.


(** Somebody signed in as [u1], nobody, and a login route that knows
    nobody. *)
Definition render_u1 : Render :=
  {| render_user := Some {| Types.uid := "u1"; Types.email := Some "u1@example.org";
                            Types.displayName := None; Types.photoURL := None;
                            Types.providerId := "password"; Types.creationTime := 1;
                            Types.lastSignInTime := 2 |};
     render_userProfile := None |}.

Definition render_nobody : Render :=
  {| render_user := None; render_userProfile := None |}.

(** Somebody signed in through Google as [u2], with a photo. *)
Definition user_u2 : Types.User :=
  {| Types.uid := "u2"; Types.email := Some "u2@example.org";
     Types.displayName := Some "U Two"; Types.photoURL := Some "https://example.org/u2.png";
     Types.providerId := "google.com"; Types.creationTime := 1;
     Types.lastSignInTime := 2 |}.

Definition render_u2 : Render :=
  {| render_user := Some user_u2; render_userProfile := None |}.

Definition login_404 : BiometricLogin :=
  fun _ => Ok (json (LoginError (Some "User not found")) 404).



(** The browser of [env_123] with a Firestore that refuses every write to
    [securityLogs], as the security rules do for a page on which nobody
    is signed in. *)
Definition env_refused : Env :=
  {| PublicKeyCredential := true;
     isUserVerifyingPlatformAuthenticatorAvailable := Ok true;
     credentials_create := Ok None;
     credentials_get := Ok (Some {| rawId := [x01; x02; x03]; signature := [] |});
     userAgent := "Mozilla/5.0";
     now := 1000;
     fresh := "doc9";
     addDoc_securityLogs := fun _ => Throw "Missing or insufficient permissions." |}.

(** A verification attempt whose audit write is refused: the attempt
    fails as it does otherwise, and no audit event is left. *)
Example refused_write_leaves_no_event :
  (signInWithFace env_refused login_404 render_nobody (world_of store_u1)).1
  = Throw "User not found"
  ∧ (signInWithFace env_123 login_404 render_nobody (world_of store_u1)).1
    = Throw "User not found"
  ∧ securityLogs (signInWithFace env_refused login_404 render_nobody (world_of store_u1)).2
    = []
  ∧ (securityLogs (signInWithFace env_123 login_404 render_nobody (world_of store_u1)).2).*2
    = [event env_123 render_nobody "login" "face" false (Some "User not found")].
Proof. repeat split; reflexivity. Qed.

(** *** An unknown credential *)

(** The message of the failed verification: the lookup of an empty
    identifier is refused by the route, that of another finds nothing. *)
Definition lookup_failure (C : string) : string :=
  if JS.truthy C then "No user found for this biometric credential"
  else "Failed to lookup credential".

Lemma lookup_failure_truthy (C : string) : JS.truthy (lookup_failure C) = true.
Proof. unfold lookup_failure. by destruct (JS.truthy C). Qed.

(** C5, as amended: when the assertion ceremony returns a credential
    identifier that no stored record has, [authenticateUser] returns
    [{success: false, error: "No user found for this biometric credential"}]
    (["Failed to lookup credential"] when the identifier is the empty
    string) and leaves the store as it was; [signInWithFace] throws, with
    that message when the platform authenticator is available, and the
    current user and user profile are not set. *)
Theorem C5_unknown_credential_no_session
    (env : Env) (login : BiometricLogin) (self : Render) (w : World)
    (credential : Assertion) :
  PublicKeyCredential env = true →
  credentials_get env = Ok (Some credential) →
  (∀ record, record ∈ biometricCredentials w →
     BiometricCredentials.credentialId record.2
     ≠ BiometricAuthClient.arrayBufferToBase64url (rawId credential)) →
  BiometricAuthClient.authenticateUser env w =
    (Ok {| Types.success := false; Types.credentialId := None; Types.userId := None;
           Types.error :=
             Some (lookup_failure
                     (BiometricAuthClient.arrayBufferToBase64url (rawId credential))) |},
     w)
  ∧ ∃ thrown w',
      signInWithFace env login self w = (Throw thrown, w')
      ∧ user w' = user w ∧ userProfile w' = userProfile w
      ∧ (available env = true →
         thrown = lookup_failure
                    (BiometricAuthClient.arrayBufferToBase64url (rawId credential))).
Proof.
  intros Hs Ha Hnone.
  set (C := BiometricAuthClient.arrayBufferToBase64url (rawId credential)) in *.
  assert (∀ w0, biometricCredentials w0 = biometricCredentials w →
            BiometricAuthClient.authenticateUser env w0 =
              (Ok {| Types.success := false; Types.credentialId := None;
                     Types.userId := None; Types.error := Some (lookup_failure C) |}, w0))
    as Hauth.
  { intros w0 Hw0. unfold lookup_failure. destruct (JS.truthy C) eqn:HC.
    - rewrite (authenticateUser_lookup env w0 credential Hs Ha C eq_refl)
        by by apply EncryptionFacts.truthy_nonempty.
      destruct (filter _ (biometricCredentials w0)) as [|d l] eqn:Hf; [done|].
      assert (d ∈ filter (fun d : string * BiometricCredentials.Data =>
                            BiometricCredentials.credentialId d.2 = C)
                     (biometricCredentials w0)) as Hd
        by (rewrite Hf; apply list_elem_of_here).
      apply list_elem_of_filter in Hd as [Hd1 Hd2]. rewrite Hw0 in Hd2.
      by destruct (Hnone d Hd2).
    - apply (authenticateUser_empty_id env w0 credential Hs Ha C eq_refl).
      by destruct C. }
  split; [by apply Hauth|].
  unfold signInWithFace, finally, catch, mbind, M_bind, modify.
  rewrite isBiometricAvailable_run.
  destruct (available env); cbn [negb].
  - rewrite Hauth by done. cbn [negb Types.success Types.error JS.or_else].
    rewrite lookup_failure_truthy. unfold throw at 1. rewrite logSecurityEvent_run.
    eexists _, _. split; [reflexivity|]. by repeat split.
  - unfold throw at 1. rewrite logSecurityEvent_run.
    eexists _, _. split; [reflexivity|]. by repeat split.
Qed.

(** A browser whose authenticator answers with the bytes 9, 9, 9
    (base64url [CQkJ]), an identifier [store_u1] does not hold. *)
Definition env_999 : Env :=
  {| PublicKeyCredential := true;
     isUserVerifyingPlatformAuthenticatorAvailable := Ok true;
     credentials_create := Ok None;
     credentials_get := Ok (Some {| rawId := [x09; x09; x09]; signature := [] |});
     userAgent := "Mozilla/5.0";
     now := 1000;
     fresh := "doc9";
     addDoc_securityLogs := fun _ => Ok tt |}.

Lemma C5_unknown_credential_no_session_witness :
  BiometricAuthClient.authenticateUser env_999 (world_of store_u1) =
    (Ok {| Types.success := false; Types.credentialId := None; Types.userId := None;
           Types.error :=
             Some (lookup_failure
                     (BiometricAuthClient.arrayBufferToBase64url [x09; x09; x09])) |},
     world_of store_u1)
  ∧ ∃ thrown w',
      signInWithFace env_999 login_404 render_nobody (world_of store_u1) = (Throw thrown, w')
      ∧ user w' = user (world_of store_u1)
      ∧ userProfile w' = userProfile (world_of store_u1)
      ∧ (available env_999 = true →
         thrown = lookup_failure
                    (BiometricAuthClient.arrayBufferToBase64url [x09; x09; x09])).
Proof.
  apply (C5_unknown_credential_no_session env_999 login_404 render_nobody
           (world_of store_u1) {| rawId := [x09; x09; x09]; signature := [] |});
    try reflexivity.
  intros record ->%list_elem_of_singleton. discriminate.
Defined.

(** C5 fails as stated: the error of the result is the message of the
    exception, not the name ["UnknownCredential"]. *)
Lemma C5_error_message_counterexample :
  (∀ record, record ∈ biometricCredentials (world_of store_u1) →
     BiometricCredentials.credentialId record.2 ≠ "CQkJ")
  ∧ BiometricAuthClient.arrayBufferToBase64url [x09; x09; x09] = "CQkJ"
  ∧ (BiometricAuthClient.authenticateUser env_999 (world_of store_u1)).1 =
      Ok {| Types.success := false; Types.credentialId := None; Types.userId := None;
            Types.error := Some "No user found for this biometric credential" |}
  ∧ (BiometricAuthClient.authenticateUser env_999 (world_of store_u1)).1 ≠
      Ok {| Types.success := false; Types.credentialId := None; Types.userId := None;
            Types.error := Some "UnknownCredential" |}.
Proof.
  split; [|split; [reflexivity|split; [reflexivity|discriminate]]].
  intros record ->%list_elem_of_singleton. discriminate.
Qed.

End AuthContextFacts.

(** ** The signature counter *)

Module CounterFacts.
Import Http World Browser.
Import BiometricCredentialsFacts VerificationFacts.

(** The credential of [store_u1] with the counter at 5, as a [POST] with
    [counter: 5] stores it. *)
Definition store_counter_5 : BiometricCredentials.Store :=
  [("doc1", {| BiometricCredentials.userId := "u1";
               BiometricCredentials.publicKey := "cGs=";
               BiometricCredentials.credentialId := "AQID";
               BiometricCredentials.counter := 5;
               BiometricCredentials.deviceInfo := None;
               BiometricCredentials.createdAt := Some 5;
               BiometricCredentials.lastUsed := None |})].

(** An assertion for the credential [AQID] whose signature has the bytes
    [k, 0, 0, 0] at offsets 33 to 36. *)
Definition env_signed (k : byte) : Env :=
  {| PublicKeyCredential := true;
     isUserVerifyingPlatformAuthenticatorAvailable := Ok true;
     credentials_create := Ok None;
     credentials_get :=
       Ok (Some {| rawId := [x01; x02; x03];
                   signature := replicate 33 x30 ++ [k; x00; x00; x00] |});
     userAgent := "Mozilla/5.0";
     now := 1000;
     fresh := "doc9";
     addDoc_securityLogs := fun _ => Ok tt |}.

Definition verified : Types.BiometricAuthResult :=
  {| Types.success := true; Types.credentialId := Some "AQID";
     Types.userId := Some "u1"; Types.error := None |}.

(** C6 fails on the code: a successful verification lowers the stored
    counter.  The client verification resets a counter of 5 to 0; two
    successive verifications of [biometricAuthServer] store 7 and then 3,
    the numbers read from the signatures. *)
Theorem C6_counter_decreases :
  (BiometricCredentials.stored_counter "AQID" store_counter_5 = Some 5
   ∧ (BiometricAuthClient.authenticateUser env_123 (world_of store_counter_5)).1 = Ok verified
   ∧ BiometricCredentials.stored_counter "AQID"
       (biometricCredentials
          (BiometricAuthClient.authenticateUser env_123 (world_of store_counter_5)).2)
     = Some 0)
  ∧ ((BiometricAuthServer.authenticateUser (env_signed x07) (world_of store_u1)).1 = Ok verified
     ∧ BiometricCredentials.stored_counter "AQID"
         (biometricCredentials
            (BiometricAuthServer.authenticateUser (env_signed x07) (world_of store_u1)).2)
       = Some 7
     ∧ (BiometricAuthServer.authenticateUser (env_signed x03)
          (BiometricAuthServer.authenticateUser (env_signed x07) (world_of store_u1)).2).1
       = Ok verified
     ∧ BiometricCredentials.stored_counter "AQID"
         (biometricCredentials
            (BiometricAuthServer.authenticateUser (env_signed x03)
               (BiometricAuthServer.authenticateUser (env_signed x07)
                  (world_of store_u1)).2).2)
       = Some 3).
Proof. repeat split; reflexivity. Qed.

End CounterFacts.

(** * Further properties *)

(** ** Decoding base64 *)


Example atob_samples :
  Base64Decode.atob "TWFu" = Ok "Man" ∧ Base64Decode.atob "TWE=" = Ok "Ma"
  ∧ Base64Decode.atob "TQ==" = Ok "M" ∧ Base64Decode.atob "TQ" = Ok "M"
  ∧ Base64Decode.atob " T W E = " = Ok "Ma"
  ∧ (∃ message, Base64Decode.atob "TWE===" = Throw message)
  ∧ (∃ message, Base64Decode.atob "T" = Throw message)
  ∧ (∃ message, Base64Decode.atob "TW-u" = Throw message).
Proof. repeat split; try reflexivity; by eexists. Qed.

Example base64urlToArrayBuffer_samples :
  Base64Decode.base64urlToArrayBuffer "AQID" = Ok [x01; x02; x03]
  ∧ Base64Decode.base64urlToArrayBuffer "AQ" = Ok [x01]
  ∧ ∃ message, Base64Decode.base64urlToArrayBuffer "AQI" = Throw message.
Proof. repeat split; try reflexivity. by eexists. Qed.

Module Base64DecodeFacts.
Import Base64Decode.

Lemma N_of_ascii_lt (a : ascii) : (N_of_ascii a < 256)%N.
Proof. destruct a as [[] [] [] [] [] [] [] []]; vm_compute; reflexivity. Qed.

Lemma b64_value_digit (n : N) : (n < 64)%N → b64_value (JS.b64_digit n) = Some n.
Proof.
  intros Hn.
  assert (forallb (fun k => bool_decide (b64_value (JS.b64_digit (N.of_nat k)) = Some (N.of_nat k)))
            (seq 0 64) = true) as Hall by (vm_compute; reflexivity).
  rewrite forallb_forall in Hall.
  specialize (Hall (N.to_nat n)). rewrite N2Nat.id in Hall.
  assert (In (N.to_nat n) (seq 0 64)) as Hin by (apply in_seq; lia).
  apply Hall in Hin. by apply bool_decide_eq_true in Hin.
Qed.

Lemma b64_digit_not_pad (n : N) : Ascii.eqb (JS.b64_digit n) "=" = false.
Proof.
  pose proof (Base64Facts.b64_digit_char n) as H.
  destruct (N.ltb_spec n 64) as [Hlt|Hge].
  - assert (forallb (fun k => negb (Ascii.eqb (JS.b64_digit (N.of_nat k)) "=")) (seq 0 64) = true)
      as Hall by (vm_compute; reflexivity).
    rewrite forallb_forall in Hall.
    specialize (Hall (N.to_nat n)). rewrite N2Nat.id in Hall.
    apply negb_true_iff, Hall, in_seq. lia.
  - unfold JS.b64_digit.
    rewrite (proj2 (N.ltb_ge n 26)), (proj2 (N.ltb_ge n 52)), (proj2 (N.ltb_ge n 62)) by lia.
    by destruct (n =? 62)%N.
Qed.

Lemma b64_value_pad : b64_value "=" = None.
Proof. reflexivity. Qed.

(** The sextets of one, two or three bytes are below 64, and give the
    bytes back. *)
Local Ltac euclid := intros; zify; Z.to_euclidean_division_equations; lia.

Lemma sextet_1 (x : N) : (x < 256)%N → (x / 4 < 64)%N.
Proof. euclid. Qed.
Lemma sextet_2 (x y : N) : (y < 256)%N → ((x mod 4) * 16 + y / 16 < 64)%N.
Proof. euclid. Qed.
Lemma sextet_2' (x : N) : ((x mod 4) * 16 < 64)%N.
Proof. euclid. Qed.
Lemma sextet_3 (y z : N) : (z < 256)%N → ((y mod 16) * 4 + z / 64 < 64)%N.
Proof. euclid. Qed.
Lemma sextet_3' (y : N) : ((y mod 16) * 4 < 64)%N.
Proof. euclid. Qed.
Lemma sextet_4 (z : N) : (z mod 64 < 64)%N.
Proof. euclid. Qed.

Lemma byte_1 (x y : N) :
  (y < 256)%N → (x / 4 * 4 + ((x mod 4) * 16 + y / 16) / 16 = x)%N.
Proof. euclid. Qed.
Lemma byte_1' (x : N) : (x / 4 * 4 + ((x mod 4) * 16) / 16 = x)%N.
Proof. euclid. Qed.
Lemma byte_2 (x y z : N) :
  (y < 256)%N → (z < 256)%N →
  ((((x mod 4) * 16 + y / 16) mod 16) * 16 + ((y mod 16) * 4 + z / 64) / 4 = y)%N.
Proof. euclid. Qed.
Lemma byte_2' (x y : N) :
  (y < 256)%N → ((((x mod 4) * 16 + y / 16) mod 16) * 16 + ((y mod 16) * 4) / 4 = y)%N.
Proof. euclid. Qed.
Lemma byte_3 (y z : N) :
  (z < 256)%N → ((((y mod 16) * 4 + z / 64) mod 4) * 64 + z mod 64 = z)%N.
Proof. euclid. Qed.

Lemma b64_char_not_whitespace (a : ascii) :
  Base64Facts.b64_char a = true → is_ascii_whitespace a = false.
Proof. destruct a as [[] [] [] [] [] [] [] []]; vm_compute; intros; done. Qed.

Lemma remove_whitespace_id (s : string) :
  JS.all_chars Base64Facts.b64_char s = true → remove_whitespace s = s.
Proof.
  induction s as [|a s IH]; simpl; [done|].
  intros [Ha Hs]%andb_prop. rewrite (b64_char_not_whitespace a Ha). by rewrite IH.
Qed.

Lemma btoa_1 (a : ascii) :
  JS.btoa (String a "") =
    String (JS.b64_digit (N_of_ascii a / 4))
      (String (JS.b64_digit ((N_of_ascii a mod 4) * 16)) "==").
Proof. reflexivity. Qed.

Lemma btoa_2 (a b : ascii) :
  JS.btoa (String a (String b "")) =
    String (JS.b64_digit (N_of_ascii a / 4))
      (String (JS.b64_digit ((N_of_ascii a mod 4) * 16 + N_of_ascii b / 16))
         (String (JS.b64_digit ((N_of_ascii b mod 16) * 4)) "=")).
Proof. reflexivity. Qed.

Lemma btoa_3 (a b c : ascii) (rest : string) :
  JS.btoa (String a (String b (String c rest))) =
    String (JS.b64_digit (N_of_ascii a / 4))
      (String (JS.b64_digit ((N_of_ascii a mod 4) * 16 + N_of_ascii b / 16))
         (String (JS.b64_digit ((N_of_ascii b mod 16) * 4 + N_of_ascii c / 64))
            (String (JS.b64_digit (N_of_ascii c mod 64)) (JS.btoa rest)))).
Proof. reflexivity. Qed.

Lemma length_btoa (s : string) : ∃ k, String.length (JS.btoa s) = (4 * k)%nat.
Proof.
  induction s as [|a|a b|a b c s [k IH]] using Base64Facts.string_ind3.
  - by exists 0%nat.
  - by exists 1%nat.
  - by exists 1%nat.
  - exists (S k). rewrite btoa_3. simpl String.length. rewrite IH. lia.
Qed.

Lemma length_btoa_mod (s : string) : (String.length (JS.btoa s) mod 4 =? 0)%nat = true.
Proof.
  destruct (length_btoa s) as [k ->]. apply Nat.eqb_eq.
  rewrite Nat.mul_comm. apply Nat.Div0.mod_mul.
Qed.

Lemma strip_padding_cons (a : ascii) (s : string) :
  Ascii.eqb a "=" = false → strip_padding (String a s) = String a (strip_padding s).
Proof. intros H. simpl. by rewrite H. Qed.

Lemma decode_2 (a b : ascii) (x y : N) :
  b64_value a = Some x → b64_value b = Some y →
  decode_groups (String a (String b "")) = Some (String (ascii_of_N (x * 4 + y / 16)) "").
Proof. intros Ha Hb. simpl. by rewrite Ha, Hb. Qed.

Lemma decode_3 (a b c : ascii) (x y z : N) :
  b64_value a = Some x → b64_value b = Some y → b64_value c = Some z →
  decode_groups (String a (String b (String c ""))) =
    Some (String (ascii_of_N (x * 4 + y / 16))
            (String (ascii_of_N ((y mod 16) * 16 + z / 4)) "")).
Proof. intros Ha Hb Hc. simpl. by rewrite Ha, Hb, Hc. Qed.

Lemma decode_4 (a b c d : ascii) (rest : string) (x y z t : N) :
  b64_value a = Some x → b64_value b = Some y → b64_value c = Some z →
  b64_value d = Some t →
  decode_groups (String a (String b (String c (String d rest)))) =
    out ← decode_groups rest;
    Some (String (ascii_of_N (x * 4 + y / 16))
            (String (ascii_of_N ((y mod 16) * 16 + z / 4))
               (String (ascii_of_N ((z mod 4) * 64 + t)) out))).
Proof. intros Ha Hb Hc Hd. simpl. by rewrite Ha, Hb, Hc, Hd. Qed.

Lemma decode_4_pad (a b c : ascii) (rest : string) :
  decode_groups (String a (String b (String c (String "=" rest)))) = None.
Proof.
  simpl. destruct (b64_value a); [|done]. destruct (b64_value b); [|done].
  by destruct (b64_value c).
Qed.

Lemma decode_unpadded_btoa (s : string) :
  decode_groups (strip_padding (JS.btoa s)) = Some s.
Proof.
  induction s as [|a|a b|a b c s IH] using Base64Facts.string_ind3.
  - reflexivity.
  - pose proof (N_of_ascii_lt a) as Ha.
    rewrite btoa_1, !strip_padding_cons by apply b64_digit_not_pad.
    change (strip_padding "==") with "".
    erewrite decode_2;
      [|apply b64_value_digit, sextet_1, Ha|apply b64_value_digit, sextet_2'].
    by rewrite byte_1', ascii_N_embedding.
  - pose proof (N_of_ascii_lt a) as Ha. pose proof (N_of_ascii_lt b) as Hb.
    rewrite btoa_2, !strip_padding_cons by apply b64_digit_not_pad.
    change (strip_padding "=") with "".
    erewrite decode_3;
      [|apply b64_value_digit, sextet_1, Ha
       |apply b64_value_digit, sextet_2, Hb
       |apply b64_value_digit, sextet_3'].
    rewrite byte_1, byte_2' by done. by rewrite !ascii_N_embedding.
  - pose proof (N_of_ascii_lt a) as Ha. pose proof (N_of_ascii_lt b) as Hb.
    pose proof (N_of_ascii_lt c) as Hc.
    rewrite btoa_3, !strip_padding_cons by apply b64_digit_not_pad.
    erewrite decode_4;
      [|apply b64_value_digit, sextet_1, Ha
       |apply b64_value_digit, sextet_2, Hb
       |apply b64_value_digit, sextet_3, Hc
       |apply b64_value_digit, sextet_4].
    rewrite IH. simpl.
    rewrite byte_1, byte_2, byte_3 by done. by rewrite !ascii_N_embedding.
Qed.

Lemma atob_btoa (s : string) : atob (JS.btoa s) = Ok s.
Proof.
  unfold atob. rewrite remove_whitespace_id by apply Base64Facts.btoa_chars.
  by rewrite length_btoa_mod, decode_unpadded_btoa.
Qed.

(** *** From bytes to text and back *)

Lemma append_nil_r (s : string) : s +:+ "" = s.
Proof.
  induction s as [|a s IH]; [reflexivity|].
  rewrite EncryptionFacts.append_cons. by rewrite IH.
Qed.

Lemma binary_of_buffer (buffer : list byte) (acc : string) :
  fold_left (fun binary b => binary +:+ String (ascii_of_byte b) EmptyString) buffer acc
  = acc +:+ string_of_list_ascii (ascii_of_byte <$> buffer).
Proof.
  revert acc. induction buffer as [|b buffer IH]; intros acc; simpl fold_left.
  - by rewrite append_nil_r.
  - rewrite IH, EncryptionFacts.append_assoc. by rewrite fmap_cons.
Qed.

Lemma arrayBufferToBase64_btoa (buffer : list byte) :
  BiometricAuthClient.arrayBufferToBase64 buffer
  = JS.btoa (string_of_list_ascii (ascii_of_byte <$> buffer)).
Proof. unfold BiometricAuthClient.arrayBufferToBase64. by rewrite binary_of_buffer. Qed.

Lemma buffer_of_binary (buffer : list byte) :
  byte_of_ascii <$> list_ascii_of_string (string_of_list_ascii (ascii_of_byte <$> buffer))
  = buffer.
Proof.
  rewrite list_ascii_of_string_of_list_ascii, <- list_fmap_compose.
  induction buffer as [|b buffer IH]; [done|].
  rewrite fmap_cons, IH. simpl. by rewrite byte_of_ascii_of_byte.
Qed.

Lemma length_binary (buffer : list byte) :
  String.length (string_of_list_ascii (ascii_of_byte <$> buffer)) = List.length buffer.
Proof. induction buffer as [|b buffer IH]; [done|]. rewrite fmap_cons. simpl. by rewrite IH. Qed.

(** Decoding inverts encoding: [base64ToArrayBuffer(arrayBufferToBase64(b))]
    is [b], for every buffer. *)
Theorem base64_roundtrip (buffer : list byte) :
  base64ToArrayBuffer (BiometricAuthClient.arrayBufferToBase64 buffer) = Ok buffer.
Proof.
  unfold base64ToArrayBuffer. rewrite arrayBufferToBase64_btoa, atob_btoa. simpl.
  by rewrite buffer_of_binary.
Qed.

(** *** The base64url form *)

(** The two character replacements of [arrayBufferToBase64url], on one
    character, and their inverses in [base64urlToArrayBuffer]. *)
Definition to_url (a : ascii) : ascii :=
  if Ascii.eqb a "+" then "-"%char else if Ascii.eqb a "/" then "_"%char else a.

Fixpoint map_chars (f : ascii → ascii) (s : string) : string :=
  match s with
  | EmptyString => EmptyString
  | String a s' => String (f a) (map_chars f s')
  end.

Lemma replace_all_app (c : ascii) (r s t : string) :
  JS.replace_all c r (s +:+ t) = JS.replace_all c r s +:+ JS.replace_all c r t.
Proof.
  induction s as [|a s IH]; [done|].
  rewrite EncryptionFacts.append_cons. simpl. rewrite IH.
  destruct (Ascii.eqb a c); [|done]. by rewrite EncryptionFacts.append_assoc.
Qed.

Lemma to_url_replace (s : string) :
  JS.replace_all "/" "_" (JS.replace_all "+" "-" s) = map_chars to_url s.
Proof.
  induction s as [|a s IH]; [done|]. simpl. unfold to_url.
  destruct (Ascii.eqb a "+") eqn:Hp.
  - change ("-" +:+ JS.replace_all "+" "-" s) with (String "-" (JS.replace_all "+" "-" s)).
    simpl. by rewrite IH.
  - simpl. destruct (Ascii.eqb a "/") eqn:Hs.
    + change ("_" +:+ ?x) with (String "_" x). by rewrite IH.
    + by rewrite IH.
Qed.

Lemma replace_all_cons_ne (c a : ascii) (r s : string) :
  Ascii.eqb a c = false → JS.replace_all c r (String a s) = String a (JS.replace_all c r s).
Proof. intros H. cbn [JS.replace_all]. by rewrite H. Qed.

Lemma replace_all_cons_eq (c : ascii) (r s : string) :
  JS.replace_all c r (String c s) = r +:+ JS.replace_all c r s.
Proof. cbn [JS.replace_all]. by rewrite Ascii.eqb_refl. Qed.

Lemma from_url_replace (s : string) :
  JS.all_chars (fun a => negb (Ascii.eqb a "-") && negb (Ascii.eqb a "_")) s = true →
  JS.replace_all "_" "/" (JS.replace_all "-" "+" (map_chars to_url s)) = s.
Proof.
  induction s as [|a s IH]; [done|]. cbn [JS.all_chars map_chars].
  intros [Ha Hs]%andb_prop. specialize (IH Hs).
  apply andb_prop in Ha as [Hm%negb_true_iff Hu%negb_true_iff].
  unfold to_url at 1.
  destruct (Ascii.eqb_spec a "+") as [->|Hp].
  { rewrite replace_all_cons_eq. change ("+" +:+ ?x) with (String "+" x).
    rewrite replace_all_cons_ne by done. by rewrite IH. }
  destruct (Ascii.eqb_spec a "/") as [->|Hs'].
  { rewrite replace_all_cons_ne by done. rewrite replace_all_cons_eq.
    change ("/" +:+ ?x) with (String "/" x). by rewrite IH. }
  rewrite !replace_all_cons_ne by done. by rewrite IH.
Qed.

(** The characters [btoa] writes, said with the decoder's table. *)
Definition b64_std (a : ascii) : bool :=
  match b64_value a with Some _ => true | None => Ascii.eqb a "=" end.

Lemma b64_digit_std (n : N) : b64_std (JS.b64_digit n) = true.
Proof.
  unfold b64_std. destruct (N.ltb_spec n 64) as [Hlt|Hge].
  - by rewrite b64_value_digit.
  - unfold JS.b64_digit.
    rewrite (proj2 (N.ltb_ge n 26)), (proj2 (N.ltb_ge n 52)), (proj2 (N.ltb_ge n 62)) by lia.
    by destruct (n =? 62)%N.
Qed.

Lemma btoa_std (s : string) : JS.all_chars b64_std (JS.btoa s) = true.
Proof.
  induction s as [|a|a b|a b c s IH] using Base64Facts.string_ind3; simpl;
    rewrite ?b64_digit_std; simpl; done.
Qed.

Lemma b64_std_no_url (a : ascii) :
  b64_std a = true → negb (Ascii.eqb a "-") && negb (Ascii.eqb a "_") = true.
Proof. destruct a as [[] [] [] [] [] [] [] []]; vm_compute; intros; done. Qed.

Lemma all_chars_impl (p q : ascii → bool) (s : string) :
  (∀ a, p a = true → q a = true) → JS.all_chars p s = true → JS.all_chars q s = true.
Proof.
  intros Hpq. induction s as [|a s IH]; simpl; [done|].
  intros [Ha Hs]%andb_prop. by rewrite (Hpq a Ha), IH.
Qed.

Lemma to_url_not_pad (a : ascii) :
  Ascii.eqb a "=" = false → Ascii.eqb (to_url a) "=" = false.
Proof.
  intros H. unfold to_url.
  destruct (Ascii.eqb a "+"); [done|]. by destruct (Ascii.eqb a "/").
Qed.

(** [unpadded s]: the base64 text of [s] without its padding. *)
Definition unpadded (s : string) : string := strip_padding (JS.btoa s).

Lemma unpadded_3 (a b c : ascii) (rest : string) :
  unpadded (String a (String b (String c rest))) =
    String (JS.b64_digit (N_of_ascii a / 4))
      (String (JS.b64_digit ((N_of_ascii a mod 4) * 16 + N_of_ascii b / 16))
         (String (JS.b64_digit ((N_of_ascii b mod 16) * 4 + N_of_ascii c / 64))
            (String (JS.b64_digit (N_of_ascii c mod 64)) (unpadded rest)))).
Proof. unfold unpadded. by rewrite btoa_3, !strip_padding_cons by apply b64_digit_not_pad. Qed.

Lemma unpadded_2 (a b : ascii) :
  unpadded (String a (String b "")) =
    String (JS.b64_digit (N_of_ascii a / 4))
      (String (JS.b64_digit ((N_of_ascii a mod 4) * 16 + N_of_ascii b / 16))
         (String (JS.b64_digit ((N_of_ascii b mod 16) * 4)) "")).
Proof. unfold unpadded. by rewrite btoa_2, !strip_padding_cons by apply b64_digit_not_pad. Qed.

Lemma unpadded_1 (a : ascii) :
  unpadded (String a "") =
    String (JS.b64_digit (N_of_ascii a / 4))
      (String (JS.b64_digit ((N_of_ascii a mod 4) * 16)) "").
Proof. unfold unpadded. by rewrite btoa_1, !strip_padding_cons by apply b64_digit_not_pad. Qed.

Lemma url_form (s : string) :
  JS.replace_all "=" "" (map_chars to_url (JS.btoa s)) = map_chars to_url (unpadded s).
Proof.
  induction s as [|a|a b|a b c s IH] using Base64Facts.string_ind3.
  - reflexivity.
  - rewrite unpadded_1, btoa_1. cbn [map_chars].
    by rewrite !replace_all_cons_ne by apply to_url_not_pad, b64_digit_not_pad.
  - rewrite unpadded_2, btoa_2. cbn [map_chars].
    by rewrite !replace_all_cons_ne by apply to_url_not_pad, b64_digit_not_pad.
  - rewrite unpadded_3, btoa_3. cbn [map_chars].
    rewrite !replace_all_cons_ne by apply to_url_not_pad, b64_digit_not_pad.
    by rewrite IH.
Qed.

Lemma arrayBufferToBase64url_unpadded (buffer : list byte) :
  BiometricAuthClient.arrayBufferToBase64url buffer
  = map_chars to_url (unpadded (string_of_list_ascii (ascii_of_byte <$> buffer))).
Proof.
  unfold BiometricAuthClient.arrayBufferToBase64url.
  by rewrite arrayBufferToBase64_btoa, to_url_replace, url_form.
Qed.

Lemma mod3_SSS (n : nat) : (S (S (S n)) mod 3 = n mod 3)%nat.
Proof. replace (S (S (S n))) with (n + 1 * 3)%nat by lia. apply Nat.Div0.mod_add. Qed.

Lemma mod4_SSSS (n : nat) : (S (S (S (S n))) mod 4 = n mod 4)%nat.
Proof. replace (S (S (S (S n)))) with (n + 1 * 4)%nat by lia. apply Nat.Div0.mod_add. Qed.

(** How much padding [btoa] adds, by the length of the text. *)
Lemma btoa_shape (s : string) :
  match (String.length s mod 3)%nat with
  | 0%nat => JS.btoa s = unpadded s ∧ (String.length (unpadded s) mod 4 = 0)%nat
  | 1%nat => JS.btoa s = unpadded s +:+ "==" ∧ (String.length (unpadded s) mod 4 = 2)%nat
  | _ => JS.btoa s = unpadded s +:+ "=" ∧ (String.length (unpadded s) mod 4 = 3)%nat
  end.
Proof.
  induction s as [|a|a b|a b c s IH] using Base64Facts.string_ind3.
  - done.
  - by rewrite unpadded_1, btoa_1.
  - by rewrite unpadded_2, btoa_2.
  - cbn [String.length]. rewrite mod3_SSS, unpadded_3, btoa_3.
    cbn [String.length]. rewrite mod4_SSSS.
    destruct (String.length s mod 3)%nat as [|[|n]]; destruct IH as [-> IH];
      by rewrite ?EncryptionFacts.append_cons.
Qed.

Lemma length_map_chars (f : ascii → ascii) (s : string) :
  String.length (map_chars f s) = String.length s.
Proof. induction s as [|a s IH]; [done|]. simpl. by rewrite IH. Qed.

Lemma map_chars_app (f : ascii → ascii) (s t : string) :
  map_chars f (s +:+ t) = map_chars f s +:+ map_chars f t.
Proof.
  induction s as [|a s IH]; [done|].
  rewrite EncryptionFacts.append_cons. cbn [map_chars].
  by rewrite IH, EncryptionFacts.append_cons.
Qed.

Lemma string_take_app (s t : string) (k : nat) :
  string_take (String.length s + k) (s +:+ t) = s +:+ string_take k t.
Proof.
  induction s as [|a s IH]; [done|].
  rewrite !EncryptionFacts.append_cons. cbn [String.length Nat.add string_take].
  by rewrite IH.
Qed.

Lemma unpadded_std (s : string) :
  JS.all_chars (fun a => negb (Ascii.eqb a "-") && negb (Ascii.eqb a "_")) (unpadded s) = true.
Proof.
  induction s as [|a|a b|a b c s IH] using Base64Facts.string_ind3.
  - done.
  - rewrite unpadded_1. cbn [JS.all_chars].
    by rewrite !b64_std_no_url by apply b64_digit_std.
  - rewrite unpadded_2. cbn [JS.all_chars].
    by rewrite !b64_std_no_url by apply b64_digit_std.
  - rewrite unpadded_3. cbn [JS.all_chars].
    rewrite !b64_std_no_url by apply b64_digit_std. by rewrite IH.
Qed.

Lemma unpadded_b64_char (s : string) :
  JS.all_chars Base64Facts.b64_char (unpadded s) = true.
Proof.
  induction s as [|a|a b|a b c s IH] using Base64Facts.string_ind3.
  - done.
  - rewrite unpadded_1. cbn [JS.all_chars]. by rewrite !Base64Facts.b64_digit_char.
  - rewrite unpadded_2. cbn [JS.all_chars]. by rewrite !Base64Facts.b64_digit_char.
  - rewrite unpadded_3. cbn [JS.all_chars]. rewrite !Base64Facts.b64_digit_char. by rewrite IH.
Qed.

(** Three [=] after a text of length 2 modulo 3 cannot be decoded. *)
Lemma decode_three_pads (s : string) :
  (String.length s mod 3 = 2)%nat → decode_groups (unpadded s +:+ "===") = None.
Proof.
  induction s as [|a|a b|a b c s IH] using Base64Facts.string_ind3.
  - done.
  - done.
  - intros _. rewrite unpadded_2. rewrite !EncryptionFacts.append_cons.
    change ("" +:+ "===") with (String "=" "==").
    apply decode_4_pad.
  - cbn [String.length]. rewrite mod3_SSS. intros Hs.
    pose proof (N_of_ascii_lt a) as Ha. pose proof (N_of_ascii_lt b) as Hb.
    pose proof (N_of_ascii_lt c) as Hc.
    rewrite unpadded_3, !EncryptionFacts.append_cons.
    erewrite decode_4;
      [|apply b64_value_digit, sextet_1, Ha
       |apply b64_value_digit, sextet_2, Hb
       |apply b64_value_digit, sextet_3, Hc
       |apply b64_value_digit, sextet_4].
    by rewrite IH.
Qed.

Lemma length_app (s t : string) :
  String.length (s +:+ t) = (String.length s + String.length t)%nat.
Proof.
  induction s as [|a s IH]; [done|].
  rewrite EncryptionFacts.append_cons. simpl. by rewrite IH.
Qed.

Lemma base64urlToArrayBuffer_run (buffer : list byte) :
  base64urlToArrayBuffer (BiometricAuthClient.arrayBufferToBase64url buffer) =
    if (List.length buffer mod 3 =? 2)%nat
    then Throw "The string to be decoded is not correctly encoded."
    else Ok buffer.
Proof.
  unfold base64urlToArrayBuffer. rewrite arrayBufferToBase64url_unpadded.
  set (s := string_of_list_ascii (ascii_of_byte <$> buffer)).
  rewrite string_take_app, replace_all_app, replace_all_app, length_map_chars.
  rewrite from_url_replace by apply unpadded_std.
  pose proof (btoa_shape s) as Hshape. rewrite <- (length_binary buffer). fold s.
  destruct (String.length s mod 3)%nat as [|[|[|n]]] eqn:Hmod;
    destruct Hshape as [Hb ->]; cbn [Nat.eqb string_take].
  - change (JS.replace_all _ _ (JS.replace_all _ _ "")) with "".
    rewrite append_nil_r, <- Hb. unfold base64ToArrayBuffer. rewrite atob_btoa. simpl.
    unfold s. by rewrite buffer_of_binary.
  - change (JS.replace_all _ _ (JS.replace_all _ _ "==")) with "==".
    rewrite <- Hb. unfold base64ToArrayBuffer. rewrite atob_btoa. simpl.
    unfold s. by rewrite buffer_of_binary.
  - change (JS.replace_all _ _ (JS.replace_all _ _ "===")) with "===".
    unfold base64ToArrayBuffer, atob.
    rewrite remove_whitespace_id.
    2:{ rewrite Base64Facts.all_chars_app. by rewrite unpadded_b64_char. }
    assert ((String.length (unpadded s +:+ "===") mod 4 =? 0)%nat = false) as ->.
    { rewrite length_app. cbn [String.length].
      destruct (length_btoa s) as [k Hk]. rewrite Hb, length_app in Hk.
      cbn [String.length] in Hk. apply Nat.eqb_neq.
      replace (String.length (unpadded s) + 3)%nat with (2 + (k) * 4)%nat by lia.
      rewrite Nat.Div0.mod_add. done. }
    by rewrite decode_three_pads.
  - exfalso. pose proof (Nat.mod_upper_bound (String.length s) 3). lia.
Qed.

(** [base64urlToArrayBuffer] pads with as many [=] as the length modulo 4,
    which is right for a rest of 0 or 2 characters and one [=] too many
    for a rest of 3: for the identifier of a buffer of length 2 modulo 3
    [atob] throws, whatever the message of its exception, and every other
    identifier gives the buffer back. *)
Theorem base64url_roundtrip_unless_length_2_mod_3 (buffer : list byte) :
  match base64urlToArrayBuffer (BiometricAuthClient.arrayBufferToBase64url buffer) with
  | Ok decoded => decoded = buffer ∧ (List.length buffer mod 3 ≠ 2)%nat
  | Throw _ => (List.length buffer mod 3 = 2)%nat
  end.
Proof.
  rewrite base64urlToArrayBuffer_run.
  destruct (List.length buffer mod 3 =? 2)%nat eqn:H.
  - by apply Nat.eqb_eq.
  - split; [done|]. by apply Nat.eqb_neq.
Qed.

End Base64DecodeFacts.

(** ** More on the credential store route *)

Module CredentialRouteFacts.
Import Http BiometricCredentials.
Import BiometricCredentialsFacts.

(** The snapshot of a query, as [getDocs] builds it. *)
Definition snapshot {D} (P : D → bool) (c : Firestore.Collection D)
  : list (nat * (string * D)) :=
  filter (fun d : nat * (string * D) => P d.2.2) (imap (fun i d => (i, d)) c).

Lemma filter_fmap {A B} (g : A → B) (P : B → Prop) `{!∀ x, Decision (P x)} (l : list A) :
  filter P (g <$> l) = g <$> filter (fun x => P (g x)) l.
Proof.
  induction l as [|x l IH]; [done|].
  rewrite fmap_cons, !filter_cons. destruct (decide (P (g x))); by rewrite IH.
Qed.

Lemma snapshot_cons {D} (P : D → bool) (d : string * D) (c : Firestore.Collection D) :
  snapshot P (d :: c) =
    (if P d.2 then [(0%nat, d)] else [])
    ++ ((fun x : nat * (string * D) => (S x.1, x.2)) <$> snapshot P c).
Proof.
  unfold snapshot. rewrite imap_cons, filter_cons. simpl.
  assert (imap ((fun i (d0 : string * D) => (i, d0)) ∘ S) c
          = (fun x : nat * (string * D) => (S x.1, x.2)) <$> imap (fun i d0 => (i, d0)) c)
    as ->.
  { rewrite fmap_imap. by apply imap_ext. }
  rewrite (filter_fmap _ (fun d0 : nat * (string * D) => P d0.2.2)). simpl.
  by destruct (P d.2).
Qed.

(** What [PUT] writes into the matched document. *)
Definition touched (now k : Z) (d : Data) : Data :=
  {| userId := userId d;
     publicKey := publicKey d;
     credentialId := credentialId d;
     counter := k;
     deviceInfo := deviceInfo d;
     createdAt := createdAt d;
     lastUsed := Some now |}.

(** The store after a [PUT] for [C]: the first document with that
    identifier is touched. *)
Fixpoint touch_first (now k : Z) (C : string) (store : Store) : Store :=
  match store with
  | [] => []
  | d :: rest =>
      if decide (credentialId d.2 = C) then (d.1, touched now k d.2) :: rest
      else d :: touch_first now k C rest
  end.

Lemma credential_PUT_run (now k : Z) (C : string) (store : Store) :
  C ≠ "" →
  PUT now {| put_credentialId := Some C; put_counter := Some k |} store =
    if decide (C ∈ credentialIds store)
    then (json (Message "Credential updated successfully") 200, touch_first now k C store)
    else (json (Error "Credential not found") 404, store).
Proof.
  intros HC. unfold PUT. simpl. rewrite (truthy_true C HC). simpl.
  change (filter _ (imap _ store))
    with (snapshot (fun d => bool_decide (Some (credentialId d) = Some C)) store).
  assert (∀ g : nat → nat, ∀ f : string * Data → string * Data,
    match (fun x : nat * (string * Data) => (g x.1, x.2))
            <$> snapshot (fun d => bool_decide (Some (credentialId d) = Some C)) store with
    | [] => C ∉ credentialIds store
    | x :: _ => C ∈ credentialIds store
                ∧ ∃ i, x.1 = g i
                  ∧ alter (fun d => (d.1, touched now k d.2)) i store
                    = touch_first now k C store
    end) as H.
  { induction store as [|d store IH]; intros g f.
    - simpl. apply not_elem_of_nil.
    - rewrite snapshot_cons. simpl touch_first. unfold credentialIds. rewrite fmap_cons.
      destruct (decide (credentialId d.2 = C)) as [Heq|Hne].
      + rewrite bool_decide_true by by rewrite Heq. simpl.
        split; [rewrite Heq; apply list_elem_of_here|]. by exists 0%nat.
      + rewrite bool_decide_false by (intros [= ?]; done). simpl.
        rewrite <- list_fmap_compose.
        specialize (IH (g ∘ S) f). unfold compose in *.
        destruct (_ <$> snapshot _ store) as [|x l] eqn:Hx.
        * rewrite not_elem_of_cons. split; [done|exact IH].
        * destruct IH as [Hin (i & Hi & Halt)]. split; [by apply list_elem_of_further|].
          exists (S i). split; [done|]. rewrite <- Halt. reflexivity. }
  specialize (H id id).
  assert (∀ l : list (nat * (string * Data)),
            (fun x : nat * (string * Data) => (id x.1, x.2)) <$> l = l) as Hid.
  { intros l. induction l as [|[i d] l IHl]; [done|]. rewrite fmap_cons. by rewrite IHl. }
  rewrite Hid in H. clear Hid.
  destruct (snapshot _ store) as [|x l]; simpl.
  - by rewrite decide_False.
  - destruct H as [Hin (i & -> & Halt)]. rewrite decide_True by done.
    rewrite <- Halt. reflexivity.
Qed.

Lemma touch_first_matching (now k : Z) (C : string) (store : Store) :
  C ∈ credentialIds store →
  ∃ d rest,
    filter (fun d : string * Data => credentialId d.2 = C) store = d :: rest
    ∧ filter (fun d : string * Data => credentialId d.2 = C) (touch_first now k C store)
      = (d.1, touched now k d.2) :: rest.
Proof.
  induction store as [|d store IH]; [by intros ?%elem_of_nil|].
  unfold credentialIds. rewrite fmap_cons. intros Hin. simpl touch_first.
  destruct (decide (credentialId d.2 = C)) as [Heq|Hne].
  - exists d, (filter (fun d : string * Data => credentialId d.2 = C) store).
    by rewrite !filter_cons_True.
  - apply elem_of_cons in Hin as [Hin|Hin]; [done|].
    destruct (IH Hin) as (d' & rest & H1 & H2). exists d', rest.
    by rewrite !filter_cons_False.
Qed.

Lemma touch_first_others (now k : Z) (C : string) (store : Store) :
  filter (fun d : string * Data => credentialId d.2 ≠ C) (touch_first now k C store)
  = filter (fun d : string * Data => credentialId d.2 ≠ C) store
  ∧ List.length (touch_first now k C store) = List.length store.
Proof.
  induction store as [|d store [IH1 IH2]]; [done|]. simpl touch_first.
  destruct (decide (credentialId d.2 = C)) as [Heq|Hne].
  - split; [|done]. by rewrite !filter_cons_False by (simpl; tauto).
  - split; [|simpl; by rewrite IH2]. by rewrite !filter_cons_True, IH1.
Qed.

(** [PUT] for a stored identifier answers 200 and touches the first
    document with that identifier: its counter and [lastUsed] become the
    ones of the request, as the lookup by that identifier then shows; every
    other document, and the number of documents, stay as they were.  For
    an identifier the store does not hold it answers 404 and changes
    nothing. *)
Theorem PUT_touches_one_document (now now' k : Z) (C : string) (store : Store) :
  C ≠ "" →
  let run := PUT now {| put_credentialId := Some C; put_counter := Some k |} store in
  if decide (C ∈ credentialIds store) then
    run.1 = json (Message "Credential updated successfully") 200
    ∧ (∃ d rest,
         filter (fun d : string * Data => credentialId d.2 = C) store = d :: rest
         ∧ (GET now' None (Some C) run.2).1
           = json (Credentials
                     (to_credential now' <$> (d.1, touched now k d.2) :: rest)) 200)
    ∧ filter (fun d : string * Data => credentialId d.2 ≠ C) run.2
      = filter (fun d : string * Data => credentialId d.2 ≠ C) store
    ∧ List.length run.2 = List.length store
  else run = (json (Error "Credential not found") 404, store).
Proof.
  intros HC run. unfold run. rewrite (credential_PUT_run now k C store HC).
  destruct (decide (C ∈ credentialIds store)) as [Hin|Hin]; [|done]. simpl.
  split; [done|]. split; [|apply touch_first_others].
  destruct (touch_first_matching now k C store Hin) as (d & rest & H1 & H2).
  exists d, rest. split; [done|].
  by rewrite (GET_by_credentialId now' C _ HC), H2.
Qed.

Lemma PUT_touches_one_document_witness :
  let run := PUT 77 {| put_credentialId := Some "AQID"; put_counter := Some 4 |} store_u1 in
  if decide ("AQID" ∈ credentialIds store_u1) then
    run.1 = json (Message "Credential updated successfully") 200
    ∧ (∃ d rest,
         filter (fun d : string * Data => credentialId d.2 = "AQID") store_u1 = d :: rest
         ∧ (GET 78 None (Some "AQID") run.2).1
           = json (Credentials
                     (to_credential 78 <$> (d.1, touched 77 4 d.2) :: rest)) 200)
    ∧ filter (fun d : string * Data => credentialId d.2 ≠ "AQID") run.2
      = filter (fun d : string * Data => credentialId d.2 ≠ "AQID") store_u1
    ∧ List.length run.2 = List.length store_u1
  else run = (json (Error "Credential not found") 404, store_u1).
Proof. apply (PUT_touches_one_document 77 78 4 "AQID" store_u1). discriminate. Defined.

(** [GET], case by case. *)
Lemma credential_GET_run (now : Z) (u c : option string) (store : Store) :
  GET now u c store =
    if JS.truthy_opt c then
      (json (Credentials
               (to_credential now
                  <$> filter (fun d : string * Data => Some (credentialId d.2) = c) store)) 200,
       store)
    else if JS.truthy_opt u then
      (json (Credentials
               (to_credential now
                  <$> filter (fun d : string * Data => Some (userId d.2) = u) store)) 200,
       store)
    else (json (Error "Either userId or credentialId is required") 400, store).
Proof.
  unfold GET.
  destruct (FirestoreFacts.getDocs_docs (credentialsQuery u c) store)
    as (snap & Hq & Hdocs).
  rewrite Hq. unfold credentialsQuery in Hdocs.
  destruct (JS.truthy_opt c) eqn:Hc; simpl.
  - rewrite andb_false_r. simpl. unfold or_500. do 3 f_equal.
    trans (to_credential now <$> snap.*2); [by rewrite <- list_fmap_compose|].
    rewrite Hdocs. f_equal.
    apply list_filter_iff. intros d. by rewrite bool_decide_spec.
  - rewrite andb_true_r. destruct (JS.truthy_opt u) eqn:Hu; simpl; [|done].
    unfold or_500. do 3 f_equal.
    trans (to_credential now <$> snap.*2); [by rewrite <- list_fmap_compose|].
    rewrite Hdocs. f_equal.
    apply list_filter_iff. intros d. by rewrite bool_decide_spec.
Qed.

(** [GET] answers with exactly the matching documents, in the order of the
    store, and leaves the store alone; a non-empty [credentialId] decides
    the query whatever [userId] is, a non-empty [userId] decides it
    otherwise, and with neither the answer is 400. *)
Theorem GET_selects (now : Z) (u c : option string) (store : Store) :
  (GET now u c store).2 = store
  ∧ (GET now u c store).1 =
      if JS.truthy_opt c then
        json (Credentials
                (to_credential now
                   <$> filter (fun d : string * Data => Some (credentialId d.2) = c) store))
          200
      else if JS.truthy_opt u then
        json (Credentials
                (to_credential now
                   <$> filter (fun d : string * Data => Some (userId d.2) = u) store)) 200
      else json (Error "Either userId or credentialId is required") 400.
Proof.
  rewrite credential_GET_run. by destruct (JS.truthy_opt c), (JS.truthy_opt u).
Qed.

Lemma filter_removed {A} (P Q : A → Prop)
    `{!∀ x, Decision (P x), !∀ x, Decision (Q x)} (l : list A) :
  (∀ x, P x → Q x) → filter P (filter (fun x => ¬ Q x) l) = [].
Proof.
  intros HP. induction l as [|x l IH]; [done|].
  rewrite (filter_cons (fun x => ¬ Q x)).
  destruct (decide (¬ Q x)) as [Hn|Hn]; [|done].
  rewrite filter_cons. destruct (decide (P x)) as [Hp|Hp]; [|done].
  by destruct (Hn (HP x Hp)).
Qed.

(** [DELETE] for a request with a parameter. *)
Lemma credential_DELETE_run (u c : option string) (store : Store) :
  JS.truthy_opt u || JS.truthy_opt c = true →
  DELETE u c store =
    (json (Deleted (List.length (filter (fun d : string * Data => credentialsQuery u c d.2)
                                   store))) 200,
     filter (fun d : string * Data => ¬ credentialsQuery u c d.2) store).
Proof.
  intros Huc. unfold DELETE.
  destruct (FirestoreFacts.getDocs_docs (credentialsQuery u c) store)
    as (snap & Hq & Hdocs).
  rewrite Hq.
  assert (negb (JS.truthy_opt u) && negb (JS.truthy_opt c) = false) as ->.
  { by destruct (JS.truthy_opt u), (JS.truthy_opt c). }
  simpl. unfold or_500. f_equal.
  - do 2 f_equal. by rewrite <- Hdocs, length_fmap.
  - apply list_filter_iff. intros d. destruct (credentialsQuery u c d.2); simpl; tauto.
Qed.

(** [DELETE] removes exactly the documents its query matches and reports
    their number; the same query finds nothing afterwards, and every other
    document stays, in order. *)
Theorem DELETE_removes_the_matches (now : Z) (u c : option string) (store : Store) :
  JS.truthy_opt u || JS.truthy_opt c = true →
  DELETE u c store =
    (json (Deleted (List.length (filter (fun d : string * Data => credentialsQuery u c d.2)
                                   store))) 200,
     filter (fun d : string * Data => ¬ credentialsQuery u c d.2) store)
  ∧ (GET now u c (DELETE u c store).2).1 = json (Credentials []) 200.
Proof.
  intros Huc. pose proof (credential_DELETE_run u c store Huc) as Hdel.
  split; [done|]. rewrite Hdel. simpl. rewrite credential_GET_run.
  unfold credentialsQuery.
  destruct (JS.truthy_opt c) eqn:Hc; simpl.
  - rewrite filter_removed; [done|]. intros d Hd. by apply bool_decide_pack.
  - simpl in Huc. rewrite orb_false_r in Huc. rewrite Huc.
    rewrite filter_removed; [done|]. intros d Hd. by apply bool_decide_pack.
Qed.

Lemma DELETE_removes_the_matches_witness :
  DELETE (Some "u1") None store_u1 =
    (json (Deleted (List.length
                      (filter (fun d : string * Data => credentialsQuery (Some "u1") None d.2)
                         store_u1))) 200,
     filter (fun d : string * Data => ¬ credentialsQuery (Some "u1") None d.2) store_u1)
  ∧ (GET 5 (Some "u1") None (DELETE (Some "u1") None store_u1).2).1
    = json (Credentials []) 200.
Proof. apply (DELETE_removes_the_matches 5 (Some "u1") None store_u1). reflexivity. Defined.

Lemma filter_none {A} (P : A → Prop) `{!∀ x, Decision (P x)} (l : list A) :
  (∀ x, x ∈ l → ¬ P x) → filter P l = [].
Proof.
  induction l as [|x l IH]; intros Hl; [done|].
  rewrite filter_cons_False by (apply Hl, list_elem_of_here).
  apply IH. intros y Hy. by apply Hl, list_elem_of_further.
Qed.

Lemma or_zero_Some (k : Z) : JS.or_zero (Some k) = k.
Proof. unfold JS.or_zero. destruct (Z.eqb_spec k 0); congruence. Qed.

(** A [POST] with non-empty fields and an identifier the store does not
    hold answers 201 and appends one document; the lookup by that
    identifier then returns exactly that credential, with the posted user
    and key, the posted counter (0 when none was posted), the time of the
    request as [createdAt] and no [lastUsed]. *)
Theorem POST_then_GET (now now' : Z) (fresh : string) (body : PostBody) (store : Store)
    (u k C : string) :
  post_userId body = Some u → post_publicKey body = Some k →
  post_credentialId body = Some C →
  u ≠ "" → k ≠ "" → C ≠ "" → C ∉ credentialIds store →
  (POST now fresh body store).1
    = json (Stored fresh "Biometric credential stored successfully") 201
  ∧ (∃ data, (POST now fresh body store).2 = store ++ [(fresh, data)])
  ∧ (GET now' None (Some C) (POST now fresh body store).2).1
    = json (Credentials
              [ {| bc_id := fresh; bc_userId := u; bc_publicKey := k;
                   bc_credentialId := C; bc_counter := default 0 (post_counter body);
                   bc_createdAt := now; bc_lastUsed := None;
                   bc_deviceInfo := post_deviceInfo body |} ]) 200.
Proof.
  intros Hu Hk Hc Hu' Hk' HC Hfresh.
  assert (filter (fun d : string * Data => credentialId d.2 = C) store = []) as Hnone.
  { apply filter_none. intros d Hd Heq. apply Hfresh.
    apply list_elem_of_fmap. by exists d. }
  assert (POST now fresh body store =
    (json (Stored fresh "Biometric credential stored successfully") 201,
     store ++ [(fresh, {| userId := u; publicKey := k; credentialId := C;
                          counter := default 0 (post_counter body);
                          deviceInfo := post_deviceInfo body;
                          createdAt := Some now; lastUsed := None |})])) as Hpost.
  { unfold POST. rewrite Hu, Hk, Hc. rewrite !truthy_true by done. simpl.
    destruct (FirestoreFacts.getDocs_docs (fun d => bool_decide (credentialId d = C)) store)
      as (snap & Hq & Hdocs).
    unfold Firestore.getDocs in Hq. injection Hq as Hq. rewrite Hq.
    assert (snap = []) as ->.
    { apply fmap_nil_inv with (f := snd). rewrite Hdocs, <- Hnone.
      apply list_filter_iff. intros d. by rewrite bool_decide_spec. }
    done. }
  rewrite Hpost. simpl. split; [done|]. split; [by eexists|].
  rewrite (GET_by_credentialId now' C _ HC), filter_app, Hnone.
  rewrite filter_cons_True by done.
  simpl. unfold to_credential. cbn [fst snd userId publicKey credentialId counter deviceInfo
                             createdAt lastUsed default from_option].
  by rewrite or_zero_Some.
Qed.

Definition body_u2_CQkJ : PostBody :=
  {| post_userId := Some "u2"; post_publicKey := Some "a2V5";
     post_credentialId := Some "CQkJ"; post_counter := None;
     post_deviceInfo := None |}.

Lemma POST_then_GET_witness :
  (POST 9 "doc2" body_u2_CQkJ store_u1).1
    = json (Stored "doc2" "Biometric credential stored successfully") 201
  ∧ (∃ data, (POST 9 "doc2" body_u2_CQkJ store_u1).2 = store_u1 ++ [("doc2", data)])
  ∧ (GET 10 None (Some "CQkJ") (POST 9 "doc2" body_u2_CQkJ store_u1).2).1
    = json (Credentials
              [ {| bc_id := "doc2"; bc_userId := "u2"; bc_publicKey := "a2V5";
                   bc_credentialId := "CQkJ";
                   bc_counter := default 0 (post_counter body_u2_CQkJ);
                   bc_createdAt := 9; bc_lastUsed := None;
                   bc_deviceInfo := post_deviceInfo body_u2_CQkJ |} ]) 200.
Proof.
  apply (POST_then_GET 9 10 "doc2" body_u2_CQkJ store_u1 "u2" "a2V5" "CQkJ");
    try reflexivity; try discriminate.
  intros H%list_elem_of_singleton. discriminate.
Defined.

(** *** Two requests in flight *)

(** A handler that is not interrupted between its two awaits is [POST]. *)
Lemma POST_in_one_piece (now : Z) (fresh : string) (body : PostBody) (store : Store) :
  POST now fresh body store = POST_add now fresh body (POST_lookup body store) store.
Proof.
  unfold POST, POST_lookup, POST_add.
  destruct (post_userId body) as [u|], (post_publicKey body) as [k|],
    (post_credentialId body) as [C|]; try done.
  destruct (negb (JS.truthy u) || negb (JS.truthy k) || negb (JS.truthy C)); [done|].
  simpl. by destruct (negb _).
Qed.

Lemma POST_lookup_run (body : PostBody) (store : Store) (u k C : string) :
  post_userId body = Some u → post_publicKey body = Some k →
  post_credentialId body = Some C →
  u ≠ "" → k ≠ "" → C ≠ "" →
  POST_lookup body store =
    if decide (C ∈ credentialIds store)
    then Answered (json (Error "Credential already exists") 409)
    else Adding u k C.
Proof.
  intros Hu Hk Hc Hu' Hk' HC.
  unfold POST_lookup. rewrite Hu, Hk, Hc. rewrite !truthy_true by done. simpl.
  destruct (FirestoreFacts.getDocs_docs (fun d => bool_decide (credentialId d = C)) store)
    as (snap & Hq & Hdocs).
  unfold Firestore.getDocs in Hq. injection Hq as Hq. rewrite Hq. clear Hq.
  destruct (decide (C ∈ credentialIds store)) as [Hin|Hin].
  - apply list_elem_of_fmap in Hin as (d & -> & Hd).
    destruct snap as [|x snap]; [|done]. exfalso.
    assert (d ∈ filter (fun d' : string * Data =>
                          bool_decide (credentialId d'.2 = credentialId d.2)) store) as Hf.
    { apply list_elem_of_filter. split; [|done]. by apply bool_decide_pack. }
    rewrite <- Hdocs in Hf. by apply elem_of_nil in Hf.
  - destruct snap as [|x snap]; [done|]. exfalso. apply Hin.
    assert (x.2 ∈ filter (fun d' : string * Data => bool_decide (credentialId d'.2 = C)) store)
      as Hf by (rewrite <- Hdocs; apply list_elem_of_here).
    apply list_elem_of_filter in Hf as [Hc' Hx]. apply bool_decide_unpack in Hc'.
    apply list_elem_of_fmap. by exists x.2.
Qed.

(** The document a [POST] adds. *)
Definition posted (now : Z) (body : PostBody) (u k C : string) : Data :=
  {| userId := u; publicKey := k; credentialId := C;
     counter := default 0 (post_counter body);
     deviceInfo := post_deviceInfo body;
     createdAt := Some now; lastUsed := None |}.

(** The check for the identifier and the write are two awaited steps of
    [POST], and nothing joins them.  Of two requests with the same, new
    credential identifier that are served one after the other, the first
    stores its document and the second is answered 409.  When the lookup
    of the second is answered before the first has added its document,
    both are answered 201 and both documents are stored: two documents
    then carry the same credential identifier. *)
Theorem overlapping_POSTs_store_an_identifier_twice
    (now1 now2 : Z) (fresh1 fresh2 : string) (body1 body2 : PostBody) (store : Store)
    (u1 k1 u2 k2 C : string) :
  post_userId body1 = Some u1 → post_publicKey body1 = Some k1 →
  post_credentialId body1 = Some C →
  post_userId body2 = Some u2 → post_publicKey body2 = Some k2 →
  post_credentialId body2 = Some C →
  u1 ≠ "" → k1 ≠ "" → u2 ≠ "" → k2 ≠ "" → C ≠ "" →
  C ∉ credentialIds store →
  (let first := POST now1 fresh1 body1 store in
   let second := POST now2 fresh2 body2 first.2 in
   status first.1 = 201 ∧ second = (json (Error "Credential already exists") 409, first.2)
   ∧ first.2 ≡ₚ (fresh1, posted now1 body1 u1 k1 C) :: store)
  ∧ (let lookup1 := POST_lookup body1 store in
     let lookup2 := POST_lookup body2 store in
     let first := POST_add now1 fresh1 body1 lookup1 store in
     let second := POST_add now2 fresh2 body2 lookup2 first.2 in
     status first.1 = 201 ∧ status second.1 = 201
     ∧ second.2 ≡ₚ (fresh1, posted now1 body1 u1 k1 C)
                   :: (fresh2, posted now2 body2 u2 k2 C) :: store
     ∧ ¬ NoDup (credentialIds second.2)).
Proof.
  intros Hu1 Hk1 Hc1 Hu2 Hk2 Hc2 Hu1' Hk1' Hu2' Hk2' HC Hfresh.
  pose proof (POST_lookup_run body1 store u1 k1 C Hu1 Hk1 Hc1 Hu1' Hk1' HC) as H1.
  pose proof (POST_lookup_run body2 store u2 k2 C Hu2 Hk2 Hc2 Hu2' Hk2' HC) as H2.
  rewrite decide_False in H1, H2 by done.
  split.
  - rewrite (POST_in_one_piece now1), H1. simpl.
    rewrite (POST_in_one_piece now2).
    rewrite (POST_lookup_run body2 _ u2 k2 C Hu2 Hk2 Hc2 Hu2' Hk2' HC).
    rewrite decide_True.
    2:{ unfold credentialIds. rewrite !fmap_app. apply elem_of_app. right.
        apply list_elem_of_here. }
    split; [done|]. split; [done|].
    fold (posted now1 body1 u1 k1 C). symmetry. apply Permutation_cons_append.
  - simpl. rewrite H1, H2. simpl.
    fold (posted now1 body1 u1 k1 C). fold (posted now2 body2 u2 k2 C).
    split; [done|]. split; [done|]. split.
    + rewrite <- app_assoc. simpl.
      rewrite <- Permutation_middle. apply Permutation_skip.
      symmetry. apply Permutation_cons_append.
    + unfold credentialIds. rewrite !fmap_app. simpl. intros Hn.
      apply NoDup_app in Hn as (_ & Hn & _).
      apply (Hn C); [apply elem_of_app; right|]; apply list_elem_of_here.
Qed.

Definition body_u3_CQkJ : PostBody :=
  {| post_userId := Some "u3"; post_publicKey := Some "b3RoZXI=";
     post_credentialId := Some "CQkJ"; post_counter := None;
     post_deviceInfo := None |}.

Lemma overlapping_POSTs_store_an_identifier_twice_witness :
  (let first := POST 9 "doc2" body_u2_CQkJ store_u1 in
   let second := POST 10 "doc3" body_u3_CQkJ first.2 in
   status first.1 = 201 ∧ second = (json (Error "Credential already exists") 409, first.2)
   ∧ first.2 ≡ₚ ("doc2", posted 9 body_u2_CQkJ "u2" "a2V5" "CQkJ") :: store_u1)
  ∧ (let lookup1 := POST_lookup body_u2_CQkJ store_u1 in
     let lookup2 := POST_lookup body_u3_CQkJ store_u1 in
     let first := POST_add 9 "doc2" body_u2_CQkJ lookup1 store_u1 in
     let second := POST_add 10 "doc3" body_u3_CQkJ lookup2 first.2 in
     status first.1 = 201 ∧ status second.1 = 201
     ∧ second.2 ≡ₚ ("doc2", posted 9 body_u2_CQkJ "u2" "a2V5" "CQkJ")
                   :: ("doc3", posted 10 body_u3_CQkJ "u3" "b3RoZXI=" "CQkJ") :: store_u1
     ∧ ¬ NoDup (credentialIds second.2)).
Proof.
  apply (overlapping_POSTs_store_an_identifier_twice 9 10 "doc2" "doc3"
           body_u2_CQkJ body_u3_CQkJ store_u1 "u2" "a2V5" "u3" "b3RoZXI=" "CQkJ");
    try reflexivity; try discriminate.
  intros H%list_elem_of_singleton. discriminate.
Defined.

(** Both documents are there after the overlap, and a lookup by the
    identifier returns both. *)
Example overlapping_POSTs_sample :
  let first := POST_add 9 "doc2" body_u2_CQkJ (POST_lookup body_u2_CQkJ store_u1) store_u1 in
  let second := POST_add 10 "doc3" body_u3_CQkJ (POST_lookup body_u3_CQkJ store_u1) first.2 in
  bc_userId <$> match body (GET 11 None (Some "CQkJ") second.2).1 with
                | Credentials credentials => credentials
                | _ => []
                end
  = ["u2"; "u3"].
Proof. reflexivity. Qed.

End CredentialRouteFacts.

(** ** More on the audit log route *)

Module SecurityLogRouteFacts.
Import Http SecurityLogs.
Import SecurityLogsFacts.

(** The document a [POST] stores. *)
Definition posted (now : Z) (body : PostBody) (success' : bool) : Data :=
  {| userId := default "" (post_userId body);
     action := default "" (post_action body);
     method := default "" (post_method body);
     success := success';
     ipAddress := default "unknown" (post_ipAddress body);
     userAgent := default "unknown" (post_userAgent body);
     location := post_location body;
     details := post_details body;
     timestamp := Some now |}.

(** A body [POST] accepts: [userId], [action] and [method] are non-empty
    and [success] is a boolean. *)
Definition acceptable (body : PostBody) : bool :=
  JS.truthy_opt (post_userId body) && JS.truthy_opt (post_action body)
  && JS.truthy_opt (post_method body) && bool_decide (is_Some (post_success body)).

Lemma log_POST_run (now : Z) (fresh : string) (body : PostBody) (store : Store) :
  POST now fresh body store =
    match post_success body with
    | Some success' =>
        if acceptable body
        then (json (Stored fresh "Security log added successfully") 201,
              store ++ [(fresh, posted now body success')])
        else (json (Error "Missing required fields: userId, action, method, success") 400,
              store)
    | None =>
        (json (Error "Missing required fields: userId, action, method, success") 400, store)
    end.
Proof.
  unfold POST, acceptable. destruct (post_success body) as [b|]; [|done].
  rewrite bool_decide_true by by eexists. rewrite andb_true_r.
  by destruct (JS.truthy_opt (post_userId body)), (JS.truthy_opt (post_action body)),
       (JS.truthy_opt (post_method body)).
Qed.

Lemma GET_store (clock : nat → Z) (u limit a : option string) (store : Store) :
  (GET clock u limit a store).2 = store.
Proof.
  unfold GET. destruct u as [u|]; [|done]. by destruct (negb (JS.truthy u)).
Qed.

(** What [GET] computes for a request with a user identifier. *)
Lemma log_GET_run (clock : nat → Z) (u : string) (limit a : option string) (store : Store) :
  u ≠ "" →
  ∃ logs,
    Forall2 entry_of logs (filter (fun d : string * Data => logsQuery u a d.2) store)
    ∧ GET clock (Some u) limit a store =
        (json (Logs (limited (JS.parseInt (JS.or_else limit "50"))
                       (JS.sort newest_first logs))) 200, store).
Proof.
  intros Hu.
  destruct (FirestoreFacts.getDocs_docs (logsQuery u a) store) as (snap & Hq & Hdocs).
  pose proof (imap_entry_of clock snap) as Hlogs. rewrite Hdocs in Hlogs.
  eexists. split; [exact Hlogs|].
  unfold GET. destruct u as [|c u]; [done|]. simpl JS.truthy. cbv iota.
  simpl negb. cbv iota. rewrite Hq. simpl. unfold or_500. do 3 f_equal.
  unfold limited. destruct (JS.parseInt (JS.or_else limit "50")) as [n|]; [|done].
  destruct (decide (1 ≤ n ≤ 100)) as [Hn|Hn].
  - rewrite (proj2 (Z.ltb_lt 0 n)), (proj2 (Z.leb_le n 100)) by lia.
    simpl. apply JSFacts.slice0_take. lia.
  - destruct (0 <? n) eqn:H0; [|done]. destruct (n <=? 100) eqn:H1; [|done].
    apply Z.ltb_lt in H0. apply Z.leb_le in H1. lia.
Qed.

(** *** Any sequence of requests *)

Inductive Request : Type :=
  | RequestGET (clock : nat → Z) (userId' limit' action' : option string)
  | RequestPOST (now : Z) (fresh : string) (body : PostBody).

Definition handle (request : Request) (store : Store) : Response Json * Store :=
  match request with
  | RequestGET clock u limit a => GET clock u limit a store
  | RequestPOST now fresh body => POST now fresh body store
  end.

Definition serve (requests : list Request) (store : Store) : Store :=
  foldl (fun store request => (handle request store).2) store requests.

(** The answers with status 201 among the answers to the requests. *)
Fixpoint stored_count (requests : list Request) (store : Store) : nat :=
  match requests with
  | [] => 0
  | request :: rest =>
      ((if (status (handle request store).1 =? 201)%Z then 1 else 0)
       + stored_count rest (handle request store).2)%nat
  end.

(** The audit log is append-only: whatever requests the route serves, the
    documents that were stored stay, unchanged and in order, at the front
    of the collection, and the collection grows by one document for each
    answer 201 and by nothing else. *)
Theorem log_is_append_only (requests : list Request) (store : Store) :
  store `prefix_of` serve requests store
  ∧ List.length (serve requests store)
    = (List.length store + stored_count requests store)%nat.
Proof.
  unfold serve. revert store.
  induction requests as [|request requests IH]; intros store.
  - split; [done|]. simpl. lia.
  - simpl. destruct (IH (handle request store).2) as [Hp Hl]. rewrite Hl. clear Hl.
    destruct request as [clock u limit a|now fresh body]; simpl in *.
    + rewrite GET_store in *. split; [done|].
      assert ((status (GET clock u limit a store).1 =? 201)%Z = false) as ->; [|lia].
      unfold GET. destruct u as [u|]; [|done]. by destruct (negb (JS.truthy u)).
    + rewrite log_POST_run in *.
      destruct (post_success body) as [b|]; [|by split].
      destruct (acceptable body); [|by split].
      simpl in *. split.
      * etrans; [|exact Hp]. by apply prefix_app_r.
      * rewrite length_app. simpl. lia.
Qed.

(** *** The event just logged *)

Lemma limited_head (n : option Z) (e : SecurityLog) (rest : list SecurityLog) :
  ∃ rest', limited n (e :: rest) = e :: rest'.
Proof.
  unfold limited. destruct n as [n|]; [|by eexists].
  destruct (decide (1 ≤ n ≤ 100)) as [Hn|Hn]; [|by eexists].
  destruct (Z.to_nat n) as [|k] eqn:Hk; [lia|]. by eexists.
Qed.

Lemma sorted_head_is_newest (e : SecurityLog) (older sorted : list SecurityLog) :
  Forall (fun x => log_timestamp x < log_timestamp e) older →
  sorted ≡ₚ older ++ [e] →
  StronglySorted not_older sorted →
  ∃ rest, sorted = e :: rest.
Proof.
  intros Hold Hperm Hsorted.
  destruct sorted as [|h t].
  { apply Permutation_nil_l in Hperm. by destruct older. }
  assert (h ∈ older ++ [e]) as Hh by (rewrite <- Hperm; apply list_elem_of_here).
  assert (e ∈ h :: t) as He.
  { rewrite Hperm. apply elem_of_app. right. apply list_elem_of_here. }
  apply elem_of_app in Hh as [Hh|Hh%list_elem_of_singleton]; [|subst h; by eexists].
  exfalso. rewrite Forall_forall in Hold. specialize (Hold h Hh).
  apply elem_of_cons in He as [->|He]; [lia|].
  apply StronglySorted_inv in Hsorted as [_ Ht]. rewrite Forall_forall in Ht.
  specialize (Ht e He). unfold not_older in Ht. lia.
Qed.

Lemma Forall2_entry_older (now : Z) (logs : list SecurityLog) (docs : list (string * Data)) :
  Forall2 entry_of logs docs →
  Forall (fun d : string * Data => ∃ t, timestamp d.2 = Some t ∧ t < now) docs →
  Forall (fun x => log_timestamp x < now) logs.
Proof.
  induction 1 as [|e d es ds He _ IH]; intros Hd; [constructor|].
  apply Forall_cons in Hd as [(t & Ht & Hlt) Hd]. constructor; [|by apply IH].
  destruct He as (_ & _ & _ & _ & _ & _ & _ & _ & Hts). by rewrite (Hts t Ht).
Qed.

(** After a [POST] the route accepts, the event is the first entry [GET]
    returns for its user, whatever the limit, when every stored event of
    that user carries an earlier time stamp: it has the identifier of the
    new document, the time of the request and the posted action, method
    and success flag. *)
Theorem POST_then_GET_shows_the_event_first
    (now : Z) (fresh : string) (body : PostBody) (store : Store)
    (clock : nat → Z) (limit : option string) (u a m : string) (b : bool) :
  post_userId body = Some u → post_action body = Some a → post_method body = Some m →
  post_success body = Some b →
  u ≠ "" → a ≠ "" → m ≠ "" →
  Forall (fun d : string * Data => userId d.2 = u → ∃ t, timestamp d.2 = Some t ∧ t < now)
    store →
  (POST now fresh body store).1 = json (Stored fresh "Security log added successfully") 201
  ∧ ∃ e rest,
      (GET clock (Some u) limit None (POST now fresh body store).2).1
        = json (Logs (e :: rest)) 200
      ∧ log_id e = fresh ∧ log_userId e = u ∧ log_timestamp e = now
      ∧ log_action e = a ∧ log_method e = m ∧ log_success e = b.
Proof.
  intros Hu Ha Hm Hb Hu' Ha' Hm' Hold.
  rewrite log_POST_run, Hb.
  assert (acceptable body = true) as ->.
  { unfold acceptable. rewrite Hu, Ha, Hm, Hb.
    rewrite bool_decide_true by by eexists.
    by destruct u, a, m. }
  simpl. split; [done|].
  destruct (log_GET_run clock u limit None (store ++ [(fresh, posted now body b)]) Hu')
    as (logs & Hlogs & ->).
  rewrite filter_app in Hlogs.
  rewrite (filter_cons_True _ (fresh, posted now body b)) in Hlogs.
  2:{ unfold logsQuery, posted. simpl. rewrite Hu. simpl.
      by rewrite bool_decide_true. }
  apply Forall2_app_inv_r in Hlogs as (older & last & Holder & Hlast & ->).
  apply Forall2_cons_inv_r in Hlast as (e & nil' & He & Hnil & ->).
  apply Forall2_nil_inv_r in Hnil as ->.
  destruct He as (Hid & Huid & Hact & Hmeth & Hsucc & _ & _ & _ & Hts).
  simpl in *. rewrite Hu in Huid. rewrite Ha in Hact. rewrite Hm in Hmeth.
  specialize (Hts now eq_refl).
  destruct (sorted_head_is_newest e older (JS.sort newest_first (older ++ [e])))
    as [rest Hsorted].
  - rewrite Hts. eapply Forall2_entry_older; [exact Holder|].
    apply Forall_forall. intros d Hd. apply list_elem_of_filter in Hd as [Hq Hd].
    rewrite Forall_forall in Hold. apply (Hold d Hd).
    unfold logsQuery in Hq. apply andb_prop_elim in Hq as [Hq _].
    by apply bool_decide_unpack in Hq.
  - apply (JSFacts.sort_perm newest_first).
  - apply sorted_newest_first.
  - rewrite Hsorted. destruct (limited_head (JS.parseInt (JS.or_else limit "50")) e rest)
      as [rest' ->].
    by exists e, rest'.
Qed.

Definition body_login_u1 : PostBody :=
  {| post_userId := Some "u1"; post_action := Some "login"; post_method := Some "face";
     post_success := Some true; post_ipAddress := None; post_userAgent := None;
     post_location := None; post_details := None |}.

Lemma POST_then_GET_shows_the_event_first_witness :
  (POST 30 "c" body_login_u1 []).1
    = json (Stored "c" "Security log added successfully") 201
  ∧ ∃ e rest,
      (GET (fun _ => 0) (Some "u1") (Some "1") None (POST 30 "c" body_login_u1 []).2).1
        = json (Logs (e :: rest)) 200
      ∧ log_id e = "c" ∧ log_userId e = "u1" ∧ log_timestamp e = 30
      ∧ log_action e = "login" ∧ log_method e = "face" ∧ log_success e = true.
Proof.
  apply (POST_then_GET_shows_the_event_first 30 "c" body_login_u1 [] (fun _ => 0)
           (Some "1") "u1" "login" "face" true); try reflexivity; try discriminate.
  constructor.
Defined.

End SecurityLogRouteFacts.

(** ** Credential identifiers *)

Module IdentifierFacts.
Import Base64Decode Base64DecodeFacts.

Lemma map_chars_to_url_inj (s t : string) :
  JS.all_chars (fun a => negb (Ascii.eqb a "-") && negb (Ascii.eqb a "_")) s = true →
  JS.all_chars (fun a => negb (Ascii.eqb a "-") && negb (Ascii.eqb a "_")) t = true →
  map_chars to_url s = map_chars to_url t → s = t.
Proof.
  intros Hs Ht Heq.
  rewrite <- (from_url_replace s Hs), <- (from_url_replace t Ht). by rewrite Heq.
Qed.

Lemma unpadded_inj (s t : string) : unpadded s = unpadded t → s = t.
Proof.
  intros Heq. pose proof (decode_unpadded_btoa s) as Hs.
  pose proof (decode_unpadded_btoa t) as Ht. unfold unpadded in Heq.
  rewrite Heq in Hs. congruence.
Qed.

Lemma binary_inj (b1 b2 : list byte) :
  string_of_list_ascii (ascii_of_byte <$> b1) = string_of_list_ascii (ascii_of_byte <$> b2) →
  b1 = b2.
Proof.
  intros Heq. rewrite <- (buffer_of_binary b1), <- (buffer_of_binary b2). by rewrite Heq.
Qed.

Lemma arrayBufferToBase64url_nonempty (buffer : list byte) :
  buffer ≠ [] → BiometricAuthClient.arrayBufferToBase64url buffer ≠ "".
Proof.
  intros Hne. rewrite arrayBufferToBase64url_unpadded.
  destruct buffer as [|a [|b [|c rest]]]; [done|simpl..].
  - by rewrite unpadded_1.
  - by rewrite unpadded_2.
  - by rewrite unpadded_3.
Qed.

(** The base64url identifier determines the raw identifier of the
    credential: two buffers with the same identifier are the same buffer,
    and only the empty buffer has the empty identifier. *)
Theorem credentialId_determines_rawId (b1 b2 : list byte) :
  (BiometricAuthClient.arrayBufferToBase64url b1
   = BiometricAuthClient.arrayBufferToBase64url b2 ↔ b1 = b2)
  ∧ (BiometricAuthClient.arrayBufferToBase64url b1 = "" ↔ b1 = []).
Proof.
  split; split.
  - rewrite !arrayBufferToBase64url_unpadded. intros Heq.
    apply binary_inj, unpadded_inj.
    by apply map_chars_to_url_inj; [apply unpadded_std..|].
  - by intros ->.
  - intros Heq. destruct b1 as [|b l]; [done|].
    by destruct (arrayBufferToBase64url_nonempty (b :: l)).
  - by intros ->.
Qed.

End IdentifierFacts.

(** ** Enrollment on the client *)

Module EnrollmentFacts.
Import Http World Browser.
Import BiometricCredentialsFacts VerificationFacts.

(** The document [registerBiometric] asks the route to store for the
    credential [att] the authenticator created. *)
Definition enrolled (env : Env) (userId' : string) (att : Attestation)
  : BiometricCredentials.Data :=
  {| BiometricCredentials.userId := userId';
     BiometricCredentials.publicKey :=
       BiometricAuthClient.arrayBufferToBase64 (default [] (getPublicKey att));
     BiometricCredentials.credentialId :=
       BiometricAuthClient.arrayBufferToBase64url (att_rawId att);
     BiometricCredentials.counter := 0;
     BiometricCredentials.deviceInfo := Some (userAgent env);
     BiometricCredentials.createdAt := Some (now env);
     BiometricCredentials.lastUsed := None |}.

(** [POST] for a body that has the three required fields. *)
Lemma POST_cases (now : Z) (fresh u k C : string) (n : option Z) (dev : option string)
    (store : BiometricCredentials.Store) :
  BiometricCredentials.POST now fresh
    {| BiometricCredentials.post_userId := Some u;
       BiometricCredentials.post_publicKey := Some k;
       BiometricCredentials.post_credentialId := Some C;
       BiometricCredentials.post_counter := n;
       BiometricCredentials.post_deviceInfo := dev |} store =
    if negb (JS.truthy u) || negb (JS.truthy k) || negb (JS.truthy C)
    then (json (BiometricCredentials.Error
                  "Missing required fields: userId, publicKey, credentialId") 400, store)
    else if decide (C ∈ credentialIds store)
    then (json (BiometricCredentials.Error "Credential already exists") 409, store)
    else (json (BiometricCredentials.Stored fresh "Biometric credential stored successfully")
            201,
          store ++ [(fresh, {| BiometricCredentials.userId := u;
                               BiometricCredentials.publicKey := k;
                               BiometricCredentials.credentialId := C;
                               BiometricCredentials.counter := default 0 n;
                               BiometricCredentials.deviceInfo := dev;
                               BiometricCredentials.createdAt := Some now;
                               BiometricCredentials.lastUsed := None |})]).
Proof.
  unfold BiometricCredentials.POST. simpl.
  destruct (negb (JS.truthy u) || negb (JS.truthy k) || negb (JS.truthy C)); [done|].
  destruct (FirestoreFacts.getDocs_docs
              (fun d => bool_decide (BiometricCredentials.credentialId d = C)) store)
    as (snapshot & Hq & Hdocs).
  unfold Firestore.getDocs in *. injection Hq as Hq. rewrite Hq. clear Hq. simpl.
  destruct (decide (C ∈ credentialIds store)) as [Hin|Hin].
  - apply list_elem_of_fmap in Hin as (d & -> & Hd).
    destruct snapshot as [|x snapshot]; [|done]. exfalso.
    assert (d ∈ filter (fun d' : string * BiometricCredentials.Data =>
                          bool_decide (BiometricCredentials.credentialId d'.2
                                       = BiometricCredentials.credentialId d.2)) store) as Hf.
    { apply list_elem_of_filter. split; [|done]. by apply bool_decide_pack. }
    rewrite <- Hdocs in Hf. by apply elem_of_nil in Hf.
  - destruct snapshot as [|x snapshot]; [done|]. exfalso. apply Hin.
    assert (x.2 ∈ filter (fun d' : string * BiometricCredentials.Data =>
                            bool_decide (BiometricCredentials.credentialId d'.2 = C)) store)
      as Hf by (rewrite <- Hdocs; apply list_elem_of_here).
    apply list_elem_of_filter in Hf as [Hc Hx]. apply bool_decide_unpack in Hc.
    apply list_elem_of_fmap. by exists x.2.
Qed.

(** How an enrollment ends: with the credential the authenticator created,
    stored, or with the message of the exception that ended it. *)
Definition outcome (env : Env) (userId' : string) (store : BiometricCredentials.Store)
  : Attestation + string :=
  if negb (PublicKeyCredential env) then inr "WebAuthn is not supported in this browser"
  else
    match isUserVerifyingPlatformAuthenticatorAvailable env with
    | Throw e => inr e
    | Ok false => inr "Biometric authentication is not available on this device"
    | Ok true =>
        match credentials_create env with
        | Throw e => inr e
        | Ok None => inr "Failed to create credential"
        | Ok (Some att) =>
            if negb (JS.truthy userId')
               || negb (JS.truthy (BiometricAuthClient.arrayBufferToBase64
                                     (default [] (getPublicKey att))))
               || negb (JS.truthy (BiometricAuthClient.arrayBufferToBase64url (att_rawId att)))
            then inr "Missing required fields: userId, publicKey, credentialId"
            else if decide (BiometricAuthClient.arrayBufferToBase64url (att_rawId att)
                            ∈ credentialIds store)
            then inr "Credential already exists"
            else inl att
        end
    end.

Definition registered (userId' : string) (att : Attestation) : Types.BiometricAuthResult :=
  {| Types.success := true;
     Types.credentialId := Some (BiometricAuthClient.arrayBufferToBase64url (att_rawId att));
     Types.userId := Some userId';
     Types.error := None |}.

Definition not_registered (message : string) : Types.BiometricAuthResult :=
  {| Types.success := false; Types.credentialId := None; Types.userId := None;
     Types.error := Some message |}.

(** [registerBiometric], case by case. *)
Lemma registerBiometric_run (env : Env) (u n d : string) (w : World) :
  BiometricAuthClient.registerBiometric env u n d w =
    match outcome env u (biometricCredentials w) with
    | inl att =>
        (Ok (registered u att),
         with_biometricCredentials
           (biometricCredentials w ++ [(fresh env, enrolled env u att)]) w)
    | inr message => (Ok (not_registered message), w)
    end.
Proof.
  unfold BiometricAuthClient.registerBiometric, outcome, catch, mbind, M_bind, lift, throw,
    fetch_credentials.
  destruct (PublicKeyCredential env); simpl; [|done].
  destruct (isUserVerifyingPlatformAuthenticatorAvailable env) as [[|]|e]; simpl; [|done..].
  destruct (credentials_create env) as [[att|]|e]; simpl; [|done..].
  rewrite POST_cases.
  destruct (negb (JS.truthy u) || _ || _); simpl; [by rewrite with_same_credentials|].
  destruct (decide (_ ∈ credentialIds (biometricCredentials w))) as [Hin|Hin]; simpl;
    [by rewrite with_same_credentials|done].
Qed.

(** An enrollment either stores exactly one document, the one of the
    credential the authenticator created, with the signature counter 0,
    for the user it was asked for, and returns that credential's
    identifier, or it fails with a message and leaves the world as it
    was; it never throws.  It succeeds exactly when the platform
    authenticator is there and creates a credential whose identifier and
    public key are not empty and whose identifier is not stored yet, for a
    user identifier that is not empty. *)
Theorem registerBiometric_stores_one_document_or_nothing
    (env : Env) (u n d : string) (w : World) :
  ∃ r, (BiometricAuthClient.registerBiometric env u n d w).1 = Ok r
    ∧ (if Types.success r
       then ∃ att,
              credentials_create env = Ok (Some att)
              ∧ r = registered u att
              ∧ (BiometricAuthClient.registerBiometric env u n d w).2
                = with_biometricCredentials
                    (biometricCredentials w ++ [(fresh env, enrolled env u att)]) w
       else (BiometricAuthClient.registerBiometric env u n d w).2 = w
            ∧ Types.credentialId r = None ∧ Types.userId r = None
            ∧ is_Some (Types.error r))
    ∧ (Types.success r = true ↔
       available env = true
       ∧ ∃ att, credentials_create env = Ok (Some att)
                ∧ u ≠ "" ∧ att_rawId att ≠ []
                ∧ BiometricAuthClient.arrayBufferToBase64 (default [] (getPublicKey att)) ≠ ""
                ∧ BiometricAuthClient.arrayBufferToBase64url (att_rawId att)
                  ∉ credentialIds (biometricCredentials w)).
Proof.
  rewrite registerBiometric_run. unfold outcome, available.
  destruct (PublicKeyCredential env); simpl.
  2:{ eexists. split; [done|]. simpl. split; [by repeat split|].
      split; [done|]. by intros [? _]. }
  destruct (isUserVerifyingPlatformAuthenticatorAvailable env) as [[|]|e]; simpl.
  2,3:eexists; (split; [done|]); simpl; (split; [by repeat split|]);
      (split; [done|]); by intros [? _].
  destruct (credentials_create env) as [[att|]|e]; simpl.
  2,3:eexists; (split; [done|]); simpl; (split; [by repeat split|]);
      (split; [done|]); by intros [_ (? & ? & _)].
  destruct (JS.truthy u) eqn:Hu; simpl.
  2:{ eexists. split; [done|]. simpl. split; [by repeat split|].
      split; [done|]. intros [_ (? & _ & Hne & _)]. by destruct u. }
  destruct (JS.truthy (BiometricAuthClient.arrayBufferToBase64 _)) eqn:Hk; simpl.
  2:{ eexists. split; [done|]. simpl. split; [by repeat split|].
      split; [done|]. intros [_ (att' & [= <-] & _ & _ & Hne & _)].
      by destruct (BiometricAuthClient.arrayBufferToBase64 _). }
  destruct (JS.truthy (BiometricAuthClient.arrayBufferToBase64url _)) eqn:Hc; simpl.
  2:{ eexists. split; [done|]. simpl. split; [by repeat split|].
      split; [done|]. intros [_ (att' & [= <-] & _ & Hne & _)].
      apply IdentifierFacts.arrayBufferToBase64url_nonempty in Hne.
      by destruct (BiometricAuthClient.arrayBufferToBase64url _). }
  destruct (decide (_ ∈ credentialIds (biometricCredentials w))) as [Hin|Hin]; simpl.
  - eexists. split; [done|]. simpl. split; [by repeat split|].
    split; [done|]. by intros [_ (att' & [= <-] & _ & _ & _ & Hne)].
  - eexists. split; [done|]. simpl. split; [by exists att|].
    split; [|done]. intros _. split; [done|]. exists att.
    split; [done|]. split; [by destruct u|]. split.
    + intros Hnil. rewrite Hnil in Hc. done.
    + split; [|done]. by destruct (BiometricAuthClient.arrayBufferToBase64 _).
Qed.

Lemma filter_fresh_identifier (C : string) (store : BiometricCredentials.Store)
    (d : string * BiometricCredentials.Data) :
  C ∉ credentialIds store → BiometricCredentials.credentialId d.2 = C →
  filter (fun d : string * BiometricCredentials.Data =>
            BiometricCredentials.credentialId d.2 = C) (store ++ [d]) = [d].
Proof.
  intros Hfresh Hd. rewrite filter_app.
  rewrite (CredentialRouteFacts.filter_none _ store).
  - by rewrite filter_cons_True.
  - intros x Hx Heq. apply Hfresh. apply list_elem_of_fmap. by exists x.
Qed.

Lemma touch_first_last (now k : Z) (C : string) (store : BiometricCredentials.Store)
    (d : string * BiometricCredentials.Data) :
  C ∉ credentialIds store → BiometricCredentials.credentialId d.2 = C →
  CredentialRouteFacts.touch_first now k C (store ++ [d])
  = store ++ [(d.1, CredentialRouteFacts.touched now k d.2)].
Proof.
  intros Hfresh Hd. induction store as [|x store IH]; simpl.
  - by rewrite decide_True.
  - unfold credentialIds in Hfresh. rewrite fmap_cons in Hfresh.
    apply not_elem_of_cons in Hfresh as [Hx Hfresh].
    rewrite decide_False by done. f_equal. by apply IH.
Qed.

(** The credential an enrollment stored authenticates its user: when
    [registerBiometric] succeeded for the user [u] with the credential the
    authenticator created, a later [authenticateUser], in an assertion
    ceremony that returns the raw identifier of that credential, succeeds
    with the user [u] and that credential's identifier, and stamps the
    stored document (counter 0, [lastUsed] the time of the verification),
    leaving the documents that were there before as they were. *)
Theorem enrolled_credential_authenticates
    (env env' : Env) (u n d : string) (w : World)
    (att : Attestation) (assertion : Assertion) :
  credentials_create env = Ok (Some att) →
  (BiometricAuthClient.registerBiometric env u n d w).1 = Ok (registered u att) →
  PublicKeyCredential env' = true →
  credentials_get env' = Ok (Some assertion) →
  rawId assertion = att_rawId att →
  BiometricAuthClient.authenticateUser env'
    (BiometricAuthClient.registerBiometric env u n d w).2
  = (Ok (registered u att),
     with_biometricCredentials
       (biometricCredentials w
        ++ [(fresh env, CredentialRouteFacts.touched (now env') 0 (enrolled env u att))])
       w).
Proof.
  intros Hcreate Hreg Hs Hget Hraw. revert Hreg.
  rewrite registerBiometric_run.
  assert (outcome env u (biometricCredentials w) = inl att
          ∧ BiometricAuthClient.arrayBufferToBase64url (att_rawId att) ≠ ""
          ∧ BiometricAuthClient.arrayBufferToBase64url (att_rawId att)
            ∉ credentialIds (biometricCredentials w)
          ∨ ∃ m, outcome env u (biometricCredentials w) = inr m) as [(-> & HC & Hfresh)|[m ->]].
  { unfold outcome. destruct (negb (PublicKeyCredential env)); [by right; eexists|].
    destruct (isUserVerifyingPlatformAuthenticatorAvailable env) as [[|]|e];
      [|by right; eexists..].
    rewrite Hcreate.
    destruct (JS.truthy u); [|by right; eexists].
    destruct (JS.truthy (BiometricAuthClient.arrayBufferToBase64 _)); [|by right; eexists].
    destruct (JS.truthy (BiometricAuthClient.arrayBufferToBase64url _)) eqn:HC;
      [|by right; eexists]. simpl.
    destruct (decide _) as [Hin|Hin]; [by right; eexists|]. left.
    split; [done|]. split; [|done].
    by destruct (BiometricAuthClient.arrayBufferToBase64url _). }
  2:{ simpl. intros [=]. }
  simpl. intros _.
  set (C := BiometricAuthClient.arrayBufferToBase64url (att_rawId att)) in *.
  rewrite (authenticateUser_lookup env' _ assertion Hs Hget C) by (by rewrite ?Hraw).
  simpl biometricCredentials.
  rewrite (filter_fresh_identifier C) by done.
  rewrite (CredentialRouteFacts.credential_PUT_run _ _ C) by done.
  rewrite decide_True.
  2:{ unfold credentialIds. rewrite fmap_app. apply elem_of_app. right.
      apply list_elem_of_here. }
  simpl. rewrite touch_first_last by done. done.
Qed.

(** A browser whose authenticator creates the credential with the raw
    identifier 7, 8, 9 and the public key 1, 2. *)
Definition env_create_789 : Env :=
  {| PublicKeyCredential := true;
     isUserVerifyingPlatformAuthenticatorAvailable := Ok true;
     credentials_create :=
       Ok (Some {| att_rawId := [x07; x08; x09]; getPublicKey := Some [x01; x02] |});
     credentials_get := Ok (Some {| rawId := [x07; x08; x09]; signature := [] |});
     userAgent := "Mozilla/5.0";
     now := 2000;
     fresh := "doc7";
     addDoc_securityLogs := fun _ => Ok tt |}.

Lemma enrolled_credential_authenticates_witness :
  BiometricAuthClient.authenticateUser env_create_789
    (BiometricAuthClient.registerBiometric env_create_789 "u2" "u2@example.org" "User"
       (world_of store_u1)).2
  = (Ok (registered "u2" {| att_rawId := [x07; x08; x09]; getPublicKey := Some [x01; x02] |}),
     with_biometricCredentials
       (biometricCredentials (world_of store_u1)
        ++ [(fresh env_create_789,
             CredentialRouteFacts.touched (now env_create_789) 0
               (enrolled env_create_789 "u2"
                  {| att_rawId := [x07; x08; x09]; getPublicKey := Some [x01; x02] |}))])
       (world_of store_u1)).
Proof.
  apply (enrolled_credential_authenticates env_create_789 env_create_789
           "u2" "u2@example.org" "User" (world_of store_u1)
           {| att_rawId := [x07; x08; x09]; getPublicKey := Some [x01; x02] |}
           {| rawId := [x07; x08; x09]; signature := [] |}); reflexivity.
Defined.

End EnrollmentFacts.


(** ** The functions that ask about the credentials of a user *)

Example searchParams_samples :
  SearchParams.parse "userId=u1" = [("userId", "u1")]
  ∧ SearchParams.parse "userId=a b&credentialId=A%2BB#x" = [("userId", "a b"); ("credentialId", "A+B")]
  ∧ SearchParams.parse "userId=u1  " = [("userId", "u1")]
  ∧ SearchParams.parse "userId=&&x" = [("userId", ""); ("x", "")]
  ∧ SearchParams.get "userId" (SearchParams.parse "userId=a&userId=b") = Some "a"
  ∧ SearchParams.get "credentialId" (SearchParams.parse "userId=a") = None.
Proof. repeat split; reflexivity. Qed.

Module CredentialQueriesFacts.
Import Http World Browser SearchParams CredentialQueries.
Import BiometricCredentialsFacts VerificationFacts.

(** A character the URL parser and the query parser leave alone. *)
Definition plain (a : ascii) : bool :=
  negb (is_c0_or_space a) && negb (is_tab_or_newline a)
  && negb (Ascii.eqb a "#") && negb (Ascii.eqb a "&").

Lemma url_safe_is_plain (a : ascii) : JS.url_safe a = true → plain a = true.
Proof. destruct a as [[] [] [] [] [] [] [] []]; vm_compute; intros; done. Qed.

Lemma url_safe_not_eq (a : ascii) : JS.url_safe a = true → Ascii.eqb a "=" = false.
Proof. destruct a as [[] [] [] [] [] [] [] []]; vm_compute; intros; done. Qed.

Lemma strip_trailing_plain (s : string) :
  JS.all_chars plain s = true → strip_trailing s = s.
Proof.
  induction s as [|a s IH]; simpl; [done|].
  intros [Ha Hs]%andb_prop. rewrite (IH Hs).
  destruct s; [|done]. unfold plain in Ha.
  by destruct (is_c0_or_space a).
Qed.

Lemma remove_tab_newline_plain (s : string) :
  JS.all_chars plain s = true → remove_tab_newline s = s.
Proof.
  induction s as [|a s IH]; simpl; [done|].
  intros [Ha Hs]%andb_prop. rewrite (IH Hs). unfold plain in Ha.
  by destruct (is_c0_or_space a), (is_tab_or_newline a).
Qed.

Lemma before_plain (s : string) :
  JS.all_chars plain s = true → before "#" s = s.
Proof.
  induction s as [|a s IH]; simpl; [done|].
  intros [Ha Hs]%andb_prop. rewrite (IH Hs). unfold plain in Ha.
  by destruct (is_c0_or_space a), (is_tab_or_newline a), (Ascii.eqb a "#").
Qed.

Lemma split_plain (s : string) :
  JS.all_chars plain s = true → split "&" s = [s].
Proof.
  induction s as [|a s IH]; simpl; [done|].
  intros [Ha Hs]%andb_prop. rewrite (IH Hs). unfold plain in Ha.
  by destruct (is_c0_or_space a), (is_tab_or_newline a), (Ascii.eqb a "#"),
       (Ascii.eqb a "&").
Qed.

Lemma after_safe (p s : string) :
  JS.all_chars JS.url_safe p = true →
  after "=" (p +:+ String "=" s) = s ∧ before "=" (p +:+ String "=" s) = p.
Proof.
  induction p as [|a p IH]; [done|].
  rewrite EncryptionFacts.append_cons. simpl.
  intros [Ha Hp]%andb_prop. rewrite (url_safe_not_eq a Ha).
  destruct (IH Hp) as [-> ->]. done.
Qed.

(** A request built as [`..?name=${value}`] from a name and a value of
    letters, digits, [-] and [_] has that one parameter. *)
Lemma parse_safe (name value : string) :
  name ≠ "" →
  JS.all_chars JS.url_safe name = true → JS.all_chars JS.url_safe value = true →
  parse (name +:+ String "=" value) = [(name, value)].
Proof.
  intros Hne Hn Hv. unfold parse.
  assert (JS.all_chars plain (name +:+ String "=" value) = true) as Hplain.
  { rewrite Base64Facts.all_chars_app. simpl.
    rewrite (Base64DecodeFacts.all_chars_impl _ _ name url_safe_is_plain Hn).
    by rewrite (Base64DecodeFacts.all_chars_impl _ _ value url_safe_is_plain Hv). }
  rewrite strip_trailing_plain, remove_tab_newline_plain, before_plain, split_plain by done.
  rewrite filter_cons_True by (by destruct name).
  rewrite filter_nil. simpl.
  destruct (after_safe name value Hn) as [-> ->].
  by rewrite !Base64Facts.url_query_value_safe.
Qed.

Lemma parse_userId (userId' : string) :
  JS.all_chars JS.url_safe userId' = true →
  get "userId" (parse ("userId=" +:+ userId')) = Some userId'
  ∧ get "credentialId" (parse ("userId=" +:+ userId')) = None.
Proof.
  intros Hu.
  change ("userId=" +:+ userId') with ("userId" +:+ String "=" userId').
  by rewrite parse_safe.
Qed.

Lemma hasRegisteredCredentials_run (env : Env) (u : string) (w : World) :
  JS.all_chars JS.url_safe u = true →
  hasRegisteredCredentials env u w =
    (Ok (JS.truthy u
         && negb (bool_decide
                    (filter (fun d : string * BiometricCredentials.Data =>
                               BiometricCredentials.userId d.2 = u)
                       (biometricCredentials w) = []))), w).
Proof.
  intros Hu. unfold hasRegisteredCredentials, catch, mbind, M_bind, fetch_credentials.
  destruct (parse_userId u Hu) as [-> ->].
  rewrite CredentialRouteFacts.credential_GET_run. simpl JS.truthy_opt. cbv iota.
  destruct (JS.truthy u) eqn:Ht; simpl; rewrite with_same_credentials; [|done].
  assert (filter (fun d : string * BiometricCredentials.Data =>
                    Some (BiometricCredentials.userId d.2) = Some u) (biometricCredentials w)
          = filter (fun d : string * BiometricCredentials.Data =>
                      BiometricCredentials.userId d.2 = u) (biometricCredentials w)) as ->.
  { apply list_filter_iff. intros d. split; congruence. }
  by destruct (filter _ (biometricCredentials w)).
Qed.

(** For a user identifier of letters, digits, [-] and [_],
    [hasRegisteredCredentials] returns [true] exactly when the identifier
    is not empty and some stored document belongs to that user; it never
    throws and changes nothing. *)
Theorem hasRegisteredCredentials_iff (env : Env) (u : string) (w : World) :
  JS.all_chars JS.url_safe u = true →
  ∃ b, hasRegisteredCredentials env u w = (Ok b, w)
       ∧ (b = true ↔
          u ≠ "" ∧ ∃ d, d ∈ biometricCredentials w ∧ BiometricCredentials.userId d.2 = u).
Proof.
  intros Hu. rewrite (hasRegisteredCredentials_run env u w Hu).
  eexists. split; [done|].
  rewrite andb_true_iff, negb_true_iff, bool_decide_eq_false.
  rewrite EncryptionFacts.truthy_nonempty. split.
  - intros [Hne Hf]. split; [done|].
    destruct (filter _ (biometricCredentials w)) as [|d l] eqn:Heq; [done|].
    assert (d ∈ filter (fun d : string * BiometricCredentials.Data =>
                          BiometricCredentials.userId d.2 = u) (biometricCredentials w)) as Hin
      by (rewrite Heq; apply list_elem_of_here).
    apply list_elem_of_filter in Hin as [Hdu Hd]. by exists d.
  - intros [Hne (d & Hd & Hdu)]. split; [done|]. intros Hnil.
    assert (d ∈ filter (fun d : string * BiometricCredentials.Data =>
                          BiometricCredentials.userId d.2 = u) (biometricCredentials w)) as Hin
      by by apply list_elem_of_filter.
    rewrite Hnil in Hin. by apply elem_of_nil in Hin.
Qed.

Lemma hasRegisteredCredentials_iff_witness :
  ∃ b, hasRegisteredCredentials env_123 "u1" (world_of store_u1) = (Ok b, world_of store_u1)
       ∧ (b = true ↔
          "u1" ≠ "" ∧ ∃ d, d ∈ biometricCredentials (world_of store_u1)
                           ∧ BiometricCredentials.userId d.2 = "u1").
Proof. apply (hasRegisteredCredentials_iff env_123 "u1" (world_of store_u1)). reflexivity. Defined.

(** For a user identifier of letters, digits, [-] and [_],
    [removeAllCredentials] removes every stored document of that user and
    no other, after which [hasRegisteredCredentials] answers [false]; for
    the empty identifier the route refuses the request, the function
    throws "Failed to remove credentials" and nothing is removed. *)
Theorem removeAllCredentials_removes_the_users_documents
    (env : Env) (u : string) (w : World) :
  JS.all_chars JS.url_safe u = true →
  if decide (u = "")
  then removeAllCredentials u w = (Throw "Failed to remove credentials", w)
  else removeAllCredentials u w =
         (Ok tt,
          with_biometricCredentials
            (filter (fun d : string * BiometricCredentials.Data =>
                       BiometricCredentials.userId d.2 ≠ u) (biometricCredentials w)) w)
       ∧ hasRegisteredCredentials env u (removeAllCredentials u w).2
         = (Ok false, (removeAllCredentials u w).2).
Proof.
  intros Hu.
  assert (removeAllCredentials u w =
            if decide (u = "")
            then (Throw "Failed to remove credentials", w)
            else (Ok tt,
                  with_biometricCredentials
                    (filter (fun d : string * BiometricCredentials.Data =>
                               BiometricCredentials.userId d.2 ≠ u) (biometricCredentials w)) w))
    as Hrun.
  { unfold removeAllCredentials, catch, mbind, M_bind, fetch_credentials.
    destruct (parse_userId u Hu) as [-> ->].
    destruct (decide (u = "")) as [->|Hne].
    - simpl. by rewrite with_same_credentials.
    - rewrite CredentialRouteFacts.credential_DELETE_run
        by (simpl; by rewrite (truthy_true u Hne)).
      simpl. do 2 f_equal.
      apply list_filter_iff. intros d. unfold BiometricCredentials.credentialsQuery. simpl.
      rewrite bool_decide_spec. split; [intros H ?|intros H [= ?]]; by apply H; f_equal. }
  rewrite Hrun. destruct (decide (u = "")) as [->|Hne]; [done|]. split; [done|].
  simpl. rewrite (hasRegisteredCredentials_run env u _ Hu). simpl.
  rewrite (CredentialRouteFacts.filter_removed
             (fun d : string * BiometricCredentials.Data => BiometricCredentials.userId d.2 = u)
             (fun d : string * BiometricCredentials.Data => BiometricCredentials.userId d.2 = u))
    by done.
  rewrite bool_decide_true by done. by rewrite andb_false_r.
Qed.

Lemma removeAllCredentials_removes_the_users_documents_witness :
  if decide ("u1" = "")
  then removeAllCredentials "u1" (world_of store_u1)
       = (Throw "Failed to remove credentials", world_of store_u1)
  else removeAllCredentials "u1" (world_of store_u1) =
         (Ok tt,
          with_biometricCredentials
            (filter (fun d : string * BiometricCredentials.Data =>
                       BiometricCredentials.userId d.2 ≠ "u1")
               (biometricCredentials (world_of store_u1))) (world_of store_u1))
       ∧ hasRegisteredCredentials env_123 "u1" (removeAllCredentials "u1" (world_of store_u1)).2
         = (Ok false, (removeAllCredentials "u1" (world_of store_u1)).2).
Proof.
  apply (removeAllCredentials_removes_the_users_documents env_123 "u1" (world_of store_u1)).
  reflexivity.
Defined.

End CredentialQueriesFacts.

(** ** Verification by utils/biometricAuthServer.ts *)

Module ServerVerificationFacts.
Import Http World Browser.
Import BiometricCredentialsFacts VerificationFacts.

(** The number four bytes, or none, stand for, least significant first. *)
Definition uint32_le (bytes : list byte) : Z :=
  foldr (fun b acc => Z.of_N (Byte.to_N b) + 256 * acc) 0 bytes.

Lemma byte_range (b : byte) : 0 ≤ Z.of_N (Byte.to_N b) < 256.
Proof. pose proof (Byte.to_N_bounded b). lia. Qed.

(** What the constructor and the element access make of the slice. *)
Lemma Uint32Array_0_slice (signature : list byte) :
  let n := List.length signature in
  if decide (34 ≤ n ≤ 36)%nat
  then ∃ m, BiometricAuthServer.Uint32Array_0 (BiometricAuthServer.slice 33 37 signature)
            = Throw m
  else ∃ element,
         BiometricAuthServer.Uint32Array_0 (BiometricAuthServer.slice 33 37 signature)
         = Ok element
         ∧ JS.or_zero element = uint32_le (BiometricAuthServer.slice 33 37 signature).
Proof.
  intros n. subst n. unfold BiometricAuthServer.slice.
  assert (List.length (take (37 - 33) (drop 33 signature))
          = (4 `min` (List.length signature - 33))%nat) as Hlen.
  { rewrite length_take, length_drop. lia. }
  unfold BiometricAuthServer.Uint32Array_0.
  destruct (take (37 - 33) (drop 33 signature)) as [|b0 [|b1 [|b2 [|b3 [|b4 l]]]]];
    cbn [List.length] in Hlen; simpl.
  - rewrite decide_False by lia. by eexists.
  - rewrite decide_True by lia. by eexists.
  - rewrite decide_True by lia. by eexists.
  - rewrite decide_True by lia. by eexists.
  - rewrite decide_False by lia. eexists. split; [done|].
    unfold JS.or_zero.
    destruct (Z.eqb_spec (Z.of_N (Byte.to_N b0) + 256 * Z.of_N (Byte.to_N b1)
                          + 65536 * Z.of_N (Byte.to_N b2)
                          + 16777216 * Z.of_N (Byte.to_N b3)) 0) as [Heq|Hne]; lia.
  - lia.
Qed.

(** The prologue of the methods of the singleton. *)
Lemma initialized (env : Env) (w : World) :
  isInitialized w = true ∨ available env = true →
  (if negb (isInitialized w) then BiometricAuthServer.initialize env else mret tt) w
  = (Ok tt, with_isInitialized true w).
Proof.
  intros Hi. destruct (isInitialized w) eqn:Hw; simpl.
  - unfold mret, M_ret. f_equal. destruct w; simpl in *; by subst.
  - destruct Hi as [|Ha]; [done|]. unfold BiometricAuthServer.initialize.
    unfold available in Ha. apply andb_prop in Ha as [Hp Ha]. rewrite Hp. simpl.
    unfold mbind, M_bind, BiometricAuthServer.isBiometricAvailable.
    rewrite isBiometricAvailable_run. unfold available. rewrite Hp, Ha. done.
Qed.

(** The verification of a stored credential, up to the typed array. *)
Lemma server_authenticateUser_run (env : Env) (w : World) (assertion : Assertion)
    (d : string * BiometricCredentials.Data) (rest : list (string * BiometricCredentials.Data)) :
  isInitialized w = true ∨ available env = true →
  credentials_get env = Ok (Some assertion) →
  rawId assertion ≠ [] →
  filter (fun d : string * BiometricCredentials.Data =>
            BiometricCredentials.credentialId d.2
            = BiometricAuthClient.arrayBufferToBase64url (rawId assertion))
    (biometricCredentials w) = d :: rest →
  BiometricAuthServer.authenticateUser env w =
    match BiometricAuthServer.Uint32Array_0
            (BiometricAuthServer.slice 33 37 (signature assertion)) with
    | Throw m =>
        (Ok (BiometricAuthServer.failed "Authentication failed" m), with_isInitialized true w)
    | Ok element =>
        (Ok {| Types.success := true;
               Types.credentialId :=
                 Some (BiometricAuthClient.arrayBufferToBase64url (rawId assertion));
               Types.userId := Some (BiometricCredentials.userId d.2);
               Types.error := None |},
         with_biometricCredentials
           (CredentialRouteFacts.touch_first (now env) (JS.or_zero element)
              (BiometricAuthClient.arrayBufferToBase64url (rawId assertion))
              (biometricCredentials w))
           (with_isInitialized true w))
    end.
Proof.
  intros Hi Hget Hraw Hf.
  set (C := BiometricAuthClient.arrayBufferToBase64url (rawId assertion)) in *.
  assert (C ≠ "") as HC by by apply IdentifierFacts.arrayBufferToBase64url_nonempty.
  assert (C ∈ credentialIds (biometricCredentials w)) as Hin.
  { assert (d ∈ filter (fun d : string * BiometricCredentials.Data =>
                          BiometricCredentials.credentialId d.2 = C) (biometricCredentials w))
      as Hx by (rewrite Hf; apply list_elem_of_here).
    apply list_elem_of_filter in Hx as [Hc Hd]. apply list_elem_of_fmap. by exists d. }
  unfold BiometricAuthServer.authenticateUser.
  unfold mbind at 1, M_bind at 1, get. unfold mbind at 1, M_bind at 1.
  rewrite (initialized env w Hi).
  unfold catch, mbind, M_bind, lift. rewrite Hget.
  unfold BiometricAuthServer.arrayBufferToBase64url. fold C.
  rewrite (Base64Facts.url_query_value_safe C)
    by apply Base64Facts.arrayBufferToBase64url_safe.
  unfold fetch_credentials at 1.
  rewrite (GET_by_credentialId (now env) C _ HC).
  change (biometricCredentials (with_isInitialized true w)) with (biometricCredentials w).
  rewrite Hf. simpl.
  destruct (BiometricAuthServer.Uint32Array_0 _) as [element|m]; [|done].
  unfold fetch_credentials.
  rewrite (CredentialRouteFacts.credential_PUT_run (now env) _ C) by done.
  simpl biometricCredentials. by rewrite decide_True by done.
Qed.

(** The verification of [biometricAuthServer] reads the signature counter
    from the bytes 33 to 36 of the signature.  For a stored credential it
    succeeds, and stores the number those four bytes stand for (0 when
    the signature has at most 33 bytes) in the first document with the
    identifier, exactly when the signature does not have 34, 35 or 36
    bytes; with 34, 35 or 36 bytes the typed array cannot be built, the
    verification fails and the store stays as it was. *)
Theorem server_authenticateUser_by_signature_length
    (env : Env) (w : World) (assertion : Assertion)
    (d : string * BiometricCredentials.Data) (rest : list (string * BiometricCredentials.Data)) :
  isInitialized w = true ∨ available env = true →
  credentials_get env = Ok (Some assertion) →
  rawId assertion ≠ [] →
  filter (fun d : string * BiometricCredentials.Data =>
            BiometricCredentials.credentialId d.2
            = BiometricAuthClient.arrayBufferToBase64url (rawId assertion))
    (biometricCredentials w) = d :: rest →
  if decide (34 ≤ List.length (signature assertion) ≤ 36)%nat
  then ∃ m, BiometricAuthServer.authenticateUser env w
            = (Ok {| Types.success := false; Types.credentialId := None;
                     Types.userId := None; Types.error := Some m |},
               with_isInitialized true w)
  else BiometricAuthServer.authenticateUser env w =
         (Ok {| Types.success := true;
                Types.credentialId :=
                  Some (BiometricAuthClient.arrayBufferToBase64url (rawId assertion));
                Types.userId := Some (BiometricCredentials.userId d.2);
                Types.error := None |},
          with_biometricCredentials
            (CredentialRouteFacts.touch_first (now env)
               (uint32_le (BiometricAuthServer.slice 33 37 (signature assertion)))
               (BiometricAuthClient.arrayBufferToBase64url (rawId assertion))
               (biometricCredentials w))
            (with_isInitialized true w)).
Proof.
  intros Hi Hget Hraw Hf.
  rewrite (server_authenticateUser_run env w assertion d rest Hi Hget Hraw Hf).
  pose proof (Uint32Array_0_slice (signature assertion)) as Hsig. simpl in Hsig.
  destruct (decide (34 ≤ List.length (signature assertion) ≤ 36)%nat) as [Hn|Hn].
  - destruct Hsig as [m ->]. by eexists.
  - destruct Hsig as (element & -> & ->). done.
Qed.

(** A browser whose authenticator signs with the given bytes for the
    credential 1, 2, 3. *)
Definition env_signature (signature' : list byte) : Env :=
  {| PublicKeyCredential := true;
     isUserVerifyingPlatformAuthenticatorAvailable := Ok true;
     credentials_create := Ok None;
     credentials_get := Ok (Some {| rawId := [x01; x02; x03]; signature := signature' |});
     userAgent := "Mozilla/5.0";
     now := 1000;
     fresh := "doc9";
     addDoc_securityLogs := fun _ => Ok tt |}.

Lemma server_authenticateUser_by_signature_length_witness :
  if decide (34 ≤ List.length (replicate 35 x00) ≤ 36)%nat
  then ∃ m, BiometricAuthServer.authenticateUser (env_signature (replicate 35 x00))
              (world_of store_u1)
            = (Ok {| Types.success := false; Types.credentialId := None;
                     Types.userId := None; Types.error := Some m |},
               with_isInitialized true (world_of store_u1))
  else BiometricAuthServer.authenticateUser (env_signature (replicate 35 x00))
         (world_of store_u1) =
         (Ok {| Types.success := true;
                Types.credentialId :=
                  Some (BiometricAuthClient.arrayBufferToBase64url [x01; x02; x03]);
                Types.userId := Some "u1";
                Types.error := None |},
          with_biometricCredentials
            (CredentialRouteFacts.touch_first 1000
               (uint32_le (BiometricAuthServer.slice 33 37 (replicate 35 x00)))
               (BiometricAuthClient.arrayBufferToBase64url [x01; x02; x03])
               (biometricCredentials (world_of store_u1)))
            (with_isInitialized true (world_of store_u1))).
Proof.
  apply (server_authenticateUser_by_signature_length (env_signature (replicate 35 x00))
           (world_of store_u1) {| rawId := [x01; x02; x03]; signature := replicate 35 x00 |}
           ("doc1", {| BiometricCredentials.userId := "u1";
                       BiometricCredentials.publicKey := "cGs=";
                       BiometricCredentials.credentialId := "AQID";
                       BiometricCredentials.counter := 0;
                       BiometricCredentials.deviceInfo := None;
                       BiometricCredentials.createdAt := Some 5;
                       BiometricCredentials.lastUsed := None |}) []);
    try reflexivity.
  - by left.
  - discriminate.
Defined.

End ServerVerificationFacts.

(** ** Encrypting and decrypting an object *)

Module ObjectCipherFacts.
Import Encryption EncryptionFacts.

Section Laws.
Context `{CryptoJS}.
Variable key : option string.

(** The ciphertext [encrypt] returns. *)
Definition cipher (salt data : string) : string :=
  match encrypt key salt data with
  | Ok c => c
  | Throw _ => ""
  end.

Lemma encrypt_cipher (salt data : string) :
  encrypt key salt data = Ok (cipher salt data)
  ∧ AES_decrypt_Utf8 (cipher salt data) (ENCRYPTION_KEY key) = Ok data.
Proof.
  unfold cipher. by destruct (encrypt_ok key salt data) as (c & -> & Hd).
Qed.

(** One turn of the loop of [encryptObject]. *)
Definition encrypt_entry (salt : string → string) (acc : gmap string string)
    (e : string * option string) : gmap string string :=
  match e.2 with
  | Some value => <[e.1 := cipher (salt e.1) value]> acc
  | None => acc
  end.

Lemma encryptObject_loop (salt : string → string) (l : list (string * option string))
    (acc : gmap string string) :
  for_of l acc
    (fun '(key', value) encrypted =>
       match value with
       | Some value =>
           c ← encrypt key (salt key') value;
           Ok (<[key' := c]> encrypted)
       | None => Ok encrypted
       end)
  = Ok (foldl (encrypt_entry salt) acc l).
Proof.
  revert acc. induction l as [|[k [v|]] l IH]; intros acc; simpl; [done| |apply IH].
  destruct (encrypt_cipher (salt k) v) as [-> _]. simpl. apply IH.
Qed.

Lemma lookup_foldl_encrypt_entry (salt : string → string)
    (l : list (string * option string)) (acc : gmap string string) (k : string) :
  NoDup l.*1 →
  foldl (encrypt_entry salt) acc l !! k =
    match (list_to_map l : gmap string (option string)) !! k with
    | Some (Some value) => Some (cipher (salt k) value)
    | Some None => acc !! k
    | None => acc !! k
    end.
Proof.
  revert acc. induction l as [|[k0 v0] l IH]; intros acc Hnd; simpl.
  - by rewrite lookup_empty.
  - apply NoDup_cons in Hnd as [Hk0 Hnd]. rewrite IH by done.
    destruct (decide (k0 = k)) as [->|Hne].
    + rewrite lookup_insert_eq.
      rewrite (not_elem_of_list_to_map_1 _ k) by done.
      unfold encrypt_entry. simpl.
      destruct v0 as [v|]; [by rewrite lookup_insert_eq|done].
    + rewrite lookup_insert_ne by done.
      destruct (list_to_map l !! k) as [[v|]|]; [done| |];
        unfold encrypt_entry; simpl;
        (destruct v0 as [v0|]; [by rewrite lookup_insert_ne|done]).
Qed.

(** [encryptObject] never throws, and encrypts the fields that have a
    value. *)
Lemma encryptObject_run (salt : string → string) (obj : gmap string (option string)) :
  ∃ encrypted,
    encryptObject key salt obj = Ok encrypted
    ∧ ∀ k, encrypted !! k =
        match obj !! k with
        | Some (Some value) => Some (cipher (salt k) value)
        | _ => None
        end.
Proof.
  eexists. split.
  - unfold encryptObject. apply encryptObject_loop.
  - intros k. rewrite lookup_foldl_encrypt_entry by apply NoDup_fst_map_to_list.
    rewrite list_to_map_to_list, lookup_empty.
    by destruct (obj !! k) as [[v|]|].
Qed.

(** [decryptObject] never throws; its fields. *)
Lemma decryptObject_run (encryptedObj : gmap string string) :
  ∃ decrypted,
    decryptObject key encryptedObj = Ok decrypted
    ∧ ∀ k, decrypted !! k = encryptedObj !! k ≫= decrypted_field key.
Proof.
  eexists. split.
  - unfold decryptObject. apply decryptObject_loop.
  - intros k. rewrite lookup_foldl_decrypt_entry by apply NoDup_fst_map_to_list.
    rewrite list_to_map_to_list, lookup_empty.
    by destruct (encryptedObj !! k ≫= decrypted_field key).
Qed.

(** The library never returns the empty string as a ciphertext: what
    [CryptoJS.AES.encrypt(..).toString()] returns begins with the base64
    form of [Salted__]. *)
Hypothesis ciphertext_nonempty :
  ∀ data pass salt c, AES_encrypt data pass salt = Ok c → c ≠ "".

Lemma cipher_nonempty (salt data : string) : JS.truthy (cipher salt data) = true.
Proof.
  destruct (encrypt_cipher salt data) as [He _]. unfold encrypt in He.
  destruct (AES_encrypt data (ENCRYPTION_KEY key) salt) as [c|e] eqn:Hc; [|done].
  simpl in He. injection He as <-. apply truthy_nonempty. by eapply ciphertext_nonempty.
Qed.

Lemma decrypted_field_cipher (salt data : string) :
  decrypted_field key (cipher salt data)
  = Some (if JS.truthy data then data else "[DECRYPTION_FAILED]").
Proof.
  unfold decrypted_field. rewrite cipher_nonempty, decrypt_cases.
  destruct (encrypt_cipher salt data) as [_ ->]. by destruct data.
Qed.

(** Decrypting the encryption of an object gives back every field that
    holds a non-empty string; a field that holds the empty string comes
    back as "[DECRYPTION_FAILED]", and a field that is [null] or
    [undefined] is left out.  Neither function throws. *)
Theorem decryptObject_encryptObject
    (salt : string → string) (obj : gmap string (option string)) :
  ∃ encrypted decrypted,
    encryptObject key salt obj = Ok encrypted
    ∧ decryptObject key encrypted = Ok decrypted
    ∧ ∀ k, decrypted !! k =
        match obj !! k with
        | Some (Some value) =>
            Some (if JS.truthy value then value else "[DECRYPTION_FAILED]")
        | _ => None
        end.
Proof.
  destruct (encryptObject_run salt obj) as (encrypted & He & Hfields).
  destruct (decryptObject_run encrypted) as (decrypted & Hd & Hplain).
  exists encrypted, decrypted. split; [done|]. split; [done|].
  intros k. rewrite Hplain, Hfields.
  destruct (obj !! k) as [[v|]|]; simpl; [|done..].
  apply decrypted_field_cipher.
Qed.

End Laws.

Lemma demo_ciphertext_nonempty (data pass salt c : string) :
  AES_encrypt data pass salt = Ok c → c ≠ "".
Proof. simpl. unfold demo_encrypt. intros [= <-]. by destruct pass. Qed.

(** An object with a card number, an empty nickname and no bank name. *)
Definition card_fields : gmap string (option string) :=
  {[ "cardNumber" := Some "4111"; "nickname" := Some ""; "bankName" := None ]}.

Lemma decryptObject_encryptObject_witness :
  ∃ encrypted decrypted,
    encryptObject None (fun _ => "salt") card_fields = Ok encrypted
    ∧ decryptObject None encrypted = Ok decrypted
    ∧ ∀ k, decrypted !! k =
        match card_fields !! k with
        | Some (Some value) =>
            Some (if JS.truthy value then value else "[DECRYPTION_FAILED]")
        | _ => None
        end.
Proof.
  apply (decryptObject_encryptObject None demo_ciphertext_nonempty (fun _ => "salt")
           card_fields).
Defined.

End ObjectCipherFacts.


(** ** The credit card route *)

Module CreditCardFacts.
Import Http Encryption CreditCards.

Section Laws.
Context `{CryptoJS}.
Variable key : option string.

(** A stored sensitive field as [GET] shows it: decrypted, marked when it
    cannot be decrypted, and as it is when it is empty or missing. *)
Definition shown (stored : option string) : option string :=
  match stored ≫= decrypted_field key with
  | Some plain => Some plain
  | None => stored
  end.

(** A stamp [GET] can read: a time stamp, or none. *)
Definition readable (stamp : option Stamp) : bool :=
  match stamp with
  | None | Some (Timestamp _) | Some (Passed JNull) => true
  | Some (Passed _) => false
  end.

Definition timed (data : Data) : bool :=
  readable (createdAt data) && readable (updatedAt data).

(** The date of a stamp, [now] when there is none. *)
Definition date (stamp : option Stamp) (now : Z) : Z :=
  match stamp with
  | Some (Timestamp t) => t
  | _ => now
  end.

(** The entry of the answer of [GET] for the [i]-th document found, when
    its stamps can be read. *)
Definition card_of (clock : nat → Z) (i : nat) (d : string * Data) : CreditCard :=
  {| card_id := d.1;
     card_userId := userId d.2;
     card_cardNumber := shown (cardNumber d.2);
     card_cardholderName := shown (cardholderName d.2);
     card_expiryMonth := shown (expiryMonth d.2);
     card_expiryYear := shown (expiryYear d.2);
     card_cvv := shown (cvv d.2);
     card_bankName := bankName d.2;
     card_cardType := cardType d.2;
     card_nickname := nickname d.2;
     card_isDefault := isDefault d.2;
     card_createdAt := date (createdAt d.2) (clock (2 * i)%nat);
     card_updatedAt := date (updatedAt d.2) (clock (2 * i + 1)%nat);
     card_others := others d.2 |}.

(** What [GET] makes of the [i]-th document found. *)
Definition entry (clock : nat → Z) (i : nat) (d : string * Data) : option CreditCard :=
  if timed d.2 then Some (card_of clock i d) else None.

Lemma lookup_fields (a b c d e : option string) :
  let obj := fields [("cardNumber", a); ("cardholderName", b); ("expiryMonth", c);
                     ("expiryYear", d); ("cvv", e)] in
  obj !! "cardNumber" = a ∧ obj !! "cardholderName" = b ∧ obj !! "expiryMonth" = c
  ∧ obj !! "expiryYear" = d ∧ obj !! "cvv" = e.
Proof. destruct a, b, c, d, e; repeat split; reflexivity. Qed.

Lemma omap_id_imap_Some {A B} (f : nat → A → B) (l : list A) :
  omap id (imap (fun i x => Some (f i x)) l) = imap f l.
Proof.
  revert f. induction l as [|x l IH]; intros f; [done|].
  simpl. f_equal. apply IH.
Qed.

Lemma imap_snapshot {A B} (f : nat → A → B) (snapshot : list (nat * A)) :
  imap (fun i (d : nat * A) => f i d.2) snapshot = imap f snapshot.*2.
Proof. by rewrite imap_fmap. Qed.

Lemma toDate_run (field : string) (stamp : option Stamp) (now : Z) :
  match toDate field stamp now with
  | Ok t => readable stamp = true ∧ t = date stamp now
  | Throw _ => readable stamp = false
  end.
Proof. by destruct stamp as [[t|[]]|]. Qed.

(** [GET] for a user: the entries of the documents of the user, in the
    order of the collection. *)
Lemma card_GET_run (clock : nat → Z) (u : string) (store : Store) :
  u ≠ "" →
  GET key clock (Some u) store =
    (json (Cards (omap id (imap (entry clock)
                             (filter (fun d : string * Data => userId d.2 = u) store)))) 200,
     store).
Proof.
  intros Hu. unfold GET. simpl JS.truthy_opt.
  rewrite (BiometricCredentialsFacts.truthy_true u Hu). simpl negb. cbv iota.
  destruct (FirestoreFacts.getDocs_docs (fun d => bool_decide (Some (userId d) = Some u)) store)
    as (snap & Hq & Hdocs).
  rewrite Hq. simpl. unfold or_500. do 3 f_equal.
  assert (filter (fun d : string * Data => userId d.2 = u) store = snap.*2) as ->.
  { rewrite Hdocs. apply list_filter_iff. intros d. rewrite bool_decide_spec.
    split; congruence. }
  rewrite <- (imap_snapshot (entry clock)).
  f_equal. apply imap_ext. intros i [n [id data]] _. simpl.
  destruct (ObjectCipherFacts.decryptObject_run key
              (fields [("cardNumber", cardNumber data);
                       ("cardholderName", cardholderName data);
                       ("expiryMonth", expiryMonth data);
                       ("expiryYear", expiryYear data);
                       ("cvv", cvv data)])) as (decrypted & -> & Hfields).
  cbn [mbind result_bind]. unfold entry, timed, card_of. cbn [snd fst].
  rewrite !Hfields.
  destruct (lookup_fields (cardNumber data) (cardholderName data) (expiryMonth data)
              (expiryYear data) (cvv data)) as (-> & -> & -> & -> & ->).
  change (2 * i)%nat with (i + (i + 0))%nat.
  generalize (clock (i + (i + 0))%nat) (clock (i + (i + 0) + 1)%nat). intros now1 now2.
  by destruct (createdAt data) as [[t|[]]|], (updatedAt data) as [[t'|[]]|].
Qed.

Lemma entries_ids_from (clock : nat → Z) (k : nat) (docs : list (string * Data)) :
  card_id <$> omap id (imap (fun i => entry clock (k + i)) docs)
  = (filter (fun d : string * Data => timed d.2 = true) docs).*1.
Proof.
  revert k. induction docs as [|d docs IH]; intros k; [done|].
  rewrite imap_cons. cbn [omap list_omap]. unfold entry at 1.
  rewrite (imap_ext _ (fun i => entry clock (S k + i)))
    by (intros i x _; unfold compose; f_equal; lia).
  destruct (timed d.2) eqn:Ht; cbn [id].
  - rewrite filter_cons_True by done. rewrite !fmap_cons. f_equal. apply IH.
  - rewrite filter_cons_False by (by rewrite Ht). apply IH.
Qed.

Lemma entries_ids (clock : nat → Z) (docs : list (string * Data)) :
  card_id <$> omap id (imap (entry clock) docs)
  = (filter (fun d : string * Data => timed d.2 = true) docs).*1.
Proof. apply (entries_ids_from clock 0). Qed.

Lemma entries_elem (clock : nat → Z) (docs : list (string * Data)) (card : CreditCard) :
  card ∈ omap id (imap (entry clock) docs)
  ↔ ∃ i d, docs !! i = Some d ∧ timed d.2 = true ∧ card = card_of clock i d.
Proof.
  rewrite list_elem_of_omap. split.
  - intros (e & He & Hid). apply elem_of_lookup_imap in He as (i & d & -> & Hd).
    exists i, d. split; [done|]. unfold entry, id in Hid.
    destruct (timed d.2); [|done]. split; [done|]. congruence.
  - intros (i & d & Hd & Ht & ->). exists (entry clock i d). split.
    + by apply elem_of_lookup_imap_2.
    + unfold entry. by rewrite Ht.
Qed.

(** [GET] answers a request for a user with the cards of the documents of
    that user whose [createdAt] and [updatedAt] it can read, in the order
    of the collection, and changes nothing.  A document is skipped exactly
    when one of the two fields holds a value that is no time stamp (and
    not [null]), as a [PUT] with a field [createdAt] leaves it; no
    document is skipped for its ciphertexts, since [decryptObject] does
    not throw: a field that cannot be decrypted shows as
    "[DECRYPTION_FAILED]", and an empty or missing field as it is
    stored. *)
Theorem GET_skips_only_unreadable_time_stamps
    (clock : nat → Z) (u : string) (store : Store) :
  u ≠ "" →
  ∃ cards,
    GET key clock (Some u) store = (json (Cards cards) 200, store)
    ∧ card_id <$> cards
      = (filter (fun d : string * Data => timed d.2 = true ∧ userId d.2 = u) store).*1
    ∧ ∀ card,
        card ∈ cards
        ↔ ∃ i d, filter (fun d : string * Data => userId d.2 = u) store !! i = Some d
                 ∧ timed d.2 = true ∧ card = card_of clock i d.
Proof.
  intros Hu. rewrite (card_GET_run clock u store Hu). eexists. split; [done|].
  split; [|apply entries_elem].
  by rewrite entries_ids, list_filter_filter.
Qed.

(** A body [POST] accepts: the user and the five sensitive fields are
    non-empty strings. *)
Definition acceptable (body : PostBody) : bool :=
  JS.truthy_opt (post_userId body) && JS.truthy_opt (post_cardNumber body)
  && JS.truthy_opt (post_cardholderName body) && JS.truthy_opt (post_expiryMonth body)
  && JS.truthy_opt (post_expiryYear body) && JS.truthy_opt (post_cvv body).

(** The document [POST] stores. *)
Definition posted (now now' : Z) (salt : string → string) (body : PostBody) : Data :=
  let encrypted (field : string) (value : option string) :=
    ObjectCipherFacts.cipher key (salt field) <$> value in
  {| userId := default "" (post_userId body);
     cardNumber := encrypted "cardNumber" (post_cardNumber body);
     cardholderName := encrypted "cardholderName" (post_cardholderName body);
     expiryMonth := encrypted "expiryMonth" (post_expiryMonth body);
     expiryYear := encrypted "expiryYear" (post_expiryYear body);
     cvv := encrypted "cvv" (post_cvv body);
     bankName := JS.or_else (post_bankName body) "";
     cardType := JS.or_else (post_cardType body) "other";
     nickname := JS.or_else (post_nickname body) "";
     isDefault := default false (post_isDefault body);
     createdAt := Some (Timestamp now);
     updatedAt := Some (Timestamp now');
     others := ∅ |}.

Lemma lookup_sensitive (a b c d e : option string) :
  let obj : gmap string (option string) :=
    list_to_map [("cardNumber", a); ("cardholderName", b); ("expiryMonth", c);
                 ("expiryYear", d); ("cvv", e)] in
  obj !! "cardNumber" = Some a ∧ obj !! "cardholderName" = Some b
  ∧ obj !! "expiryMonth" = Some c ∧ obj !! "expiryYear" = Some d ∧ obj !! "cvv" = Some e.
Proof. repeat split; reflexivity. Qed.

Lemma card_POST_run (now now' : Z) (fresh : string) (salt : string → string)
    (body : PostBody) (store : Store) :
  POST key now now' fresh salt body store =
    if acceptable body
    then (json (Stored fresh "Credit card added successfully") 201,
          store ++ [(fresh, posted now now' salt body)])
    else (json (Error "Missing required fields") 400, store).
Proof.
  unfold POST, acceptable.
  destruct (JS.truthy_opt (post_userId body)); [|done].
  destruct (JS.truthy_opt (post_cardNumber body)); [|done].
  destruct (JS.truthy_opt (post_cardholderName body)); [|done].
  destruct (JS.truthy_opt (post_expiryMonth body)); [|done].
  destruct (JS.truthy_opt (post_expiryYear body)); [|done].
  destruct (JS.truthy_opt (post_cvv body)); [|done]. cbn [negb orb].
  destruct (ObjectCipherFacts.encryptObject_run key salt
              (list_to_map [("cardNumber", post_cardNumber body);
                            ("cardholderName", post_cardholderName body);
                            ("expiryMonth", post_expiryMonth body);
                            ("expiryYear", post_expiryYear body);
                            ("cvv", post_cvv body)])) as (encrypted & -> & Hfields).
  simpl. unfold or_500, posted. do 4 f_equal.
  rewrite !Hfields.
  destruct (lookup_sensitive (post_cardNumber body) (post_cardholderName body)
              (post_expiryMonth body) (post_expiryYear body) (post_cvv body))
    as (-> & -> & -> & -> & ->).
  by destruct (post_cardNumber body), (post_cardholderName body), (post_expiryMonth body),
       (post_expiryYear body), (post_cvv body).
Qed.

(** [DELETE] for an identifier that names a document of the collection,
    and a user identifier that is not empty.  The user identifier is not
    used any further. *)
Lemma card_DELETE_run (id x u : string) (store : Store) :
  id ≠ "" → u ≠ "" →
  Firestore.reference id = Ok (Firestore.Document x) →
  DELETE (Some id) (Some u) store =
    (json (Message "Credit card deleted successfully") 200,
     filter (fun d : string * Data => d.1 ≠ x) store).
Proof.
  intros Hid Hu Href. unfold DELETE, deleteDoc. simpl JS.truthy_opt.
  rewrite !BiometricCredentialsFacts.truthy_true by done. cbn [negb orb].
  by rewrite Href.
Qed.

(** [DELETE] removes the card whose identifier it is given, whoever owns
    it: any non-empty [userId] will do, and the card is gone from the
    cards of every user.  This is for an identifier of letters and
    digits, such as those of the cards: [doc] reads the identifier as a
    path, and for two such identifiers with a slash between them it
    throws, so that the answer is 500 and nothing is deleted. *)
Theorem DELETE_does_not_check_the_owner
    (clock : nat → Z) (id u owner : string) (store : Store) :
  Firestore.plain_id id = true → u ≠ "" → owner ≠ "" →
  DELETE (Some id) (Some u) store =
    (json (Message "Credit card deleted successfully") 200,
     filter (fun d : string * Data => d.1 ≠ id) store)
  ∧ (∃ cards,
       (GET key clock (Some owner) (DELETE (Some id) (Some u) store).2).1
         = json (Cards cards) 200
       ∧ Forall (fun card => card_id card ≠ id) cards)
  ∧ ∀ other, Firestore.plain_id other = true →
      DELETE (Some (id +:+ String "/" other)) (Some u) store
      = (json (Error "Failed to delete credit card") 500, store).
Proof.
  intros Hplain Hu Ho.
  assert (id ≠ "") as Hid by (by destruct id).
  rewrite (card_DELETE_run id id u store Hid Hu (FirestoreFacts.reference_plain id Hplain)).
  split; [done|]. split.
  - simpl. rewrite card_GET_run by done. eexists. split; [done|].
    apply Forall_forall. intros card Hcard.
    apply entries_elem in Hcard as (i & d & Hd & _ & ->). simpl.
    apply list_elem_of_lookup_2, list_elem_of_filter in Hd as [_ Hd].
    by apply list_elem_of_filter in Hd as [Hd _].
  - intros other Hother.
    destruct (FirestoreFacts.doc_two_segments id other Hplain Hother) as (e & _ & Href).
    unfold DELETE, deleteDoc. simpl JS.truthy_opt.
    rewrite (BiometricCredentialsFacts.truthy_true u Hu).
    rewrite BiometricCredentialsFacts.truthy_true by (by destruct id).
    cbn [negb orb]. by rewrite Href.
Qed.




(** The library never returns the empty string as a ciphertext. *)
Hypothesis ciphertext_nonempty :
  ∀ data pass salt c, AES_encrypt data pass salt = Ok c → c ≠ "".

Lemma shown_cipher (salt value : string) :
  value ≠ "" → shown (Some (ObjectCipherFacts.cipher key salt value)) = Some value.
Proof.
  intros Hv. unfold shown. simpl.
  rewrite (ObjectCipherFacts.decrypted_field_cipher key ciphertext_nonempty).
  by rewrite BiometricCredentialsFacts.truthy_true.
Qed.

(** The card [GET] shows for a body that [POST] accepted. *)
Definition posted_card (now now' : Z) (fresh : string) (body : PostBody) : CreditCard :=
  {| card_id := fresh;
     card_userId := default "" (post_userId body);
     card_cardNumber := post_cardNumber body;
     card_cardholderName := post_cardholderName body;
     card_expiryMonth := post_expiryMonth body;
     card_expiryYear := post_expiryYear body;
     card_cvv := post_cvv body;
     card_bankName := JS.or_else (post_bankName body) "";
     card_cardType := JS.or_else (post_cardType body) "other";
     card_nickname := JS.or_else (post_nickname body) "";
     card_isDefault := default false (post_isDefault body);
     card_createdAt := now;
     card_updatedAt := now';
     card_others := ∅ |}.

(** A card that [POST] accepted is among the cards [GET] returns for its
    user afterwards, with the card number, holder, expiry and security
    code in the clear as they were posted, the bank name and nickname that
    were posted (or the empty string), the card type that was posted (or
    "other"), and the times of the request; the identifiers of the cards
    [GET] returns are this one and those it returned before.  Where the
    new card stands among the others is not said: Firestore orders them
    by identifier. *)
Theorem POST_then_GET_shows_the_card
    (now now' : Z) (fresh : string) (salt : string → string) (body : PostBody)
    (store : Store) (clock : nat → Z) (u : string) :
  post_userId body = Some u → acceptable body = true →
  (POST key now now' fresh salt body store).1
    = json (Stored fresh "Credit card added successfully") 201
  ∧ ∃ cards cards',
      (GET key clock (Some u) store).1 = json (Cards cards) 200
      ∧ (GET key clock (Some u) (POST key now now' fresh salt body store).2).1
        = json (Cards cards') 200
      ∧ posted_card now now' fresh body ∈ cards'
      ∧ card_id <$> cards' ≡ₚ fresh :: (card_id <$> cards).
Proof.
  intros Hu Hok. rewrite card_POST_run, Hok.
  assert (u ≠ "") as Hu'.
  { unfold acceptable in Hok. rewrite Hu in Hok. simpl in Hok. by destruct u. }
  simpl. split; [done|]. rewrite !card_GET_run by done. eexists _, _.
  split; [done|]. split; [done|].
  rewrite filter_app, imap_app, omap_app.
  rewrite filter_cons_True by (simpl; by rewrite Hu). rewrite filter_nil.
  assert (omap id (imap (fun n => entry clock
                           (List.length (filter (fun d : string * Data => userId d.2 = u)
                                           store) + n))
                     [(fresh, posted now now' salt body)])
          = [posted_card now now' fresh body]) as ->.
  { simpl. unfold entry, timed. simpl. f_equal.
    unfold card_of, posted, posted_card. simpl.
    unfold acceptable in Hok.
    destruct (post_userId body) as [[|? ?]|]; [done| |done].
    destruct (post_cardNumber body) as [[|? ?]|]; [done| |done].
    destruct (post_cardholderName body) as [[|? ?]|]; [done| |done].
    destruct (post_expiryMonth body) as [[|? ?]|]; [done| |done].
    destruct (post_expiryYear body) as [[|? ?]|]; [done| |done].
    destruct (post_cvv body) as [[|? ?]|]; [done| |done].
    simpl. by rewrite !shown_cipher. }
  split; [apply elem_of_app; right; apply list_elem_of_here|].
  rewrite fmap_app. simpl. symmetry. apply Permutation_cons_append.
Qed.





End Laws.

Import EncryptionFacts.

(** A collection with one card of the user [u1], stored by [POST] under
    the demonstration cipher, and the requests used to run the theorems. *)
Definition body_card_u1 : PostBody :=
  {| post_userId := Some "u1"; post_cardNumber := Some "4111111111111111";
     post_cardholderName := Some "A. Holder"; post_expiryMonth := Some "12";
     post_expiryYear := Some "2030"; post_cvv := Some "123";
     post_bankName := Some "Bank"; post_cardType := None; post_nickname := None;
     post_isDefault := None |}.

Definition body_card_u1_second : PostBody :=
  {| post_userId := Some "u1"; post_cardNumber := Some "5500000000000004";
     post_cardholderName := Some "A. Holder"; post_expiryMonth := Some "01";
     post_expiryYear := Some "2031"; post_cvv := Some "321";
     post_bankName := None; post_cardType := Some "credit"; post_nickname := None;
     post_isDefault := Some true |}.

Definition store_card_u1 : Store :=
  (POST None 10 11 "card1" (fun _ => "salt") body_card_u1 []).2.

Definition note : FieldName := "note" ↾ I.

Definition put_cvv_456 : PutBody :=
  {| put_id := Some "card1"; put_userId := Some "u2";
     put_cardNumber := None; put_cardholderName := None; put_expiryMonth := None;
     put_expiryYear := None; put_cvv := Some "456";
     put_bankName := None; put_cardType := None; put_nickname := None;
     put_isDefault := None; put_createdAt := None;
     put_others := {[ note := JString "changed" ]} |}.

Definition put_createdAt_text : PutBody :=
  {| put_id := Some "card1"; put_userId := Some "u2";
     put_cardNumber := None; put_cardholderName := None; put_expiryMonth := None;
     put_expiryYear := None; put_cvv := None;
     put_bankName := None; put_cardType := None; put_nickname := None;
     put_isDefault := None; put_createdAt := Some (JString "2024-01-01T00:00:00.000Z");
     put_others := ∅ |}.

Lemma GET_skips_only_unreadable_time_stamps_witness :
  ∃ cards,
    GET None (fun _ => 0) (Some "u1") store_card_u1 = (json (Cards cards) 200, store_card_u1)
    ∧ card_id <$> cards
      = (filter (fun d : string * Data => timed d.2 = true ∧ userId d.2 = "u1")
           store_card_u1).*1
    ∧ ∀ card,
        card ∈ cards
        ↔ ∃ i d, filter (fun d : string * Data => userId d.2 = "u1") store_card_u1 !! i
                 = Some d
                 ∧ timed d.2 = true ∧ card = card_of None (fun _ => 0) i d.
Proof.
  apply (GET_skips_only_unreadable_time_stamps None (fun _ => 0) "u1" store_card_u1).
  discriminate.
Defined.

Lemma POST_then_GET_shows_the_card_witness :
  (POST None 20 21 "card2" (fun _ => "salt") body_card_u1_second store_card_u1).1
    = json (Stored "card2" "Credit card added successfully") 201
  ∧ ∃ cards cards',
      (GET None (fun _ => 0) (Some "u1") store_card_u1).1 = json (Cards cards) 200
      ∧ (GET None (fun _ => 0) (Some "u1")
           (POST None 20 21 "card2" (fun _ => "salt") body_card_u1_second store_card_u1).2).1
        = json (Cards cards') 200
      ∧ posted_card 20 21 "card2" body_card_u1_second ∈ cards'
      ∧ card_id <$> cards' ≡ₚ "card2" :: (card_id <$> cards).
Proof.
  apply (POST_then_GET_shows_the_card None ObjectCipherFacts.demo_ciphertext_nonempty
           20 21 "card2" (fun _ => "salt") body_card_u1_second store_card_u1 (fun _ => 0)
           "u1"); reflexivity.
Defined.

Lemma DELETE_does_not_check_the_owner_witness :
  DELETE (Some "card1") (Some "u2") store_card_u1 =
    (json (Message "Credit card deleted successfully") 200,
     filter (fun d : string * Data => d.1 ≠ "card1") store_card_u1)
  ∧ (∃ cards,
       (GET None (fun _ => 0) (Some "u1")
          (DELETE (Some "card1") (Some "u2") store_card_u1).2).1
         = json (Cards cards) 200
       ∧ Forall (fun card => card_id card ≠ "card1") cards)
  ∧ ∀ other, Firestore.plain_id other = true →
      DELETE (Some ("card1" +:+ String "/" other)) (Some "u2") store_card_u1
      = (json (Error "Failed to delete credit card") 500, store_card_u1).
Proof.
  apply (DELETE_does_not_check_the_owner None (fun _ => 0) "card1" "u2" "u1" store_card_u1);
    try discriminate.
  reflexivity.
Defined.


(** An identifier with a slash names no document of the collection:
    [doc] throws, and the answer is 500. *)
Example DELETE_path :
  DELETE (Some "a/b") (Some "u1") store_card_u1
  = (json (Error "Failed to delete credit card") 500, store_card_u1)
  ∧ DELETE (Some "/card1/") (Some "u1") store_card_u1
    = (json (Message "Credit card deleted successfully") 200, []).
Proof. split; reflexivity. Qed.

(** The security code and a note are changed by another user; a [PUT]
    that carries [createdAt] makes the card disappear from the answer of
    [GET], although the document is still stored. *)
Example PUT_samples :
  (card_cvv <$> match body (GET None (fun _ => 0) (Some "u1")
                              (PUT None 20 (fun _ => "salt") put_cvv_456 store_card_u1).2).1 with
                | Cards cards => cards
                | _ => []
                end) = [Some "456"]
  ∧ (card_others <$> match body (GET None (fun _ => 0) (Some "u1")
                                   (PUT None 20 (fun _ => "salt") put_cvv_456
                                      store_card_u1).2).1 with
                     | Cards cards => cards
                     | _ => []
                     end) = [{[ note := JString "changed" ]}]
  ∧ (GET None (fun _ => 0) (Some "u1")
       (PUT None 20 (fun _ => "salt") put_createdAt_text store_card_u1).2).1
    = json (Cards []) 200
  ∧ (PUT None 20 (fun _ => "salt") put_createdAt_text store_card_u1).2.*1 = ["card1"].
Proof. repeat split; vm_compute; reflexivity. Qed.

End CreditCardFacts.

(** ** Enrollment and sign-in through [AuthProvider] *)

Module SessionFacts.
Import Http World Browser AuthContext.
Import BiometricCredentialsFacts VerificationFacts AuthContextFacts EnrollmentFacts.

(** The profile [getUserProfile] reads from a document. *)
Definition profile_of (data : Types.UserProfile) : Types.UserProfile :=
  {| Types.profile_uid := Types.profile_uid data;
     Types.profile_email := Types.profile_email data;
     Types.profile_displayName := Types.profile_displayName data;
     Types.profile_photoURL := Types.profile_photoURL data;
     Types.profileCompleted := Types.profileCompleted data || false;
     Types.createdAt := Types.createdAt data;
     Types.lastLoginAt := Types.lastLoginAt data;
     Types.authMethods := Types.authMethods data;
     Types.securitySettings :=
       Some (default defaultSecuritySettings (Types.securitySettings data));
     Types.biometricCredentialId := None |}.

Lemma getUserProfile_run (env : Env) (u : string) (w : World) :
  getUserProfile env u w = (Ok (profile_of <$> users w !! u), w).
Proof.
  unfold getUserProfile, catch, mbind, M_bind, get. simpl.
  by destruct (users w !! u).
Qed.

(** The document [createUserProfile] writes. *)
Definition new_profile (env : Env) (user' : Types.User) : Types.UserProfile :=
  {| Types.profile_uid := Types.uid user';
     Types.profile_email := default "" (Types.email user');
     Types.profile_displayName := JS.or_else (Types.displayName user') "";
     Types.profile_photoURL :=
       if JS.truthy_opt (Types.photoURL user') then Types.photoURL user' else None;
     Types.profileCompleted := false;
     Types.createdAt := now env;
     Types.lastLoginAt := now env;
     Types.authMethods :=
       [ {| Types.type := if JS.truthy_opt (Types.email user') then "email" else "google";
            Types.enabled := true;
            Types.setupAt := now env |} ];
     Types.securitySettings := Some defaultSecuritySettings;
     Types.biometricCredentialId := None |}.

(** The message of [setDoc] for the profile of a user without a photo. *)
Definition no_photo (user' : Types.User) : string :=
  "Function setDoc() called with invalid data. Unsupported field value: "
  +:+ "undefined (found in field photoURL in document users/"
  +:+ Types.uid user' +:+ ")".

Lemma createUserProfile_run (env : Env) (user' : Types.User) (w : World) :
  createUserProfile env user' w =
    if JS.truthy_opt (Types.photoURL user')
    then (Ok tt,
          setUserProfile (Some (new_profile env user'))
            (with_users (<[Types.uid user' := new_profile env user']> (users w)) w))
    else (Throw (no_photo user'), w).
Proof.
  unfold createUserProfile, new_profile, no_photo. simpl.
  by destruct (Types.photoURL user') as [[|a photo]|].
Qed.

(** The document of the user after [setupFaceAuth] has written the flag and
    the identifier of the credential. *)
Definition flagged (credentialId' : option string) (data : Types.UserProfile)
  : Types.UserProfile :=
  {| Types.profile_uid := Types.profile_uid data;
     Types.profile_email := Types.profile_email data;
     Types.profile_displayName := Types.profile_displayName data;
     Types.profile_photoURL := Types.profile_photoURL data;
     Types.profileCompleted := Types.profileCompleted data;
     Types.createdAt := Types.createdAt data;
     Types.lastLoginAt := Types.lastLoginAt data;
     Types.authMethods := Types.authMethods data;
     Types.securitySettings := Types.securitySettings (enable_faceRecognition data);
     Types.biometricCredentialId := credentialId' |}.

Lemma updateDoc_users_run (u c : string) (data : Types.UserProfile) (w : World) :
  users w !! u = Some data →
  updateDoc_users u (Some c) w
  = (Ok tt, with_users (<[u := flagged (Some c) data]> (users w)) w).
Proof.
  intros Hd. unfold updateDoc_users, mbind, M_bind, get. simpl. by rewrite Hd.
Qed.

(** The document of the user when the enrollment starts: the stored one,
    or the one [setupFaceAuth] creates, which it can for a user with a
    photo only. *)
Definition ensured (env : Env) (user' : Types.User) (w : World) : option Types.UserProfile :=
  match users w !! Types.uid user' with
  | Some data => Some data
  | None =>
      if JS.truthy_opt (Types.photoURL user') then Some (new_profile env user') else None
  end.

(** What [setupFaceAuth] leaves behind, by the outcome of the enrollment. *)
Lemma setupFaceAuth_outcome (env : Env) (self : Render) (user' : Types.User) (w : World) :
  render_user self = Some user' →
  ∃ b w',
    setupFaceAuth env self w = (Ok b, w')
    ∧ loading w' = false ∧ user w' = user w
    ∧ match ensured env user' w with
      | Some p =>
          match outcome env (Types.uid user') (biometricCredentials w) with
          | inl att =>
              b = true
              ∧ biometricCredentials w'
                = biometricCredentials w ++ [(fresh env, enrolled env (Types.uid user') att)]
              ∧ users w'
                = <[Types.uid user' :=
                      flagged
                        (Some (BiometricAuthClient.arrayBufferToBase64url (att_rawId att)))
                        p]> (users w)
              ∧ securityLogs w'
                = securityLogs w
                  ++ stored env (event env self "face_auth" "face" true
                                   (Some "Biometric authentication setup completed"))
          | inr message =>
              b = false
              ∧ biometricCredentials w' = biometricCredentials w
              ∧ users w' = <[Types.uid user' := p]> (users w)
              ∧ securityLogs w'
                = securityLogs w
                  ++ stored env (event env self "face_auth" "face" false
                                   (Some (JS.or_else (Some message)
                                            "Failed to register biometric credential")))
          end
      | None =>
          b = false
          ∧ biometricCredentials w' = biometricCredentials w
          ∧ users w' = users w
          ∧ securityLogs w'
            = securityLogs w
              ++ stored env (event env self "face_auth" "face" false (Some (no_photo user')))
      end.
Proof.
  intros Hu. unfold setupFaceAuth. rewrite Hu.
  unfold finally, catch. unfold mbind at 1, M_bind at 1, modify at 1.
  unfold mbind at 1, M_bind at 1. rewrite getUserProfile_run.
  unfold ensured. simpl users.
  destruct (users w !! Types.uid user') as [data|] eqn:Hdata; simpl.
  - unfold mbind at 1, M_bind at 1. unfold mret at 1, M_ret at 1.
    unfold mbind at 1, M_bind at 1. rewrite registerBiometric_run. simpl biometricCredentials.
    destruct (outcome env (Types.uid user') (biometricCredentials w)) as [att|m];
      cbn [negb Types.success Types.credentialId Types.error registered not_registered].
    + unfold mbind at 1, M_bind at 1.
      rewrite (updateDoc_users_run _ _ data) by done.
      unfold mbind at 1, M_bind at 1.
      destruct (render_userProfile self);
        [unfold modify at 1|unfold mret at 1, M_ret at 1]; cbv beta iota;
        unfold mbind at 1, M_bind at 1;
        rewrite logSecurityEvent_run;
        eexists _, _; (split; [reflexivity|]); simpl; by repeat split.
    + unfold throw at 1. cbv beta iota.
      unfold mbind at 1, M_bind at 1. rewrite logSecurityEvent_run.
      eexists _, _. split; [reflexivity|]. simpl. repeat split.
      by rewrite insert_id.
  - unfold mbind at 1, M_bind at 1. unfold mbind at 1, M_bind at 1.
    rewrite createUserProfile_run.
    destruct (JS.truthy_opt (Types.photoURL user')).
    + unfold mbind at 1, M_bind at 1.
      rewrite getUserProfile_run. unfold mret at 1, M_ret at 1.
      unfold mbind at 1, M_bind at 1. rewrite registerBiometric_run.
      simpl biometricCredentials.
      destruct (outcome env (Types.uid user') (biometricCredentials w)) as [att|m];
      cbn [negb Types.success Types.credentialId Types.error registered not_registered].
      * unfold mbind at 1, M_bind at 1.
        rewrite (updateDoc_users_run _ _ (new_profile env user'))
          by (simpl; apply lookup_insert_eq).
        unfold mbind at 1, M_bind at 1.
        destruct (render_userProfile self);
        [unfold modify at 1|unfold mret at 1, M_ret at 1]; cbv beta iota;
        unfold mbind at 1, M_bind at 1;
          rewrite logSecurityEvent_run;
          eexists _, _; (split; [reflexivity|]); simpl; repeat split;
          by rewrite insert_insert_eq.
      * unfold throw at 1. cbv beta iota.
        unfold mbind at 1, M_bind at 1. rewrite logSecurityEvent_run.
        eexists _, _. split; [reflexivity|]. simpl. by repeat split.
    + unfold mbind at 1, M_bind at 1. rewrite logSecurityEvent_run.
      eexists _, _. split; [reflexivity|]. simpl. by repeat split.
Qed.

Lemma outcome_inl (env : Env) (u : string) (store : BiometricCredentials.Store)
    (att : Attestation) :
  outcome env u store = inl att →
  credentials_create env = Ok (Some att)
  ∧ u ≠ ""
  ∧ BiometricAuthClient.arrayBufferToBase64url (att_rawId att) ≠ ""
  ∧ BiometricAuthClient.arrayBufferToBase64url (att_rawId att) ∉ credentialIds store.
Proof.
  unfold outcome. destruct (negb (PublicKeyCredential env)); [done|].
  destruct (isUserVerifyingPlatformAuthenticatorAvailable env) as [[|]|e]; [|done..].
  destruct (credentials_create env) as [[att'|]|e]; [|done..].
  destruct (JS.truthy u) eqn:Hu; [|done].
  destruct (JS.truthy (BiometricAuthClient.arrayBufferToBase64 _)); [|done].
  destruct (JS.truthy (BiometricAuthClient.arrayBufferToBase64url _)) eqn:HC; [|done].
  simpl. destruct (decide _) as [Hin|Hin]; [done|]. intros [= <-].
  split; [done|]. split; [by destruct u|]. split; [|done].
  by destruct (BiometricAuthClient.arrayBufferToBase64url _).
Qed.



(** With a photo the enrollment goes through; without one, and without a
    profile document, nothing is enrolled. *)
Example setupFaceAuth_photo :
  (setupFaceAuth env_create_789 render_u2 (world_of store_u1)).1 = Ok true
  ∧ (setupFaceAuth env_create_789 render_u1 (world_of store_u1)).1 = Ok false
  ∧ biometricCredentials (setupFaceAuth env_create_789 render_u1 (world_of store_u1)).2
    = store_u1
  ∧ users (setupFaceAuth env_create_789 render_u1 (world_of store_u1)).2 = ∅.
Proof. repeat split; reflexivity. Qed.

(** The user and the profile [signInWithFace] builds from the answer of
    the login route. *)
Definition authenticatedUser (env : Env) (userId' : string) (userData : UserData)
  : Types.User :=
  {| Types.uid := userId';
     Types.email := Some (ud_email userData);
     Types.displayName := Some (ud_displayName userData);
     Types.photoURL :=
       if JS.truthy_opt (ud_photoURL userData) then ud_photoURL userData else None;
     Types.providerId := "biometric";
     Types.creationTime := now env;
     Types.lastSignInTime := now env |}.

Definition authenticatedProfile (env : Env) (userId' : string) (userData : UserData)
  : Types.UserProfile :=
  {| Types.profile_uid := userId';
     Types.profile_email := ud_email userData;
     Types.profile_displayName := ud_displayName userData;
     Types.profile_photoURL := ud_photoURL userData;
     Types.profileCompleted := default false (ud_profileCompleted userData);
     Types.createdAt :=
       match ud_createdAt_seconds userData with
       | Some seconds => seconds * 1000
       | None => now env
       end;
     Types.lastLoginAt := now env;
     Types.authMethods := default [] (ud_authMethods userData);
     Types.securitySettings := ud_securitySettings userData;
     Types.biometricCredentialId := None |}.

(** A sign-in that goes through. *)
Lemma signInWithFace_run (env : Env) (login : BiometricLogin) (self : Render) (w : World)
    (assertion : Assertion) (d : string * BiometricCredentials.Data)
    (rest : list (string * BiometricCredentials.Data)) (userData : UserData) :
  available env = true →
  credentials_get env = Ok (Some assertion) →
  BiometricAuthClient.arrayBufferToBase64url (rawId assertion) ≠ "" →
  filter (fun d : string * BiometricCredentials.Data =>
            BiometricCredentials.credentialId d.2
            = BiometricAuthClient.arrayBufferToBase64url (rawId assertion))
    (biometricCredentials w) = d :: rest →
  BiometricCredentials.userId d.2 ≠ "" →
  login (BiometricCredentials.userId d.2) = Ok (json (LoginUser (Some userData)) 200) →
  signInWithFace env login self w =
    (Ok true,
     setLoading false
       (with_securityLogs
          (securityLogs w
           ++ stored env
                (event env self "login" "face" true
                   (Some "Biometric authentication successful")))
          (setUserProfile
             (Some (authenticatedProfile env (BiometricCredentials.userId d.2) userData))
             (setUser (Some (authenticatedUser env (BiometricCredentials.userId d.2) userData))
                (with_biometricCredentials
                   (BiometricCredentials.PUT (now env)
                      {| BiometricCredentials.put_credentialId :=
                           Some (BiometricAuthClient.arrayBufferToBase64url (rawId assertion));
                         BiometricCredentials.put_counter := Some 0 |}
                      (biometricCredentials w)).2
                   (setLoading true w)))))).
Proof.
  intros Ha Hget HC Hf Hu Hlogin.
  assert (PublicKeyCredential env = true) as Hs.
  { unfold available in Ha. by apply andb_prop in Ha as [? _]. }
  unfold signInWithFace, finally, catch.
  unfold mbind at 1, M_bind at 1, modify at 1.
  unfold mbind at 1, M_bind at 1. rewrite isBiometricAvailable_run, Ha.
  cbn [negb]. unfold mbind at 1, M_bind at 1.
  rewrite (authenticateUser_lookup env _ assertion Hs Hget _ eq_refl HC).
  change (biometricCredentials (setLoading true w)) with (biometricCredentials w).
  rewrite Hf. cbn [Types.success negb Types.userId].
  rewrite (truthy_true _ Hu). cbn [negb].
  unfold mbind at 1, M_bind at 1, lift at 1. rewrite Hlogin.
  cbn -[logSecurityEvent].
  do 2 (unfold mbind at 1, M_bind at 1, modify at 1; cbv beta iota).
  unfold mbind at 1, M_bind at 1. by rewrite logSecurityEvent_run.
Qed.

(** Enrollment, then sign-in: when [setupFaceAuth] has returned [true] for
    the signed-in user, a later [signInWithFace], from any page, on a
    device whose platform authenticator is available and answers with the
    credential that was enrolled, returns [true] with that user as the
    current user (provider "biometric") and a profile that has
    [faceRecognitionEnabled], as long as the two collections are as the
    enrollment left them, [/api/biometric-login] is served by the profile
    route, and the identifier of the user is one of letters and digits, as
    Firebase Authentication generates them.  The audit event of the
    sign-in is the one the page hands to Firestore: its user is the user
    of the page that started the sign-in, "anonymous" when nobody was
    signed in there, and it is stored when Firestore accepts the write. *)
Theorem enroll_then_sign_in
    (env env' : Env) (self self' : Render) (user' : Types.User) (w w1 w2 : World)
    (att : Attestation) (assertion : Assertion) :
  render_user self = Some user' →
  Firestore.plain_id (Types.uid user') = true →
  setupFaceAuth env self w = (Ok true, w1) →
  credentials_create env = Ok (Some att) →
  available env' = true →
  credentials_get env' = Ok (Some assertion) →
  rawId assertion = att_rawId att →
  biometricCredentials w2 = biometricCredentials w1 →
  users w2 = users w1 →
  ∃ w3 signed p,
    signInWithFace env' (BiometricLoginRoute.served (users w2)) self' w2 = (Ok true, w3)
    ∧ user w3 = Some signed
    ∧ Types.uid signed = Types.uid user' ∧ Types.providerId signed = "biometric"
    ∧ userProfile w3 = Some p
    ∧ Types.profile_uid p = Types.uid user'
    ∧ Types.faceRecognitionEnabled <$> Types.securitySettings p = Some true
    ∧ loading w3 = false
    ∧ securityLogs w3 =
        securityLogs w2
        ++ stored env'
             (event env' self' "login" "face" true
                (Some "Biometric authentication successful")).
Proof.
  intros Hu Hplain Hsetup Hcreate Ha Hget Hraw Hc2 Hu2.
  pose proof (FirestoreFacts.reference_plain _ Hplain) as Hdoc.
  destruct (setupFaceAuth_outcome env self user' w Hu) as (b & w' & Hrun & _ & _ & Hout).
  rewrite Hsetup in Hrun. injection Hrun as <- <-.
  destruct (ensured env user' w) as [p0|]; [|by destruct Hout].
  destruct (outcome env (Types.uid user') (biometricCredentials w)) as [att0|m] eqn:Ho.
  2:{ by destruct Hout. }
  destruct Hout as (_ & Hc1 & Hp1 & _).
  destruct (outcome_inl _ _ _ _ Ho) as (Hcreate0 & Hne & HC & Hfresh).
  rewrite Hcreate in Hcreate0. injection Hcreate0 as <-.
  set (C := BiometricAuthClient.arrayBufferToBase64url (att_rawId att)) in *.
  set (doc := (fresh env, enrolled env (Types.uid user') att)).
  set (p := flagged (Some C) p0).
  assert (BiometricLoginRoute.served (users w2) (Types.uid user')
          = Ok (BiometricLoginRoute.found p)) as Hlogin.
  { unfold BiometricLoginRoute.served, BiometricLoginRoute.POST. simpl JS.truthy_opt.
    rewrite (truthy_true _ Hne). cbn [negb].
    change (default "" (Some (Types.uid user'))) with (Types.uid user'). rewrite Hdoc.
    cbn [mbind result_bind]. by rewrite Hu2, Hp1, lookup_insert_eq. }
  assert (BiometricAuthClient.arrayBufferToBase64url (rawId assertion) ≠ "") as HC'
    by by rewrite Hraw.
  assert (filter (fun d : string * BiometricCredentials.Data =>
                    BiometricCredentials.credentialId d.2
                    = BiometricAuthClient.arrayBufferToBase64url (rawId assertion))
            (biometricCredentials w2) = [doc]) as Hf.
  { rewrite Hraw, Hc2, Hc1. by apply filter_fresh_identifier. }
  rewrite (signInWithFace_run env' _ self' w2 assertion doc [] _ Ha Hget HC' Hf Hne Hlogin).
  eexists _, _, _. split; [reflexivity|]. simpl. by repeat split.
Qed.

Lemma enroll_then_sign_in_witness :
  ∃ w3 signed p,
    signInWithFace env_create_789
      (BiometricLoginRoute.served
         (users (setupFaceAuth env_create_789 render_u2 (world_of store_u1)).2))
      render_nobody (setupFaceAuth env_create_789 render_u2 (world_of store_u1)).2
    = (Ok true, w3)
    ∧ user w3 = Some signed
    ∧ Types.uid signed = "u2" ∧ Types.providerId signed = "biometric"
    ∧ userProfile w3 = Some p
    ∧ Types.profile_uid p = "u2"
    ∧ Types.faceRecognitionEnabled <$> Types.securitySettings p = Some true
    ∧ loading w3 = false
    ∧ securityLogs w3 =
        securityLogs (setupFaceAuth env_create_789 render_u2 (world_of store_u1)).2
        ++ stored env_create_789
             (event env_create_789 render_nobody "login" "face" true
                (Some "Biometric authentication successful")).
Proof.
  apply (enroll_then_sign_in env_create_789 env_create_789 render_u2 render_nobody
           user_u2 (world_of store_u1)
           (setupFaceAuth env_create_789 render_u2 (world_of store_u1)).2
           (setupFaceAuth env_create_789 render_u2 (world_of store_u1)).2
           {| att_rawId := [x07; x08; x09]; getPublicKey := Some [x01; x02] |}
           {| rawId := [x07; x08; x09]; signature := [] |}); reflexivity.
Defined.

(** *** Signing out, and the other ways of signing in *)

(** With a Firestore that accepts every write, the events that are handed
    over are the events that are stored. *)
Lemma accepted_all (env : Env) (events : list SecurityLogs.Data) :
  (∀ ev, addDoc_securityLogs env ev = Ok tt) →
  filter (fun ev => accepted env ev = true) events = events.
Proof.
  intros Hok. induction events as [|ev events IH]; [done|].
  rewrite filter_cons_True; [by rewrite IH|]. unfold accepted. by rewrite Hok.
Qed.

(** [signOut] always clears the session: afterwards there is no current
    user and no profile, and [loading] is off, whether Firebase signed out
    or not.  It writes the event of a successful logout before it asks
    Firebase; when Firebase then fails, it writes a second event, of a
    failed logout with the message of the failure, and throws that
    message.  The writes are best effort: the log has these events, in
    this order, as far as Firestore accepted them, which is all of them
    when Firestore accepts every write.  The collections of credentials
    and users are not touched. *)
Theorem signOut_clears_the_session
    (env : Env) (auth : FirebaseAuth) (self : Render) (w : World) :
  let run := signOut env auth self w in
  user run.2 = None ∧ userProfile run.2 = None ∧ loading run.2 = false
  ∧ biometricCredentials run.2 = biometricCredentials w ∧ users run.2 = users w
  ∧ match firebaseSignOut auth with
    | Ok _ =>
        run.1 = Ok tt
        ∧ (securityLogs run.2).*2
          = (securityLogs w).*2
            ++ filter (fun ev => accepted env ev = true)
                 [event env self "logout" "manual" true None]
    | Throw e =>
        run.1 = Throw e
        ∧ (securityLogs run.2).*2
          = (securityLogs w).*2
            ++ filter (fun ev => accepted env ev = true)
                 [event env self "logout" "manual" true None;
                  event env self "logout" "manual" false (Some e)]
    end
  ∧ ((∀ ev, addDoc_securityLogs env ev = Ok tt) →
     match firebaseSignOut auth with
     | Ok _ =>
         (securityLogs run.2).*2
         = (securityLogs w).*2 ++ [event env self "logout" "manual" true None]
     | Throw e =>
         (securityLogs run.2).*2
         = (securityLogs w).*2
           ++ [event env self "logout" "manual" true None;
               event env self "logout" "manual" false (Some e)]
     end).
Proof.
  assert (∀ events, (∀ ev, addDoc_securityLogs env ev = Ok tt) →
                    filter (fun ev => accepted env ev = true) events = events)
    as Hall by (intros events Hok; by apply accepted_all).
  unfold signOut, catch, mbind, M_bind, lift. rewrite logSecurityEvent_run.
  destruct (firebaseSignOut auth) as [[]|e]; cbv beta iota.
  - simpl. do 5 (split; [done|]).
    assert ((securityLogs w ++ stored env (event env self "logout" "manual" true None)).*2
            = (securityLogs w).*2
              ++ filter (fun ev => accepted env ev = true)
                   [event env self "logout" "manual" true None]) as Hlog
      by (by rewrite fmap_app, stored_events).
    split; [by split|]. intros Hok. rewrite Hlog. by rewrite (Hall _ Hok).
  - rewrite logSecurityEvent_run. simpl. do 5 (split; [done|]).
    assert (((securityLogs w ++ stored env (event env self "logout" "manual" true None))
             ++ stored env (event env self "logout" "manual" false (Some e))).*2
            = (securityLogs w).*2
              ++ filter (fun ev => accepted env ev = true)
                   [event env self "logout" "manual" true None;
                    event env self "logout" "manual" false (Some e)]) as Hlog.
    { rewrite !fmap_app, !stored_events, <- app_assoc. f_equal.
      by rewrite <- filter_app. }
    split; [by split|]. intros Hok. rewrite Hlog. by rewrite (Hall _ Hok).
Qed.

(** What an attempt to sign in leaves behind: [run] is the attempt,
    [firebase] what the SDK answered, [failure] the prefix of the message
    that is thrown, [creates user'] says that the function creates the
    profile document of the user, and [announced] that it writes the event
    of success before it turns to the profile. *)
Definition attempt (env : Env) (self : Render) (w : World) (action' method' failure : string)
    (firebase : result Types.User) (creates : Types.User → bool) (announced : bool)
    (run : result unit * World) : Prop :=
  user run.2 = user w ∧ loading run.2 = false
  ∧ biometricCredentials run.2 = biometricCredentials w
  ∧ match firebase with
    | Ok user' =>
        if creates user' && negb (JS.truthy_opt (Types.photoURL user'))
        then
          run.1 = Throw (failure +:+ no_photo user')
          ∧ users run.2 = users w
          ∧ (securityLogs run.2).*2
            = (securityLogs w).*2
              ++ filter (fun ev => accepted env ev = true)
                   ((if announced then [event env self action' method' true None] else [])
                    ++ [event env self action' method' false (Some (no_photo user'))])
        else
          run.1 = Ok tt
          ∧ is_Some (users run.2 !! Types.uid user')
          ∧ (∀ u, u ≠ Types.uid user' → users run.2 !! u = users w !! u)
          ∧ (securityLogs run.2).*2
            = (securityLogs w).*2
              ++ filter (fun ev => accepted env ev = true)
                   [event env self action' method' true None]
    | Throw e =>
        run.1 = Throw (failure +:+ e)
        ∧ users run.2 = users w
        ∧ (securityLogs run.2).*2
          = (securityLogs w).*2
            ++ filter (fun ev => accepted env ev = true)
                 [event env self action' method' false (Some e)]
    end.

(** [plain_user r]: the user the SDK answered with, if any, has an
    identifier of letters and digits. *)
Definition plain_user (r : result Types.User) : Prop :=
  match r with
  | Ok user' => Firestore.plain_id (Types.uid user') = true
  | Throw _ => True
  end.

(** [signIn], [signUp] and [signInWithGoogle] hand one audit event to
    Firestore for an attempt, of success when the attempt went through and
    of failure, with the message, when it did not, in which case they
    throw that message behind their own prefix.  An attempt fails when the
    SDK refuses it, and also when the SDK accepts it but the profile
    document has to be created for a user without a photo, which [setDoc]
    refuses: [signIn] and [signInWithGoogle] create the document when
    there is none, [signUp] always does, so that [signUp] fails for every
    user without a photo although Firebase has created the account.
    [signIn] has then already written the event of success, and the
    attempt leaves two events.  After a success the profile document of
    the user exists and no other profile document has changed; after a
    failure the profile documents are as they were.  None of the three
    sets the current user (the listener of the authentication state does),
    and [loading] is off afterwards.  The log has the events Firestore
    accepted.  The users the SDK answers with have identifiers of letters
    and digits. *)
Theorem sign_in_attempts
    (env : Env) (auth : FirebaseAuth) (self : Render) (w : World)
    (email' password displayName' : string) :
  plain_user (signInWithEmailAndPassword auth email' password) →
  plain_user (createUserWithEmailAndPassword auth email' password) →
  plain_user (signInWithPopup auth) →
  attempt env self w "login" "email" "Sign in failed: "
    (signInWithEmailAndPassword auth email' password)
    (fun user' => bool_decide (users w !! Types.uid user' = None)) true
    (signIn env auth self email' password w)
  ∧ attempt env self w "signup" "email" "Sign up failed: "
      (user' ← createUserWithEmailAndPassword auth email' password;
       _ ← updateProfile auth user' displayName';
       Ok user')
      (fun _ => true) false
      (signUp env auth self email' password displayName' w)
  ∧ attempt env self w "login" "google" "Google sign-in failed: "
      (signInWithPopup auth)
      (fun user' => bool_decide (users w !! Types.uid user' = None)) false
      (signInWithGoogle env auth self w).
Proof.
  intros _ _ _. split; [|split]; unfold attempt.
  - remember (signIn env auth self email' password w) as run eqn:Hrun. revert Hrun.
    unfold signIn, finally, catch.
    unfold mbind at 1, M_bind at 1, modify at 1.
    unfold mbind at 1, M_bind at 1, lift at 1.
    destruct (signInWithEmailAndPassword auth email' password) as [u|e].
    2:{ unfold mbind at 1, M_bind at 1. rewrite logSecurityEvent_run. intros ->. simpl.
        repeat split. by rewrite fmap_app, stored_events. }
    unfold mbind at 1, M_bind at 1. rewrite logSecurityEvent_run.
    unfold mbind at 1, M_bind at 1. rewrite getUserProfile_run.
    change (users (with_securityLogs _ _)) with (users w).
    change (users (setLoading true w)) with (users w).
    destruct (users w !! Types.uid u) as [p|] eqn:Hp.
    + change (profile_of <$> Some p) with (Some (profile_of p)). cbv iota.
      unfold mret at 1, M_ret at 1. intros ->. simpl. rewrite Hp. repeat split; [by eexists|].
      by rewrite fmap_app, stored_events.
    + change (profile_of <$> None) with (@None Types.UserProfile). cbv iota.
      rewrite createUserProfile_run.
      rewrite bool_decide_true by done.
      destruct (JS.truthy_opt (Types.photoURL u)); cbn [andb negb].
      * intros ->. simpl. rewrite lookup_insert_eq. repeat split; [by eexists| |].
        -- intros u' Hne. by rewrite lookup_insert_ne.
        -- by rewrite fmap_app, stored_events.
      * unfold mbind at 1, M_bind at 1. rewrite logSecurityEvent_run. intros ->. simpl.
        repeat split. rewrite !fmap_app, !stored_events, <- app_assoc. f_equal.
        by rewrite <- filter_app.
  - remember (signUp env auth self email' password displayName' w) as run eqn:Hrun.
    revert Hrun. unfold signUp, finally, catch.
    unfold mbind at 1, M_bind at 1, modify at 1.
    unfold mbind at 1, M_bind at 1, lift at 1.
    destruct (createUserWithEmailAndPassword auth email' password) as [u|e].
    2:{ unfold mbind at 1, M_bind at 1. rewrite logSecurityEvent_run. intros ->. simpl.
        repeat split. by rewrite fmap_app, stored_events. }
    unfold mbind at 1, M_bind at 1, lift at 1. cbn [mbind result_bind].
    destruct (updateProfile auth u displayName') as [[]|e].
    2:{ unfold mbind at 1, M_bind at 1. rewrite logSecurityEvent_run. intros ->. simpl.
        repeat split. by rewrite fmap_app, stored_events. }
    unfold mbind at 1, M_bind at 1. rewrite createUserProfile_run.
    cbn [Types.photoURL Types.uid andb].
    destruct (JS.truthy_opt (Types.photoURL u)) eqn:Hphoto; cbn [andb negb].
    + rewrite logSecurityEvent_run. intros ->. simpl. rewrite Hphoto. simpl.
      rewrite lookup_insert_eq. repeat split; [by eexists| |].
      * intros u' Hne. by rewrite lookup_insert_ne.
      * by rewrite fmap_app, stored_events.
    + unfold mbind at 1, M_bind at 1. rewrite logSecurityEvent_run. intros ->. simpl.
      rewrite Hphoto. simpl. repeat split. by rewrite fmap_app, stored_events.
  - remember (signInWithGoogle env auth self w) as run eqn:Hrun. revert Hrun.
    unfold signInWithGoogle, finally, catch.
    unfold mbind at 1, M_bind at 1, modify at 1.
    unfold mbind at 1, M_bind at 1, lift at 1.
    destruct (signInWithPopup auth) as [u|e].
    2:{ unfold mbind at 1, M_bind at 1. rewrite logSecurityEvent_run. intros ->. simpl.
        repeat split. by rewrite fmap_app, stored_events. }
    unfold mbind at 1, M_bind at 1. rewrite getUserProfile_run.
    change (users (with_securityLogs _ _)) with (users w).
    change (users (setLoading true w)) with (users w).
    destruct (users w !! Types.uid u) as [p|] eqn:Hp.
    + change (profile_of <$> Some p) with (Some (profile_of p)). cbv iota.
      unfold mbind at 1, M_bind at 1.
      unfold mret at 1, M_ret at 1. rewrite logSecurityEvent_run.
      intros ->. simpl. rewrite Hp. repeat split; [by eexists|].
      by rewrite fmap_app, stored_events.
    + change (profile_of <$> None) with (@None Types.UserProfile). cbv iota.
      unfold mbind at 1, M_bind at 1.
      rewrite createUserProfile_run. rewrite bool_decide_true by done.
      destruct (JS.truthy_opt (Types.photoURL u)); cbn [andb negb].
      * rewrite logSecurityEvent_run. intros ->. simpl.
        rewrite lookup_insert_eq. repeat split; [by eexists| |].
        -- intros u' Hne. by rewrite lookup_insert_ne.
        -- by rewrite fmap_app, stored_events.
      * unfold mbind at 1, M_bind at 1. rewrite logSecurityEvent_run. intros ->. simpl.
        repeat split. by rewrite fmap_app, stored_events.
Qed.

(** A new user with a password has no photo: the sign-up creates the
    account, fails at the profile document and leaves an event of failure
    only. *)
Definition auth_u1 : FirebaseAuth :=
  {| signInWithEmailAndPassword := fun _ _ => Throw "auth/user-not-found";
     createUserWithEmailAndPassword := fun email' _ =>
       Ok {| Types.uid := "u1"; Types.email := Some email';
             Types.displayName := None; Types.photoURL := None;
             Types.providerId := "password"; Types.creationTime := 1;
             Types.lastSignInTime := 1 |};
     updateProfile := fun _ _ => Ok tt;
     signInWithPopup := Ok user_u2;
     firebaseSignOut := Ok tt |}.

Lemma sign_in_attempts_witness :
  attempt env_123 render_nobody (world_of store_u1) "login" "email" "Sign in failed: "
    (signInWithEmailAndPassword auth_u1 "u1@example.org" "secret")
    (fun user' => bool_decide (users (world_of store_u1) !! Types.uid user' = None)) true
    (signIn env_123 auth_u1 render_nobody "u1@example.org" "secret" (world_of store_u1))
  ∧ attempt env_123 render_nobody (world_of store_u1) "signup" "email" "Sign up failed: "
      (user' ← createUserWithEmailAndPassword auth_u1 "u1@example.org" "secret";
       _ ← updateProfile auth_u1 user' "U One";
       Ok user')
      (fun _ => true) false
      (signUp env_123 auth_u1 render_nobody "u1@example.org" "secret" "U One"
         (world_of store_u1))
  ∧ attempt env_123 render_nobody (world_of store_u1) "login" "google"
      "Google sign-in failed: "
      (signInWithPopup auth_u1)
      (fun user' => bool_decide (users (world_of store_u1) !! Types.uid user' = None)) false
      (signInWithGoogle env_123 auth_u1 render_nobody (world_of store_u1)).
Proof.
  apply (sign_in_attempts env_123 auth_u1 render_nobody (world_of store_u1)
           "u1@example.org" "secret" "U One");
    [exact I | reflexivity | reflexivity].
Defined.

Example signUp_without_photo :
  (∃ message,
     (signUp env_123 auth_u1 render_nobody "u1@example.org" "secret" "U One"
        (world_of store_u1)).1 = Throw ("Sign up failed: " +:+ message))
  ∧ users (signUp env_123 auth_u1 render_nobody "u1@example.org" "secret" "U One"
             (world_of store_u1)).2 = ∅
  ∧ SecurityLogs.success
    <$> (securityLogs (signUp env_123 auth_u1 render_nobody "u1@example.org" "secret"
                         "U One" (world_of store_u1)).2).*2
    = [false]
  ∧ (signInWithGoogle env_123 auth_u1 render_nobody (world_of store_u1)).1 = Ok tt
  ∧ is_Some (users (signInWithGoogle env_123 auth_u1 render_nobody (world_of store_u1)).2
             !! "u2").
Proof.
  split; [by eexists|]. split; [reflexivity|]. split; [reflexivity|].
  split; [reflexivity|]. by eexists.
Qed.

End SessionFacts.


(** ** The functions of utils/authHelpers.ts *)

Module AuthHelpersFacts.
Import Http World Browser.
Import BiometricCredentialsFacts VerificationFacts.

(** [keeps f m]: the computation [m] leaves the part [f] of the world as
    it was. *)
Definition keeps {A X} (f : World → X) (m : M A) : Prop :=
  ∀ w, f (m w).2 = f w.

Section Keeps.
Context {X : Type} (f : World → X).

Lemma keeps_ret {A} (a : A) : keeps f (mret a).
Proof. by intros w. Qed.

Lemma keeps_throw {A} (e : string) : keeps f (@throw A e).
Proof. by intros w. Qed.

Lemma keeps_lift {A} (r : result A) : keeps f (lift r).
Proof. by intros w. Qed.

Lemma keeps_bind {A B} (m : M A) (g : A → M B) :
  keeps f m → (∀ a, keeps f (g a)) → keeps f (m ≫= g).
Proof.
  intros Hm Hg w. unfold mbind, M_bind. specialize (Hm w).
  destruct (m w) as [[a|e] w']; simpl in *; [|done].
  by rewrite Hg.
Qed.

Lemma keeps_catch {A} (m : M A) (h : string → M A) :
  keeps f m → (∀ e, keeps f (h e)) → keeps f (catch m h).
Proof.
  intros Hm Hh w. unfold catch. specialize (Hm w).
  destruct (m w) as [[a|e] w']; simpl in *; [done|].
  by rewrite Hh.
Qed.

Lemma keeps_finally {A} (m : M A) (cleanup : World → World) :
  keeps f m → (∀ w, f (cleanup w) = f w) → keeps f (finally m cleanup).
Proof.
  intros Hm Hc w. unfold finally. specialize (Hm w).
  destruct (m w) as [r w']; simpl in *. by rewrite Hc.
Qed.

Lemma keeps_modify (g : World → World) : (∀ w, f (g w) = f w) → keeps f (modify g).
Proof. intros Hg w. apply Hg. Qed.

Lemma keeps_fetch_credentials {J}
    (route : BiometricCredentials.Store → Response J * BiometricCredentials.Store) :
  (∀ c w, f (with_biometricCredentials c w) = f w) → keeps f (fetch_credentials route).
Proof. intros Hf w. unfold fetch_credentials. destruct (route _). apply Hf. Qed.

End Keeps.

(** Walk through a computation built from the combinators. *)
Ltac keeps_steps :=
  repeat first
    [ progress intros
    | apply keeps_ret
    | apply keeps_throw
    | apply keeps_lift
    | apply keeps_bind
    | apply keeps_catch
    | apply keeps_finally
    | apply keeps_modify; reflexivity
    | apply keeps_fetch_credentials; reflexivity
    | solve [auto]
    | match goal with
      | |- keeps _ (if ?b then _ else _) => destruct b
      | |- keeps _ (match ?x with _ => _ end) => destruct x
      end ].

(** The session and the profile documents: the current user, the current
    profile and the collection [users]. *)
Definition session (w : World) : option Types.User * option Types.UserProfile
                                 * gmap string Types.UserProfile :=
  (user w, userProfile w, users w).

(** The functions of authHelpers.ts never set the current user or the
    profile and never write a profile document, whatever they return:
    when the [logSecurityEvent] they are given leaves these alone, so do
    [setupFaceAuth] and [signInWithFace].  In particular a [signInWithFace]
    that returns [true] has signed nobody in, and a [setupFaceAuth] that
    returns [true] has not flagged the profile of the user. *)
Theorem authHelpers_leave_the_session_alone
    (env : Env) (user' : option Types.User)
    (logSecurityEvent : string → string → bool → option string → M unit) (w : World) :
  (∀ a m s d, keeps session (logSecurityEvent a m s d)) →
  session (AuthHelpers.setupFaceAuth env user' logSecurityEvent w).2 = session w
  ∧ session (AuthHelpers.signInWithFace env logSecurityEvent w).2 = session w.
Proof.
  intros Hlog. split.
  - assert (keeps session (AuthHelpers.setupFaceAuth env user' logSecurityEvent)) as H;
      [|apply H].
    unfold AuthHelpers.setupFaceAuth, BiometricAuthClient.registerBiometric. keeps_steps.
  - assert (keeps session (AuthHelpers.signInWithFace env logSecurityEvent)) as H;
      [|apply H].
    unfold AuthHelpers.signInWithFace, BiometricAuthClient.isBiometricAvailable,
      BiometricAuthClient.authenticateUser. keeps_steps.
Qed.

Lemma authHelpers_leave_the_session_alone_witness :
  session (AuthHelpers.setupFaceAuth env_123 None
             (AuthContext.logSecurityEvent env_123 AuthContextFacts.render_nobody)
             (world_of store_u1)).2 = session (world_of store_u1)
  ∧ session (AuthHelpers.signInWithFace env_123
               (AuthContext.logSecurityEvent env_123 AuthContextFacts.render_nobody)
               (world_of store_u1)).2 = session (world_of store_u1).
Proof.
  apply (authHelpers_leave_the_session_alone env_123 None
           (AuthContext.logSecurityEvent env_123 AuthContextFacts.render_nobody)
           (world_of store_u1)).
  intros a m s d w. reflexivity.
Defined.

(** With the credential of [store_u1] the verification succeeds, and
    [signInWithFace] of authHelpers.ts returns [true]. *)
Example authHelpers_signInWithFace_true :
  (AuthHelpers.signInWithFace env_123
     (AuthContext.logSecurityEvent env_123 AuthContextFacts.render_nobody)
     (world_of store_u1)).1 = Ok true.
Proof. reflexivity. Qed.

End AuthHelpersFacts.


(** ** The face template route *)

Module FaceTemplateFacts.
Import Http FaceTemplate.

(** A body the route accepts. *)
Definition template_body (u t : string) : PostBody :=
  {| post_userId := Some u; post_templateData := Some (VString t) |}.








(** A user identifier with a slash. *)
Example template_POST_path :
  POST 1 2 (template_body "a/b" "dGVtcGxhdGU=") ∅
  = (json (Error "Failed to store face template") 500, ∅)
  ∧ (GET (Some "/u1/") (POST 1 2 (template_body "u1" "dGVtcGxhdGU=") ∅).2).1
    = json (Template (Some "dGVtcGxhdGU=") (Some true) (Some 1) (Some 2)) 200.
Proof. split; reflexivity. Qed.




End FaceTemplateFacts.

(** ** Enrollment by utils/biometricAuthServer.ts *)

Module ServerEnrollmentFacts.
Import Http World Browser.
Import BiometricCredentialsFacts VerificationFacts EnrollmentFacts.

(** The result of the server utility for a result of the client: an empty
    error message is replaced. *)
Definition or_registration_failed (r : Types.BiometricAuthResult) : Types.BiometricAuthResult :=
  {| Types.success := Types.success r;
     Types.credentialId := Types.credentialId r;
     Types.userId := Types.userId r;
     Types.error := (fun m => JS.or_else (Some m) "Registration failed") <$> Types.error r |}.

(** The two utilities enroll in the same way on a device whose platform
    authenticator is available: [registerBiometric] of
    [biometricAuthServer] returns what that of [biometricAuthClient]
    returns, with "Registration failed" in the place of an empty error
    message, and leaves the same world behind, with the singleton
    initialized.  On a device without the authenticator the client
    returns a failure, while the server utility, when it is not yet
    initialized, throws out of [initialize]. *)
Theorem server_registerBiometric_agrees_with_client
    (env : Env) (u n d : string) (w : World) :
  if available env
  then ∃ r w',
         BiometricAuthClient.registerBiometric env u n d w = (Ok r, w')
         ∧ BiometricAuthServer.registerBiometric env u n d w
           = (Ok (or_registration_failed r), with_isInitialized true w')
  else (∃ r, BiometricAuthClient.registerBiometric env u n d w = (Ok r, w)
             ∧ Types.success r = false)
       ∧ (isInitialized w = false →
          ∃ m, BiometricAuthServer.registerBiometric env u n d w = (Throw m, w)).
Proof.
  rewrite registerBiometric_run.
  destruct (available env) eqn:Ha.
  - unfold BiometricAuthServer.registerBiometric.
    unfold mbind at 1, M_bind at 1, get. unfold mbind at 1, M_bind at 1.
    rewrite (ServerVerificationFacts.initialized env w) by by right.
    unfold outcome.
    unfold available in Ha. apply andb_prop in Ha as [Hp Ha]. rewrite Hp.
    destruct (isUserVerifyingPlatformAuthenticatorAvailable env) as [[|]|e]; [|done..].
    cbn [negb]. unfold catch, mbind, M_bind, lift.
    destruct (credentials_create env) as [[att|]|e];
      [|eexists _, _; (split; [reflexivity|done])..].
    unfold fetch_credentials, BiometricAuthServer.arrayBufferToBase64url.
    rewrite POST_cases.
    change (biometricCredentials (with_isInitialized true w)) with (biometricCredentials w).
    destruct (negb (JS.truthy u) || _ || _);
      [eexists _, _; (split; [reflexivity|done])|].
    destruct (decide (_ ∈ credentialIds (biometricCredentials w)));
      eexists _, _; (split; [reflexivity|done]).
  - split.
    + unfold outcome. unfold available in Ha.
      destruct (PublicKeyCredential env); simpl in *; [|by eexists].
      destruct (isUserVerifyingPlatformAuthenticatorAvailable env) as [[|]|e];
        [done|by eexists..].
    + intros Hi. unfold BiometricAuthServer.registerBiometric.
      unfold mbind at 1, M_bind at 1, get. unfold mbind at 1, M_bind at 1.
      rewrite Hi. cbn [negb]. unfold BiometricAuthServer.initialize.
      unfold available in Ha.
      destruct (PublicKeyCredential env) eqn:Hp; simpl in *; [|by eexists].
      unfold mbind, M_bind, BiometricAuthServer.isBiometricAvailable.
      rewrite isBiometricAvailable_run. unfold available. rewrite Hp. simpl.
      destruct (isUserVerifyingPlatformAuthenticatorAvailable env) as [[|]|e];
        [done|by eexists..].
Qed.

End ServerEnrollmentFacts.
